(** * cwxai-server: credit ledger, report jobs, fan-out generation and the
    retrieval index cache

    A shallow embedding of the Python sources

      - [services/user_crud_service.py]      (credit ledger)
      - [routes/summarized_workflow_route.py] (admission and status routes)
      - [tasks.py]                            (the three Celery tasks)
      - [services/generate_final_report.py]   (currency helper, fan-out)
      - [utils/document_processing.py]        (FAISS index cache)
      - [services/free_report_generation.py]  (free-tier currency helper,
                                               input checks, completion call)
      - [services/generate_json_report.py]    (JSON conversion)

    Python values are modelled by [pyval], exceptions by [exn], a call that
    may raise by [result].  Stateful code passes its state explicitly.  The
    external collaborators (generation, search, scraping, blob upload,
    report persistence, embeddings) are not modelled: the outcome of each of
    their calls, a value or an exception, is supplied by the environment and
    is arbitrary in every theorem.

    The definitions come first, one module per source file; the properties
    follow, grouped the same way. *)

From Stdlib Require Import ZArith String Ascii List Bool Lia.
From stdpp Require Import base option gmap strings pretty list.
Import ListNotations.

Set Warnings "-register-all".
Local Open Scope string_scope.
Local Open Scope Z_scope.

(** ** Python values and exceptions *)

(** The exception classes the modelled code raises or catches.  All of them
    are subclasses of Python's [Exception], so an [except Exception] clause
    catches each of them. *)
Inductive exn : Type :=
| Exception (msg : string)
| ValueError (msg : string)
| KeyError (msg : string)
| TypeError (msg : string)
| AttributeError (msg : string)
| SoftTimeLimitExceeded (msg : string).

(** [str(e)] *)
Definition str_exn (e : exn) : string :=
  match e with
  | Exception m | ValueError m | KeyError m | TypeError m | AttributeError m
  | SoftTimeLimitExceeded m => m
  end.

Inductive result (A : Type) : Type :=
| Ok (a : A)
| Raise (e : exn).
Arguments Ok {A} a.
Arguments Raise {A} e.

Definition is_ok {A} (r : result A) : bool :=
  match r with Ok _ => true | Raise _ => false end.

(** JSON-shaped Python objects: the request body, task arguments and the
    documents returned by the stores. *)
Inductive pyval : Type :=
| PNone
| PBool (b : bool)
| PInt (n : Z)
| PStr (s : string)
| PList (l : list pyval)
| PDict (kvs : list (string * pyval)).

(** Python truthiness, as tested by [if not x] and [x or y]. *)
Definition truthy (v : pyval) : bool :=
  match v with
  | PNone => false
  | PBool b => b
  | PInt n => negb (n =? 0)
  | PStr s => negb (String.eqb s "")
  | PList l => match l with [] => false | _ => true end
  | PDict kvs => match kvs with [] => false | _ => true end
  end.

(** [isinstance(v, str)] *)
Definition is_str (v : pyval) : bool :=
  match v with PStr _ => true | _ => false end.

(** [isinstance(v, dict)] *)
Definition is_dict (v : pyval) : bool :=
  match v with PDict _ => true | _ => false end.

Fixpoint assoc (k : string) (kvs : list (string * pyval)) : option pyval :=
  match kvs with
  | [] => None
  | (k', v) :: rest => if String.eqb k k' then Some v else assoc k rest
  end.

(** [d.get(k, default)] on a dict. *)
Definition dict_get (d : list (string * pyval)) (k : string) (default : pyval) : pyval :=
  match assoc k d with Some v => v | None => default end.

(** [v.get(k, default)]: only a dict has the method. *)
Definition py_get (v : pyval) (k : string) (default : pyval) : result pyval :=
  match v with
  | PDict d => Ok (dict_get d k default)
  | _ => Raise (AttributeError "object has no attribute 'get'")
  end.

(** [v[k]] with a string key. *)
Definition py_getitem (v : pyval) (k : string) : result pyval :=
  match v with
  | PDict d => match assoc k d with
               | Some x => Ok x
               | None => Raise (KeyError k)
               end
  | _ => Raise (TypeError "object is not subscriptable")
  end.

(** [repr(v)]; strings are quoted without escapes, which is Python's output
    for text free of quotes, backslashes and control characters. *)
Fixpoint py_repr (v : pyval) : string :=
  match v with
  | PNone => "None"
  | PBool true => "True"
  | PBool false => "False"
  | PInt n => pretty n
  | PStr s => "'" +:+ s +:+ "'"
  | PList l =>
      "[" +:+
      (fix items (l : list pyval) : string :=
         match l with
         | [] => ""
         | x :: r => py_repr x +:+ match r with [] => "" | _ => ", " +:+ items r end
         end) l +:+ "]"
  | PDict kvs =>
      "{" +:+
      (fix items (l : list (string * pyval)) : string :=
         match l with
         | [] => ""
         | (k, x) :: r =>
             "'" +:+ k +:+ "': " +:+ py_repr x +:+
             match r with [] => "" | _ => ", " +:+ items r end
         end) kvs +:+ "}"
  end.

(** [str(v)], the rendering of [{v}] inside an f-string. *)
Definition py_str (v : pyval) : string :=
  match v with PStr s => s | _ => py_repr v end.

(** ** The credit ledger ([services/user_crud_service.py]) *)

Module Ledger.

(** [models/user.py], class [Credits]. *)
Record Credits : Type := mkCredits {
  paid_credits : Z;
  free_credits : Z
}.

(** The [users] collection, keyed by user id; of a user document the
    ledger reads and writes the [credits] sub-document only. *)
Abbreviation users := (gmap string Credits).

(** [user['credits'][f'{credit_type}_credits']] *)
Definition bucket (credit_type : string) (c : Credits) : Z :=
  if String.eqb credit_type "free" then free_credits c else paid_credits c.

(** [{'$inc': {f'credits.{credit_type}_credits': amount}}] *)
Definition inc_bucket (credit_type : string) (amount : Z) (c : Credits) : Credits :=
  if String.eqb credit_type "free"
  then mkCredits (paid_credits c) (free_credits c + amount)
  else mkCredits (paid_credits c + amount) (free_credits c).

(** [credit_type not in ['free', 'paid']] *)
Definition valid_credit_type (credit_type : string) : bool :=
  String.eqb credit_type "free" || String.eqb credit_type "paid".

(** [collection.update_one({'_id': id}, {'$inc': ...})]: the new
    collection and [result.modified_count].  MongoDB counts a document as
    modified only when the update changes it, so an increment by zero
    reports 0. *)
Definition update_one_inc (db : users) (user_id : string) (credit_type : string)
    (amount : Z) : users * Z :=
  match db !! user_id with
  | None => (db, 0)
  | Some c =>
      if amount =? 0 then (db, 0)
      else (<[user_id := inc_bucket credit_type amount c]> db, 1)
  end.

(** The body of the [try] block of [update_user_credits_by_type]. *)
Definition update_user_credits_body (db : users) (user_id : string) (amount : Z)
    (credit_type : string) : users * result Credits :=
  if negb (valid_credit_type credit_type) then
    (db, Raise (ValueError "Invalid credit type. Must be 'free' or 'paid'."))
  else
    match db !! user_id with
    | None => (db, Raise (Exception "User not found"))
    | Some user =>
        let current_credits := bucket credit_type user in
        if (amount <? 0) && (Z.abs amount >? current_credits) then
          (db, Raise (Exception ("Insufficient " +:+ credit_type +:+ " credits")))
        else
          let '(db', modified_count) := update_one_inc db user_id credit_type amount in
          if modified_count =? 0 then
            (db', Raise (Exception "Credit update failed"))
          else
            match db' !! user_id with
            | Some updated_user => (db', Ok updated_user)
            | None => (db', Raise (TypeError "'NoneType' object is not subscriptable"))
            end
    end.

(** [update_user_credits_by_type]: every exception of the body is
    re-raised as [Exception(f"Error updating user credits: {e}")]. *)
Definition update_user_credits_by_type (db : users) (user_id : string) (amount : Z)
    (credit_type : string) : users * result Credits :=
  match update_user_credits_body db user_id amount credit_type with
  | (db', Ok u) => (db', Ok u)
  | (db', Raise e) =>
      (db', Raise (Exception ("Error updating user credits: " +:+ str_exn e)))
  end.

(** [get_user_credits]: the [credits] sub-document of the user. *)
Definition get_user_credits (db : users) (user_id : string) : result Credits :=
  match db !! user_id with
  | None => Raise (Exception "Error fetching user credits: User not found")
  | Some c => Ok c
  end.

(** Both balances of every account are non-negative. *)
Definition credits_nonneg (db : users) : Prop :=
  map_Forall (fun _ c => 0 <= free_credits c /\ 0 <= paid_credits c) db.

(** The bucket that is not named by [credit_type]. *)
Definition other_bucket (credit_type : string) (c : Credits) : Z :=
  if String.eqb credit_type "free" then paid_credits c else free_credits c.

End Ledger.

(** ** Admission control ([routes/summarized_workflow_route.py]) *)

Module Admission.
Import Ledger.

(** A task handed to the queue by [.delay(...)], with its arguments. *)
Inductive job : Type :=
| generate_free_report_job (data : pyval) (current_user : string)
    (userIdeasId slug : pyval)
| execute_workflow_and_generate_report_job (data : pyval) (current_user : string)
    (userIdeasId slug : pyval)
| upgrade_report_to_paid_job (data : pyval) (current_user : string)
    (userIdeasId report_id problem_response location : pyval).

(** [jsonify(body), status] *)
Record response : Type := mkResponse {
  body : list (string * pyval);
  status : Z
}.

Definition error_response (msg : string) (code : Z) : response :=
  mkResponse [("error", PStr msg)] code.

Definition submitted (task_id : string) (msg : string) : response :=
  mkResponse [("task_id", PStr task_id); ("status", PStr msg)] 202.

(** [str.lower] on ASCII letters. *)
Definition lower_char (c : ascii) : ascii :=
  let n := nat_of_ascii c in
  if ((65 <=? n) && (n <=? 90))%nat then ascii_of_nat (n + 32) else c.

Fixpoint lower (s : string) : string :=
  match s with
  | EmptyString => EmptyString
  | String c r => String (lower_char c) (lower r)
  end.

(** Lines 81-117 of [execute_workflow_and_generate_report]: the credit
    check, the debit and the hand-over to the queue, for an
    [access_level] already known to be ['free'] or ['paid'].  [delay] is
    the outcome of [task.delay(...)], the id of the queued task. *)
Definition check_and_debit (db : users) (current_user : string) (access_level : string)
    (data userIdeasId slug : pyval) (delay : result string)
    : users * option job * response :=
  let internal_error :=
    error_response "Internal server error during report generation" 500 in
  match get_user_credits db current_user with
  | Raise _ => (db, None, internal_error)
  | Ok user_credits =>
      let free_credits := free_credits user_credits in
      let paid_credits := paid_credits user_credits in
      if String.eqb access_level "free" then
        if free_credits <? 1 then
          (db, None, error_response "Insufficient free credits" 403)
        else
          match update_user_credits_by_type db current_user (-1) "free" with
          | (db', Raise _) =>
              (db', None, error_response "Failed to deduct free credit" 500)
          | (db', Ok _) =>
              match delay with
              | Raise _ => (db', None, internal_error)
              | Ok task_id =>
                  (db', Some (generate_free_report_job data current_user userIdeasId slug),
                   submitted task_id "Report generation task submitted")
              end
          end
      else if String.eqb access_level "paid" then
        if paid_credits <? 1 then
          (db, None, error_response "Insufficient paid credits" 403)
        else
          match update_user_credits_by_type db current_user (-1) "paid" with
          | (db', Raise _) =>
              (db', None, error_response "Failed to deduct paid credit" 500)
          | (db', Ok _) =>
              match delay with
              | Raise _ => (db', None, internal_error)
              | Ok task_id =>
                  (db', Some (execute_workflow_and_generate_report_job
                                data current_user userIdeasId slug),
                   submitted task_id "Report generation task submitted")
              end
          end
      else
        (db, None, error_response "Failed to initiate report generation" 500)
  end.

(** The route [/execute-workflow-and-generate-report].  [current_user] is
    the JWT identity, [request_json] the outcome of
    [request.get_json(force=True)]. *)
Definition execute_workflow_and_generate_report (db : users) (current_user : string)
    (request_json : result pyval) (delay : result string)
    : users * option job * response :=
  if String.eqb current_user "" then
    (db, None, error_response "Unauthorized: Missing user identity" 401)
  else
    match request_json with
    | Raise _ => (db, None, error_response "Invalid or missing JSON body" 400)
    | Ok (PDict d) =>
        match dict_get d "access_level" (PStr "free") with
        | PStr a =>
            let access_level := lower a in
            let slug := dict_get d "slug" PNone in
            let userIdeasId := dict_get d "userideasId" PNone in
            if negb (truthy slug) || negb (truthy userIdeasId) then
              (db, None, error_response "Missing 'slug' or 'userideasId' in request" 400)
            else if negb (String.eqb access_level "free" || String.eqb access_level "paid") then
              (db, None,
               error_response "Invalid access level. Must be 'free' or 'paid'" 400)
            else check_and_debit db current_user access_level (PDict d) userIdeasId slug delay
        | _ =>
            (* [.lower()] on a non-string: AttributeError, caught by the
               outer handler *)
            (db, None,
             error_response "Internal server error during report generation" 500)
        end
    | Ok _ => (db, None, error_response "Request body must be a JSON object" 400)
    end.

(** The route [/upgrade-report-and-execute-workflow].  [idea] and
    [existing] are the outcomes of [get_idea_by_user_id_and_slug] and
    [get_report_by_user_id_and_slug].  The route subscripts [existing]
    before it tests [if not existing], so its 404 reply for a missing
    report is never sent: a missing report ends in the handler of the outer
    [try].  The report id is passed on as stored (the stores return ids as
    strings, on which [str] is the identity). *)
Definition upgrade_report_and_execute_workflow (db : users) (user_id : string)
    (request_json : result pyval) (idea existing : result pyval)
    (delay : result string) : users * option job * response :=
  let internal_error := error_response "Internal server error" 500 in
  if String.eqb user_id "" then (db, None, error_response "Unauthorized" 401)
  else
    match request_json with
    | Raise _ => (db, None, internal_error)
    | Ok data =>
      match py_get data "slug" PNone, idea with
      | Ok slug, Ok found =>
        match py_getitem found "_id", py_getitem found "problem_response",
              py_getitem found "location" with
        | Ok userIdeasId, Ok pr, Ok location =>
          match py_getitem pr "content" with
          | Ok problem_response =>
            if negb (truthy problem_response) then
              (db, None, error_response "Problem not found" 404)
            else if negb (truthy slug) || negb (truthy userIdeasId) then
              (db, None, error_response "Missing slug or userIdeasId" 400)
            else
              match existing with
              | Ok ex =>
                match py_getitem ex "_id" with
                | Ok report_id =>
                  if negb (match py_get ex "status" PNone with
                           | Ok (PStr s) => String.eqb s "free"
                           | _ => false
                           end) then
                    (db, None, error_response "Only free reports can be upgraded" 409)
                  else
                    match get_user_credits db user_id with
                    | Raise _ => (db, None, internal_error)
                    | Ok credits =>
                      if paid_credits credits <? 1 then
                        (db, None, error_response "Insufficient paid credits" 403)
                      else
                        match update_user_credits_by_type db user_id (-1) "paid" with
                        | (db', Raise _) =>
                            (db', None, error_response "Failed to deduct paid credit" 500)
                        | (db', Ok _) =>
                            match delay with
                            | Raise _ => (db', None, internal_error)
                            | Ok task_id =>
                                (db', Some (upgrade_report_to_paid_job data user_id
                                              userIdeasId report_id problem_response
                                              location),
                                 submitted task_id "Upgrade task submitted")
                            end
                        end
                    end
                | Raise _ => (db, None, internal_error)
                end
              | Raise _ => (db, None, internal_error)
              end
          | Raise _ => (db, None, internal_error)
          end
        | _, _, _ => (db, None, internal_error)
        end
      | _, _ => (db, None, internal_error)
      end
    end.

End Admission.

(** ** Two request handlers sharing the ledger

    The database operations of [check_and_debit] ([find_one], [update_one]) are each
    atomic on the user document, and nothing else is: a handler can be
    preempted between any two of them.  A [handler] is the position of one
    request inside [check_and_debit]; one [step] runs it up to and including its next
    database operation. *)

Module Interleaving.
Import Ledger Admission.

Record request : Type := mkRequest {
  req_user : string;
  req_access_level : string;
  req_data : pyval;
  req_userIdeasId : pyval;
  req_slug : pyval;
  req_delay : result string
}.

Inductive handler : Type :=
| AtGate      (* before [get_user_credits] *)
| AtFind      (* credit gate passed, before the [find_one] of the debit *)
| AtInc       (* balance check of the debit passed, before [update_one] *)
| AtRefetch   (* [update_one] done, before the closing [find_one] *)
| Done (queued : option job) (reply : response).

Definition failed_to_deduct (rq : request) : handler :=
  Done None (error_response
               ("Failed to deduct " +:+ req_access_level rq +:+ " credit") 500).

Definition queued_job (rq : request) : job :=
  if String.eqb (req_access_level rq) "free"
  then generate_free_report_job (req_data rq) (req_user rq)
         (req_userIdeasId rq) (req_slug rq)
  else execute_workflow_and_generate_report_job (req_data rq) (req_user rq)
         (req_userIdeasId rq) (req_slug rq).

Definition step (rq : request) (db : users) (h : handler) : users * handler :=
  let internal_error :=
    error_response "Internal server error during report generation" 500 in
  let level := req_access_level rq in
  match h with
  | AtGate =>
      match get_user_credits db (req_user rq) with
      | Raise _ => (db, Done None internal_error)
      | Ok user_credits =>
          if negb (valid_credit_type level) then
            (db, Done None (error_response "Failed to initiate report generation" 500))
          else if bucket level user_credits <? 1 then
            (db, Done None
                   (error_response ("Insufficient " +:+ level +:+ " credits") 403))
          else (db, AtFind)
      end
  | AtFind =>
      match db !! req_user rq with
      | None => (db, failed_to_deduct rq)
      | Some user =>
          let current_credits := bucket level user in
          if (-1 <? 0) && (Z.abs (-1) >? current_credits)
          then (db, failed_to_deduct rq)
          else (db, AtInc)
      end
  | AtInc =>
      let '(db', modified_count) := update_one_inc db (req_user rq) level (-1) in
      if modified_count =? 0 then (db', failed_to_deduct rq) else (db', AtRefetch)
  | AtRefetch =>
      match db !! req_user rq with
      | None => (db, failed_to_deduct rq)
      | Some _ =>
          match req_delay rq with
          | Raise _ => (db, Done None internal_error)
          | Ok task_id =>
              (db, Done (Some (queued_job rq))
                     (submitted task_id "Report generation task submitted"))
          end
      end
  | Done j r => (db, Done j r)
  end.

(** Two handlers and the collection they share. *)
Record config : Type := mkConfig {
  store : users;
  first : handler;
  second : handler
}.

(** The scheduler picks the first handler ([true]) or the second. *)
Definition sched_step (rq1 rq2 : request) (c : config) (pick : bool) : config :=
  if pick then
    let '(db, h) := step rq1 (store c) (first c) in mkConfig db h (second c)
  else
    let '(db, h) := step rq2 (store c) (second c) in mkConfig db (first c) h.

Definition run (rq1 rq2 : request) (schedule : list bool) (c : config) : config :=
  fold_left (sched_step rq1 rq2) schedule c.

Definition start (db : users) : config := mkConfig db AtGate AtGate.

Definition finished (h : handler) : bool :=
  match h with Done _ _ => true | _ => false end.

Definition accepted (h : handler) : bool :=
  match h with Done (Some _) _ => true | _ => false end.

Definition rejected_insufficient (h : handler) : bool :=
  match h with
  | Done None r => status r =? 403
  | _ => false
  end.

(** One handler run on its own, to completion. *)
Definition run_alone (rq : request) (db : users) : users * handler :=
  let '(db1, h1) := step rq db AtGate in
  let '(db2, h2) := step rq db1 h1 in
  let '(db3, h3) := step rq db2 h2 in
  step rq db3 h3.

(** The claim of admission atomicity: whatever the schedule, of two
    submissions against a bucket holding one credit exactly one is
    accepted and the other is rejected for insufficient funds. *)
Definition admission_atomic : Prop :=
  forall (db : users) (rq1 rq2 : request) (c : Credits) (schedule : list bool),
    req_user rq1 = req_user rq2 ->
    req_access_level rq1 = req_access_level rq2 ->
    valid_credit_type (req_access_level rq1) = true ->
    is_ok (req_delay rq1) = true -> is_ok (req_delay rq2) = true ->
    db !! req_user rq1 = Some c ->
    bucket (req_access_level rq1) c = 1 ->
    let c' := run rq1 rq2 schedule (start db) in
    finished (first c') = true -> finished (second c') = true ->
    (accepted (first c') = true /\ rejected_insufficient (second c') = true) \/
    (accepted (second c') = true /\ rejected_insufficient (first c') = true).

End Interleaving.

(** ** The Celery tasks ([tasks.py])

    A task runs against a [world]: the ledger, the trace of what the task
    did that is visible outside (progress updates, ledger calls, calls of
    external collaborators with their arguments) and the number of external
    calls made so far.  The environment decides the outcome of the n-th
    external call; it may be any value or any exception, among them
    [SoftTimeLimitExceeded], which the worker delivers while the task
    waits in such a call.  Ledger calls and progress updates are atomic. *)

Module Tasks.
Import Ledger.

Inductive event : Type :=
| update_state (current total : Z) (status : string)
| credit_call (user_id : string) (amount : Z) (credit_type : string)
| call (f : string) (args : list pyval).

Record world : Type := mkWorld {
  accounts : users;
  trace : list event;
  clock : nat
}.

Definition initial (db : users) : world := mkWorld db [] 0%nat.

Definition task (A : Type) : Type := world -> world * result A.

Definition ret {A} (a : A) : task A := fun w => (w, Ok a).

Definition raise {A} (e : exn) : task A := fun w => (w, Raise e).

Definition bind {A B} (m : task A) (k : A -> task B) : task B :=
  fun w =>
    match m w with
    | (w', Ok a) => k a w'
    | (w', Raise e) => (w', Raise e)
    end.

(** [try: m  except Exception as e: h e] *)
Definition try_except {A} (m : task A) (h : exn -> task A) : task A :=
  fun w =>
    match m w with
    | (w', Ok a) => (w', Ok a)
    | (w', Raise e) => h e w'
    end.

Definition lift {A} (r : result A) : task A := fun w => (w, r).

Definition emit (ev : event) : task unit :=
  fun w => (mkWorld (accounts w) (trace w ++ [ev]) (clock w), Ok tt).

Declare Scope task_scope.
Delimit Scope task_scope with task.
Notation "x <- m ;; k" := (bind m (fun x => k))
  (at level 100, m at next level, right associativity) : task_scope.
Notation "m ;;; k" := (bind m (fun _ => k))
  (at level 100, right associativity) : task_scope.
Local Open Scope task_scope.

Section WithEnvironment.

(** Outcome of the n-th external call. *)
Variable env : nat -> result pyval.

Definition external (f : string) (args : list pyval) : task pyval :=
  fun w =>
    (mkWorld (accounts w) (trace w ++ [call f args]) (S (clock w)),
     env (clock w)).

(** The loop of [retry_operation]: [attempts] tries left, [last] the
    exception of the previous try. *)
Fixpoint retry_loop (f : string) (args : list pyval) (delay : Z)
    (attempts : nat) (last : option exn) : task pyval :=
  match attempts with
  | O =>
      match last with
      | Some e => raise e
      | None => raise (TypeError "exceptions must derive from BaseException")
      end
  | S n =>
      try_except (external f args)
        (fun e =>
           external "time.sleep" [PInt delay] ;;;
           retry_loop f args delay n (Some e))
  end.

(** [retry_operation(func, *args, retries=3, delay=2)] *)
Definition retry_operation (f : string) (args : list pyval) : task pyval :=
  retry_loop f args 2 3 None.

(** The refund of the [except] clauses: the ledger call, whose own
    failure is printed and dropped. *)
Definition refund (current_user : string) (credit_type : string) : task unit :=
  fun w =>
    let '(db', _) := update_user_credits_by_type (accounts w) current_user 1 credit_type in
    (mkWorld db' (trace w ++ [credit_call current_user 1 credit_type]) (clock w),
     Ok tt).

(** [f"user_cache/{current_user}/{current_user}-{userIdeasId}.json"] *)
Definition cache_path (current_user : string) (userIdeasId : pyval) : string :=
  "user_cache/" +:+ current_user +:+ "/" +:+ current_user +:+ "-"
    +:+ py_str userIdeasId +:+ ".json".

(** [f"user_cache/{current_user}/{current_user}-{userIdeasId}-{report_id}.json"] *)
Definition final_path (current_user : string) (userIdeasId report_id : pyval)
    : string :=
  "user_cache/" +:+ current_user +:+ "/" +:+ current_user +:+ "-"
    +:+ py_str userIdeasId +:+ "-" +:+ py_str report_id +:+ ".json".

(** [if not location or not isinstance(location, str): location = "USA"]
    of the free-tier task. *)
Definition free_location (location : pyval) : pyval :=
  if negb (truthy location) || negb (is_str location) then PStr "USA" else location.

(** [if not location: location = "entire world"] of the paid-tier task. *)
Definition paid_location (location : pyval) : pyval :=
  if negb (truthy location) then PStr "entire world" else location.

(** [location = location or "USA"] of the upgrade task. *)
Definition upgrade_location (location : pyval) : pyval :=
  if truthy location then location else PStr "USA".

(** The [try] block of [generate_free_report_task].  The report record
    is passed to [create_report] without its two timestamps. *)
Definition generate_free_report_body (data : pyval) (current_user : string)
    (userIdeasId slug : pyval) : task pyval :=
  emit (update_state 1 3 "Starting with your dream") ;;;
  external "time.sleep" [PInt 3] ;;;
  emit (update_state 2 3 "Adding the AI magic") ;;;
  idea <- lift (py_get data "problem_response" PNone) ;;
  location <- lift (py_get data "location" PNone) ;;
  let location := free_location location in
  if negb (truthy idea) then
    raise (Exception "Missing problem_response for free report generation")
  else
    report <- external "generate_free_report_content" [idea; location] ;;
    free_report_content <- lift (py_getitem report "free_report_content") ;;
    report_json_content <- external "full_json_content_report" [free_report_content] ;;
    emit (update_state 3 3 "Finalising for you") ;;;
    external "time.sleep" [PInt 2] ;;;
    created_report <- external "create_report"
      [PDict [("user_id", PStr current_user); ("user_idea_id", userIdeasId);
              ("slug", slug); ("access_level", PStr "free");
              ("status", PStr "free"); ("free_report_content", report);
              ("report_json_content", report_json_content)]] ;;
    report_id <- lift (py_getitem created_report "_id") ;;
    ret (PDict [("message", PStr "Free report generated successfully");
                ("report", PDict [("reportId", report_id); ("report", report)])]).

Definition generate_free_report_task (data : pyval) (current_user : string)
    (userIdeasId slug : pyval) : task pyval :=
  try_except (generate_free_report_body data current_user userIdeasId slug)
    (fun e => refund current_user "free" ;;; raise e).

(** The [try] block of [execute_workflow_and_generate_report_task]. *)
Definition execute_workflow_and_generate_report_body (data : pyval)
    (current_user : string) (userIdeasId slug : pyval) : task pyval :=
  let total_steps := 8 in
  emit (update_state 1 total_steps "Analyzing the Idea") ;;;
  detailed_problem_statement <- lift (py_get data "problem_response" PNone) ;;
  location <- lift (py_get data "location" PNone) ;;
  let location := paid_location location in
  if negb (truthy detailed_problem_statement) then
    raise (Exception "Idea is required")
  else
    emit (update_state 2 total_steps "Exploring Possibilities") ;;;
    headings_response <- retry_operation "get_required_evaluation_headings"
                           [detailed_problem_statement; location] ;;
    let headings :=
      match headings_response with
      | PDict d => dict_get d "headings" (PList [])
      | _ => PList []
      end in
    emit (update_state 3 total_steps "Shaping the Vision") ;;;
    queries <- retry_operation "generate_queries_per_heading"
                 [detailed_problem_statement; headings; location] ;;
    emit (update_state 4 total_steps "Gathering Insights") ;;;
    query_links <- retry_operation "get_search_queries_result" [queries] ;;
    emit (update_state 5 total_steps "Uncovering Opportunities") ;;;
    scraped_content <-
      external "async_generate_content_of_all_search_query_links" [query_links] ;;
    emit (update_state 6 total_steps "Crafting the Narrative") ;;;
    summarized_content <- external "parallel_summarization_processing" [scraped_content] ;;
    summarized_results <- lift (py_getitem summarized_content "summarized_results") ;;
    let final_output := PDict [("summary", summarized_results)] in
    emit (update_state 7 total_steps "Bringing it to Life") ;;;
    let blob_file_name := cache_path current_user userIdeasId in
    external "upload_blob_data" [PStr blob_file_name; final_output] ;;;
    emit (update_state 8 total_steps "Finalizing the Blueprint") ;;;
    idea <- lift (py_get data "problem_response" PNone) ;;
    report <- external "generate_full_final_parallel_executed_report"
                [idea; PStr current_user; location;
                 PStr (cache_path current_user userIdeasId)] ;;
    report_json_content <- external "full_json_content_report" [report] ;;
    created_report <- external "create_report"
      [PDict [("user_id", PStr current_user); ("user_idea_id", userIdeasId);
              ("slug", slug); ("access_level", PStr "paid");
              ("status", PStr "paid");
              ("report_file_path", PStr (cache_path current_user userIdeasId));
              ("report_content", report);
              ("report_json_content", report_json_content)]] ;;
    report_id <- lift (py_getitem created_report "_id") ;;
    let final_report_blob_path := final_path current_user userIdeasId report_id in
    external "upload_blob_data" [PStr final_report_blob_path; report] ;;;
    ret (PDict [("message",
                 PStr "Workflow and report generation completed successfully");
                ("report", PDict [("reportId", report_id); ("report", report)])]).

Definition execute_workflow_and_generate_report_task (data : pyval)
    (current_user : string) (userIdeasId slug : pyval) : task pyval :=
  try_except
    (execute_workflow_and_generate_report_body data current_user userIdeasId slug)
    (fun e =>
       match e with
       | SoftTimeLimitExceeded _ =>
           (* Task timed out; refund credits. *)
           refund current_user "paid" ;;; raise e
       | _ => refund current_user "paid" ;;; raise e
       end).

(** The [try] block of [upgrade_report_to_paid_task]. *)
Definition upgrade_report_to_paid_body (data : pyval) (current_user : string)
    (userIdeasId report_id problem_response location : pyval) : task pyval :=
  let total_steps := 8 in
  emit (update_state 1 total_steps "Analyzing the Idea") ;;;
  let idea := problem_response in
  let location := upgrade_location location in
  if negb (truthy idea) then raise (Exception "Missing problem_response")
  else
    emit (update_state 2 total_steps "Exploring Possibilities") ;;;
    headings_response <- retry_operation "get_required_evaluation_headings"
                           [idea; location] ;;
    headings <- lift (py_get headings_response "headings" (PList [])) ;;
    emit (update_state 3 total_steps "Shaping the Vision") ;;;
    queries <- retry_operation "generate_queries_per_heading"
                 [idea; headings; location] ;;
    emit (update_state 4 total_steps "Gathering Insights") ;;;
    query_links <- retry_operation "get_search_queries_result" [queries] ;;
    emit (update_state 5 total_steps "Uncovering Opportunities") ;;;
    scraped <-
      external "async_generate_content_of_all_search_query_links" [query_links] ;;
    emit (update_state 6 total_steps "Crafting the Narrative") ;;;
    summarized <- external "parallel_summarization_processing" [scraped] ;;
    summary <- lift (py_getitem summarized "summarized_results") ;;
    let final_output := PDict [("summary", summary)] in
    emit (update_state 7 total_steps "Bringing it to Life") ;;;
    let intermediate_path := cache_path current_user userIdeasId in
    external "upload_blob_data" [PStr intermediate_path; final_output] ;;;
    emit (update_state 8 total_steps "Finalizing the Blueprint") ;;;
    report <- external "generate_full_final_parallel_executed_report"
                [idea; PStr current_user; location; PStr intermediate_path] ;;
    report_json_content <- external "full_json_content_report" [report] ;;
    external "update_report"
      [report_id;
       PDict [("access_level", PStr "paid"); ("status", PStr "paid");
              ("report_content", report);
              ("report_json_content", report_json_content);
              ("report_file_path", PStr intermediate_path)]] ;;;
    let final_path := final_path current_user userIdeasId report_id in
    external "upload_blob_data" [PStr final_path; report] ;;;
    ret (PDict [("message", PStr "Report upgraded successfully");
                ("report", PDict [("reportId", report_id); ("report", report)])]).

Definition upgrade_report_to_paid_task (data : pyval) (current_user : string)
    (userIdeasId report_id problem_response location : pyval) : task pyval :=
  try_except
    (upgrade_report_to_paid_body data current_user userIdeasId report_id
       problem_response location)
    (fun e =>
       match e with
       | SoftTimeLimitExceeded _ =>
           (* refund on timeout *)
           refund current_user "paid" ;;; raise e
       | _ =>
           (* refund on any other error *)
           refund current_user "paid" ;;; raise e
       end).

(** The worker running a queued job. *)
Definition run_job (j : Admission.job) : task pyval :=
  match j with
  | Admission.generate_free_report_job data current_user userIdeasId slug =>
      generate_free_report_task data current_user userIdeasId slug
  | Admission.execute_workflow_and_generate_report_job data current_user
      userIdeasId slug =>
      execute_workflow_and_generate_report_task data current_user userIdeasId slug
  | Admission.upgrade_report_to_paid_job data current_user userIdeasId report_id
      problem_response location =>
      upgrade_report_to_paid_task data current_user userIdeasId report_id
        problem_response location
  end.

(** The [try] block of the task a job names. *)
Definition job_body (j : Admission.job) : task pyval :=
  match j with
  | Admission.generate_free_report_job data current_user userIdeasId slug =>
      generate_free_report_body data current_user userIdeasId slug
  | Admission.execute_workflow_and_generate_report_job data current_user
      userIdeasId slug =>
      execute_workflow_and_generate_report_body data current_user userIdeasId slug
  | Admission.upgrade_report_to_paid_job data current_user userIdeasId report_id
      problem_response location =>
      upgrade_report_to_paid_body data current_user userIdeasId report_id
        problem_response location
  end.

End WithEnvironment.

Definition job_user (j : Admission.job) : string :=
  match j with
  | Admission.generate_free_report_job _ u _ _
  | Admission.execute_workflow_and_generate_report_job _ u _ _
  | Admission.upgrade_report_to_paid_job _ u _ _ _ _ => u
  end.

(** The bucket the route debits before it queues the job. *)
Definition job_bucket (j : Admission.job) : string :=
  match j with
  | Admission.generate_free_report_job _ _ _ _ => "free"
  | _ => "paid"
  end.

(** The ledger calls of a trace. *)
Fixpoint credit_calls (tr : list event) : list (string * Z * string) :=
  match tr with
  | [] => []
  | credit_call user_id amount credit_type :: rest =>
      (user_id, amount, credit_type) :: credit_calls rest
  | _ :: rest => credit_calls rest
  end.

(** The [(current, total)] pairs of the progress updates of a trace. *)
Fixpoint progress_updates (tr : list event) : list (Z * Z) :=
  match tr with
  | [] => []
  | update_state current total _ :: rest => (current, total) :: progress_updates rest
  | _ :: rest => progress_updates rest
  end.

(** The external calls of a trace. *)
Fixpoint calls_of (f : string) (tr : list event) : list (list pyval) :=
  match tr with
  | [] => []
  | call g args :: rest =>
      if String.eqb f g then args :: calls_of f rest else calls_of f rest
  | _ :: rest => calls_of f rest
  end.

(** Steps [1 .. total], each with the same [total]. *)
Definition steps_upto (total : nat) : list (Z * Z) :=
  map (fun k => (Z.of_nat k, Z.of_nat total)) (seq 1 total).

Definition job_total (j : Admission.job) : nat :=
  match j with
  | Admission.generate_free_report_job _ _ _ _ => 3
  | _ => 8
  end.

(** Steps [lo+1 .. hi] of a run of [total] steps. *)
Definition span (total : nat) (lo hi : nat) : list (Z * Z) :=
  map (fun k => (Z.of_nat k, Z.of_nat total)) (seq (S lo) (hi - lo)).

(** What a piece of a task body does to the world: it leaves the ledger
    alone and emits the progress updates [lo+1 .. hi] when it returns, an
    initial part of them when it raises. *)
Definition advances {A} (total lo hi : nat) (m : task A) : Prop :=
  forall w,
    accounts (fst (m w)) = accounts w /\
    credit_calls (trace (fst (m w))) = credit_calls (trace w) /\
    match snd (m w) with
    | Ok _ =>
        progress_updates (trace (fst (m w)))
        = (progress_updates (trace w) ++ span total lo hi)%list
    | Raise _ =>
        exists mid, (lo <= mid <= hi)%nat /\
          progress_updates (trace (fst (m w)))
          = (progress_updates (trace w) ++ span total lo mid)%list
    end.

(** A job reaches the queue through one of the two submission routes,
    which takes the ledger from [db] to [db1]. *)
Definition queued_by_route (db db1 : users) (j : Admission.job) : Prop :=
  (exists current_user request_json delay r,
      Admission.execute_workflow_and_generate_report db current_user request_json delay
      = (db1, Some j, r))
  \/ (exists user_id request_json idea existing delay r,
        Admission.upgrade_report_and_execute_workflow db user_id request_json idea
          existing delay
        = (db1, Some j, r)).

(** [db1] is [db] after one credit was taken from the bucket of the job. *)
Definition debited (db db1 : users) (j : Admission.job) : Prop :=
  exists c, db !! job_user j = Some c /\
    1 <= bucket (job_bucket j) c /\
    db1 = <[job_user j := inc_bucket (job_bucket j) (-1) c]> db.

Definition non_decreasing (l : list Z) : Prop :=
  forall (i j : nat) (a b : Z),
    (i <= j)%nat -> l !! i = Some a -> l !! j = Some b -> a <= b.

(** Every external call of a trace satisfies [P]. *)
Definition every_call (P : string -> list pyval -> Prop) (tr : list event) : Prop :=
Forall (fun ev => match ev with call f args => P f args | _ => True end) tr.

(** A piece of a task makes only external calls that satisfy [P]. *)
Definition calls_only {A} (P : string -> list pyval -> Prop) (m : task A) : Prop :=
forall w, every_call P (trace w) -> every_call P (trace (fst (m w))).

(** The two generation calls that take the location: the evaluation
    headings, asked for first, and the final report. *)
Definition generation_gets (idea : pyval) (current_user : string)
    (userIdeasId location : pyval) (f : string) (args : list pyval) : Prop :=
(f = "get_required_evaluation_headings" -> args = [idea; location]) /\
(f = "generate_full_final_parallel_executed_report" ->
 args = [idea; PStr current_user; location;
         PStr (cache_path current_user userIdeasId)]).

(** The generation call of the free-tier task. *)
Definition free_generation_gets (idea location : pyval) (f : string)
    (args : list pyval) : Prop :=
f = "generate_free_report_content" -> args = [idea; location].

(** [data] with its ['location'] set to [v]. *)
Definition with_location (v : pyval) (d : list (string * pyval))
    : list (string * pyval) :=
  ("location", v) :: d.

(** The claim about the paid-tier default: a request whose location is
    missing or not a string is processed as one that names
    ['entire world']. *)
Definition paid_location_claim : Prop :=
  forall env (d : list (string * pyval)) current_user userIdeasId slug w,
    assoc "location" d = None \/ is_str (dict_get d "location" PNone) = false ->
    execute_workflow_and_generate_report_task env (PDict d) current_user
      userIdeasId slug w
    = execute_workflow_and_generate_report_task env
        (PDict (with_location (PStr "entire world") d)) current_user
        userIdeasId slug w.

End Tasks.

(** ** The status route ([routes/summarized_workflow_route.py]) *)

Module Status.

(** What the Celery result backend stores for a task id. *)
Record task_meta : Type := mkMeta {
  state : string;
  info : pyval
}.

(** [task.AsyncResult(task_id)]: Celery keeps no record of the ids it
    handed out; an id without stored state reads as [PENDING]. *)
Definition AsyncResult (backend : gmap string task_meta) (task_id : string)
    : task_meta :=
  match backend !! task_id with
  | Some m => m
  | None => mkMeta "PENDING" PNone
  end.

(** [d[k] = v] on a dict kept in insertion order. *)
Fixpoint dict_set (d : list (string * pyval)) (k : string) (v : pyval)
    : list (string * pyval) :=
  match d with
  | [] => [(k, v)]
  | (k', v') :: rest =>
      if String.eqb k k' then (k, v) :: rest else (k', v') :: dict_set rest k v
  end.

(** The reply of the route: [None] is the empty body of [OPTIONS]. *)
Record reply : Type := mkReply {
  payload : option (list (string * pyval));
  code : Z
}.

Definition progress_meta (current total : Z) (status : string) : pyval :=
  PDict [("current", PInt current); ("total", PInt total); ("status", PStr status)].

Definition workflow_task_status (backend : gmap string task_meta)
    (method : string) (task_id : string) : reply :=
  if String.eqb method "OPTIONS" then mkReply None 200
  else
    let task := AsyncResult backend task_id in
    let response :=
      [("state", PStr (state task));
       ("progress", if String.eqb (state task) "PROGRESS" then info task else PDict [])] in
    let response :=
      if String.eqb (state task) "SUCCESS" then
        dict_set (dict_set response "progress" (progress_meta 1 1 "Completed"))
          "result" (info task)
      else if String.eqb (state task) "FAILURE" then
        dict_set (dict_set response "progress" (progress_meta 0 0 "Failed"))
          "error" (PStr (py_str (info task)))
      else response in
    mkReply (Some response) 200.

(** The worker's [self.update_state(state="PROGRESS", meta=...)]. *)
Definition store_progress (backend : gmap string task_meta) (task_id : string)
    (current total : Z) (status : string) : gmap string task_meta :=
  <[task_id := mkMeta "PROGRESS" (progress_meta current total status)]> backend.

(** The progress a poll shows: [(current, total)] of its ['progress']. *)
Definition shown_progress (r : reply) : option (Z * Z) :=
  match payload r with
  | Some d =>
      match assoc "progress" d with
      | Some (PDict p) =>
          match assoc "current" p, assoc "total" p with
          | Some (PInt c), Some (PInt t) => Some (c, t)
          | _, _ => None
          end
      | _ => None
      end
  | None => None
  end.

(** The answer to a poll for an id without stored state. *)
Definition pending_reply : reply :=
  mkReply (Some [("state", PStr "PENDING"); ("progress", PDict [])]) 200.

(** A reply that reports an error: a 4xx or 5xx status, or an ['error']
    entry in its body. *)
Definition is_error_reply (r : reply) : bool :=
  (400 <=? code r) ||
  match payload r with
  | Some d => match assoc "error" d with Some _ => true | None => false end
  | None => false
  end.

(** The claim about unknown ids: asking for an id the backend has never
    seen is answered with an error. *)
Definition unknown_id_is_error : Prop :=
  forall (backend : gmap string task_meta) (task_id : string),
    backend !! task_id = None ->
    is_error_reply (workflow_task_status backend "GET" task_id) = true.

End Status.

(** ** The currency helper ([services/generate_final_report.py]) *)

Module Currency.

Definition is_upper_letter (c : ascii) : bool :=
  let n := nat_of_ascii c in ((65 <=? n) && (n <=? 90))%nat.

(** [re.fullmatch(r"^[A-Z]{3}$", s)]: exactly three characters, each one of
    the 26 capital letters. *)
Definition fullmatch_code (s : string) : bool :=
  match s with
  | String a (String b (String c EmptyString)) =>
      is_upper_letter a && is_upper_letter b && is_upper_letter c
  | _ => false
  end.

(** The characters [str.strip] removes from ASCII text. *)
Definition is_space (c : ascii) : bool :=
  let n := nat_of_ascii c in
  ((n =? 32) || ((9 <=? n) && (n <=? 13)) || ((28 <=? n) && (n <=? 31)))%nat.

Fixpoint lstrip (s : string) : string :=
  match s with
  | EmptyString => EmptyString
  | String c r => if is_space c then lstrip r else s
  end.

Fixpoint rstrip (s : string) : string :=
  match s with
  | EmptyString => EmptyString
  | String c r =>
      match rstrip r with
      | EmptyString => if is_space c then EmptyString else String c EmptyString
      | r' => String c r'
      end
  end.

(** [str.strip] on ASCII text. *)
Definition ascii_strip (s : string) : string := rstrip (lstrip s).

Definition upper_char (c : ascii) : ascii :=
  let n := nat_of_ascii c in
  if ((97 <=? n) && (n <=? 122))%nat then ascii_of_nat (n - 32) else c.

(** [str.upper] on ASCII text. *)
Fixpoint ascii_upper (s : string) : string :=
  match s with
  | EmptyString => EmptyString
  | String c r => String (upper_char c) (ascii_upper r)
  end.

(** The prompt of the currency question. *)
Definition currency_prompt (location_name : string) : string :=
  let dq := String (ascii_of_nat 34) EmptyString in
  "What is the 3-letter ISO 4217 currency code for the primary official currency of "
  +:+ dq +:+ location_name +:+ dq +:+ "?
Respond with ONLY the 3-letter code (e.g., USD, EUR, JPY).
If you are uncertain or the location is fictional, respond with "
  +:+ dq +:+ "USD" +:+ dq +:+ ".
Do not include any other text, explanation, or punctuation.
Example for 'Germany': EUR
Example for 'Tokyo, Japan': JPY
Example for 'United States': USD".

Section WithStringMethods.

(** [str.strip] and [str.upper]; the helper is correct for whatever these
    two methods do to text outside ASCII. *)
Variables strip upper : string -> string.

(** [get_currency_via_llm].  [completion] is the outcome of
    [client.chat.completions.create(...)] on a prompt: an exception, or
    the [content] of the first choice, which may be [None]. *)
Definition get_currency_via_llm (location_name : string)
    (completion : string -> result (option string)) : string :=
  match completion (currency_prompt location_name) with
  | Ok (Some content) =>
      let currency_code := upper (strip content) in
      if fullmatch_code currency_code then currency_code else "USD"
  | Ok None => "USD"       (* [None.strip()]: AttributeError, caught *)
  | Raise _ => "USD"
  end.

End WithStringMethods.

End Currency.

(** ** The fan-out generator ([services/generate_final_report.py]) *)

Module Fanout.

(** The keys of [report_section_tasks], in the order of the dict. *)
Definition report_section_tasks : list string :=
  [ "executive_summary"; "problem_validation"; "market_analysis";
    "market_size_estimation"; "swot_analysis"; "vrio_analysis";
    "pestel_analysis"; "porters_five_forces"; "venture_insights";
    "industry_insights"; "catwoe_analysis"; "strategy"; "marketing_strategy";
    "social_media_strategy"; "slogan"; "marketing_channels"; "mvp"; "usp";
    "customer_persona"; "finances"; "go_to_market_strategy";
    "competitive_analysis" ].

Section WithGenerators.

Variables strip upper : string -> string.

(** The currency completion call. *)
Variable completion : string -> result (option string).

(** [generate_overall_context_summary(idea, location, rag_service)] *)
Variable generate_overall_context_summary : string -> string -> result string.

(** The generator registered under a section name, applied to
    [(idea, location, currency_code, overall_summary)]: what
    [future.result()] returns or raises. *)
Variable generate : string -> string -> string -> string -> string -> result string.

(** The content slot of one finished future. *)
Definition slot (task_name idea location currency_code overall_summary : string)
    : string :=
  match generate task_name idea location currency_code overall_summary with
  | Ok content => content
  | Raise e => "Error generating " +:+ task_name +:+ ": " +:+ str_exn e
  end.

(** The loop over [as_completed(future_to_task_name)]; [completed] lists
    the task names in the order their futures finish. *)
Definition collect (idea location currency_code overall_summary : string)
    (results : gmap string string) (completed : list string) : gmap string string :=
  fold_left
    (fun results task_name =>
       <[task_name := slot task_name idea location currency_code overall_summary]>
         results)
    completed results.

(** [generate_full_final_parallel_executed_report].  The RAG service is
    built from [current_user] and [file_path]; its constructor catches
    its own exceptions, and the service reaches the generators through
    [generate]. *)
Definition generate_full_final_parallel_executed_report
    (idea current_user location file_path : string) (completed : list string)
    : result (gmap string string) :=
  let local_currency_code :=
    Currency.get_currency_via_llm strip upper location completion in
  match generate_overall_context_summary idea location with
  | Raise e => Raise e
  | Ok overall_summary_content =>
      let results : gmap string string :=
        {[ "overall_context_summary" := overall_summary_content ]} in
      Ok (collect idea location local_currency_code overall_summary_content
            results completed)
  end.

End WithGenerators.

End Fanout.

(** ** The retrieval index cache ([utils/document_processing.py]) *)

Module IndexCache.

(** [os.path.basename]: what follows the last ['/']. *)
Fixpoint basename_from (acc : list ascii) (p : list ascii) : list ascii :=
  match p with
  | [] => acc
  | c :: r =>
      if Ascii.eqb c "/" then basename_from [] r else basename_from (acc ++ [c]) r
  end.

Definition basename (p : string) : string :=
  string_of_list_ascii (basename_from [] (list_ascii_of_string p)).

(** [s.startswith(t)] and [s.endswith(t)] *)
Definition startswith (s t : string) : bool := String.prefix t s.

Definition endswith (s t : string) : bool :=
  String.prefix (string_of_list_ascii (rev (list_ascii_of_string t)))
                (string_of_list_ascii (rev (list_ascii_of_string s))).

(** [s[:-n]] *)
Definition drop_last (n : nat) (s : string) : string :=
  string_of_list_ascii (rev (drop n (rev (list_ascii_of_string s)))).

(** Splits a reversed name at its first ['.']: the reversed extension and
    the reversed rest. *)
Fixpoint break_dot (r : list ascii) : option (list ascii * list ascii) :=
  match r with
  | [] => None
  | c :: r' =>
      if Ascii.eqb c "." then Some ([], r')
      else match break_dot r' with
           | Some (ext, rest) => Some (c :: ext, rest)
           | None => None
           end
  end.

(** [os.path.splitext(base)[0]] for a name without directory part: the
    name up to its last ['.'], unless only dots precede that one. *)
Definition splitext_root (base : string) : string :=
  match break_dot (rev (list_ascii_of_string base)) with
  | None => base
  | Some (_, rest) =>
      if forallb (fun c => Ascii.eqb c ".") rest then base
      else string_of_list_ascii (rev rest)
  end.

Definition get_blob_file_base (user_id file_path : string) : string :=
  let base := basename file_path in
  if startswith base (user_id +:+ "-") && endswith base ".json" then
    drop_last 5 base
  else
    user_id +:+ "-" +:+ splitext_root base.

(** [f"user_cache/{user_id}/{blob_base}_data_hash.txt"] *)
Definition blob_hash_name (user_id file_path : string) : string :=
  "user_cache/" +:+ user_id +:+ "/" +:+ get_blob_file_base user_id file_path
    +:+ "_data_hash.txt".

(** [f"user_cache/{user_id}/faiss_index_{blob_base}.zip"] *)
Definition blob_index_name (user_id file_path : string) : string :=
  "user_cache/" +:+ user_id +:+ "/faiss_index_"
    +:+ get_blob_file_base user_id file_path +:+ ".zip".

(** The prints that tell the paths through the code apart. *)
Inductive message : Type :=
| UsingCachedIndex        (* "Using cached FAISS index for ..." *)
| LoadingFromBlob         (* "Loading FAISS index from Azure Blob Storage cache..." *)
| ErrorLoading            (* "Error loading FAISS index: ..., rebuilding index..." *)
| Rebuilding              (* "Rebuilding FAISS index..." *)
| RebuiltAndSaved         (* "FAISS index rebuilt and saved successfully ..." *)
| ErrorBuilding.          (* "Error building FAISS index for user ..." *)

Section WithEmbeddings.

(** An embedding vector. *)
Variable vector : Type.

(** A FAISS vector store: one vector per chunk, and the chunks. *)
Record Index : Type := mkIndex {
  vectors : list vector;
  chunks : list string
}.

(** The content of a blob: bytes of text, or a zipped vector store. *)
Inductive blob : Type :=
| Bytes (data : string)
| Zip (ix : Index).

Record state : Type := mkState {
  FAISS_INDEX_CACHE : gmap string Index;
  blobs : gmap string blob;
  log : list message
}.

(** [hashlib.sha256(bytes).hexdigest()] *)
Variable sha256 : blob -> string.

(** [str.strip] *)
Variable strip : string -> string.

(** The parsing of [preprocess_json]: the documents of the downloaded
    bytes, none when no encoding yields a recognised JSON structure. *)
Variable parse_documents : blob -> list string.

(** [split_documents] *)
Variable split_documents : list string -> list string.

(** [embeddings.embed_query] *)
Variable embed_query : string -> result vector.

Definition blob_exists (st : state) (blob_name : string) : bool :=
  match blobs st !! blob_name with Some _ => true | None => false end.

Definition download_blob_data (st : state) (blob_name : string) : result blob :=
  match blobs st !! blob_name with
  | Some b => Ok b
  | None => Raise (Exception "ResourceNotFoundError")
  end.

Definition upload_blob_data (st : state) (blob_name : string) (data : blob) : state :=
  mkState (FAISS_INDEX_CACHE st) (<[blob_name := data]> (blobs st)) (log st).

Definition print (st : state) (m : message) : state :=
  mkState (FAISS_INDEX_CACHE st) (blobs st) (log st ++ [m]).

Definition compute_file_hash (st : state) (file_path : string) : string :=
  match download_blob_data st file_path with
  | Ok file_bytes => sha256 file_bytes
  | Raise _ => ""
  end.

Definition preprocess_json (st : state) (json_file_path : string) : list string :=
  match download_blob_data st json_file_path with
  | Ok file_bytes => parse_documents file_bytes
  | Raise _ => []
  end.

(** [bytes.decode("utf-8")] *)
Definition decode (b : blob) : result string :=
  match b with
  | Bytes data => Ok data
  | Zip _ => Raise (ValueError "UnicodeDecodeError")
  end.

(** [FAISS.load_local] on the unpacked download. *)
Definition load_local (b : blob) : result Index :=
  match b with
  | Zip ix => Ok ix
  | Bytes _ => Raise (Exception "BadZipFile")
  end.

Definition check_file_for_changes (st : state) (file_path user_id : string)
    : state * result bool :=
  let current_hash := compute_file_hash st file_path in
  let name := blob_hash_name user_id file_path in
  let changed := (upload_blob_data st name (Bytes current_hash), Ok true) in
  if blob_exists st name then
    match download_blob_data st name with
    | Raise e => (st, Raise e)
    | Ok b =>
        match decode b with
        | Raise e => (st, Raise e)
        | Ok text =>
            let previous_hash := strip text in
            if String.eqb current_hash previous_hash then (st, Ok false)
            else changed
        end
    end
  else changed.

(** [list(executor.map(embeddings.embed_query, document_texts))]: the
    vectors in the order of the texts, or the first exception in that
    order. *)
Fixpoint embed_all (texts : list string) : result (list vector) :=
  match texts with
  | [] => Ok []
  | t :: rest =>
      match embed_query t with
      | Raise e => Raise e
      | Ok v =>
          match embed_all rest with
          | Raise e => Raise e
          | Ok vs => Ok (v :: vs)
          end
      end
  end.

Definition rebuild_faiss_index (st : state) (user_id file_path index_name : string)
    : state * option Index :=
  if negb (blob_exists st file_path) then (st, None)
  else
    let current_hash := compute_file_hash st file_path in
    let preprocessed_docs := preprocess_json st file_path in
    match preprocessed_docs with
    | [] => (st, None)
    | _ =>
        let chunked_docs := split_documents preprocessed_docs in
        match chunked_docs with
        | [] => (st, None)
        | _ =>
            match embed_all chunked_docs with
            | Raise _ => (print st ErrorBuilding, None)
            | Ok document_embeddings =>
                let vectorstore := mkIndex document_embeddings chunked_docs in
                let st := upload_blob_data st index_name (Zip vectorstore) in
                let st := print st RebuiltAndSaved in
                let st := upload_blob_data st (blob_hash_name user_id file_path)
                            (Bytes current_hash) in
                (st, Some vectorstore)
            end
        end
    end.

Definition cache_store (st : state) (name : string) (ix : Index) : state :=
  mkState (<[name := ix]> (FAISS_INDEX_CACHE st)) (blobs st) (log st).

(** The tail of [initialize_retriever]: rebuild, and cache the result. *)
Definition rebuild_and_cache (st : state) (user_id file_path : string)
    : state * result (option Index) :=
  let index_name := blob_index_name user_id file_path in
  let st := print st Rebuilding in
  match rebuild_faiss_index st user_id file_path index_name with
  | (st, Some vectorstore) =>
      (cache_store st index_name vectorstore, Ok (Some vectorstore))
  | (st, None) => (st, Ok None)
  end.

Definition initialize_retriever (st : state) (user_id file_path : string)
    : state * result (option Index) :=
  let index_name := blob_index_name user_id file_path in
  match FAISS_INDEX_CACHE st !! index_name with
  | Some vectorstore => (print st UsingCachedIndex, Ok (Some vectorstore))
  | None =>
      match check_file_for_changes st file_path user_id with
      | (st, Raise e) => (st, Raise e)
      | (st, Ok true) => rebuild_and_cache st user_id file_path
      | (st, Ok false) =>
          if blob_exists st index_name then
            let st := print st LoadingFromBlob in
            match download_blob_data st index_name with
            | Ok b =>
                match load_local b with
                | Ok vectorstore =>
                    (cache_store st index_name vectorstore, Ok (Some vectorstore))
                | Raise _ => rebuild_and_cache (print st ErrorLoading) user_id file_path
                end
            | Raise _ => rebuild_and_cache (print st ErrorLoading) user_id file_path
            end
          else rebuild_and_cache st user_id file_path
      end
  end.

(** How often a log reports a message. *)
Definition count (m : message) (l : list message) : nat :=
  length (List.filter
            (fun x => match m, x with
                      | UsingCachedIndex, UsingCachedIndex
                      | LoadingFromBlob, LoadingFromBlob
                      | ErrorLoading, ErrorLoading
                      | Rebuilding, Rebuilding
                      | RebuiltAndSaved, RebuiltAndSaved
                      | ErrorBuilding, ErrorBuilding => true
                      | _, _ => false
                      end) l).

End WithEmbeddings.

Arguments mkIndex {vector} vectors chunks.
Arguments vectors {vector} i.
Arguments chunks {vector} i.
Arguments Bytes {vector} data.
Arguments Zip {vector} ix.
Arguments mkState {vector} FAISS_INDEX_CACHE blobs log.
Arguments FAISS_INDEX_CACHE {vector} s.
Arguments blobs {vector} s.
Arguments log {vector} s.

(** The claim about a changed artifact: whenever the fingerprint of the
    artifact differs from the stored marker, [initialize_retriever]
    rebuilds the index. *)
Definition changed_artifact_rebuilds : Prop :=
  forall (vector : Type) (sha256 : blob vector -> string) (strip : string -> string)
         (parse_documents : blob vector -> list string)
         (split_documents : list string -> list string)
         (embed_query : string -> result vector)
         (st : state vector) (user_id file_path marker : string),
    blobs st !! blob_hash_name user_id file_path = Some (Bytes marker) ->
    compute_file_hash vector sha256 st file_path <> strip marker ->
    In Rebuilding
       (log (fst (initialize_retriever vector sha256 strip parse_documents
                    split_documents embed_query st user_id file_path))).

(** The claim about failed embeddings: the chunks whose embedding fails
    are left out and the index is built over the others. *)
Definition partial_index_is_built : Prop :=
  forall (vector : Type) (sha256 : blob vector -> string)
         (parse_documents : blob vector -> list string)
         (split_documents : list string -> list string)
         (embed_query : string -> result vector)
         (st : state vector) (user_id file_path index_name : string)
         (b : blob vector),
    blobs st !! file_path = Some b ->
    (exists c, In c (split_documents (parse_documents b))
               /\ is_ok (embed_query c) = true) ->
    exists ix,
      snd (rebuild_faiss_index vector sha256 parse_documents split_documents
             embed_query st user_id file_path index_name) = Some ix
      /\ chunks ix
         = List.filter (fun c => is_ok (embed_query c))
             (split_documents (parse_documents b)).

(** A small instance of the services, for examples: the fingerprint of
    text [s] is [h(s)], a text is one document, splitting puts the chunk
    ["good"] in front of the documents, and the embedding of the chunk
    ["bad"] fails. *)
Definition toy_sha256 (b : blob nat) : string :=
  match b with Bytes s => "h(" +:+ s +:+ ")" | Zip _ => "h(zip)" end.

Definition toy_parse (b : blob nat) : list string :=
  match b with Bytes s => [s] | Zip _ => [] end.

Definition toy_split (docs : list string) : list string := "good" :: docs.

Definition toy_embed (c : string) : result nat :=
  if String.eqb c "bad" then Raise (Exception "embedding failed")
  else Ok (String.length c).

Definition artifact : string := "user_cache/u1/u1-i1.json".

End IndexCache.

(** ** The free-tier generator ([services/free_report_generation.py]) *)

Module FreeReport.

Section WithStringMethods.

(** [str.strip] *)
Variable strip : string -> string.

(** [get_currency_via_llm] of the free tier: the same question as the
    paid-tier helper asks, but the reply is only stripped, not
    upper-cased, before it is matched. *)
Definition get_currency_via_llm (location_name : string)
    (completion : string -> result (option string)) : string :=
  match completion (Currency.currency_prompt location_name) with
  | Ok (Some content) =>
      let currency_code := strip content in
      if Currency.fullmatch_code currency_code then currency_code else "USD"
  | Ok None => "USD"       (* [None.strip()]: AttributeError, caught *)
  | Raise _ => "USD"
  end.

End WithStringMethods.

(** The input checks at the head of [generate_free_report_content]: the
    reply returned at once when one of them fails, [None] when the
    generation goes ahead. *)
Definition invalid_input (idea location : pyval) : option pyval :=
  if negb (truthy idea) || negb (is_str idea) then
    Some (PDict [("error", PStr "Invalid 'idea' input.")])
  else if negb (truthy location) || negb (is_str location) then
    Some (PDict [("error", PStr "Invalid 'location' input.")])
  else None.

End FreeReport.

(** ** The JSON conversion ([services/generate_json_report.py]) *)

Module JsonReport.

(** The keys of [report_section_tasks] in [full_json_content_report]. *)
Definition report_section_tasks : list string :=
  [ "executive_overview"; "strategic_insights"; "competitive_landscape";
    "strategy_and_planning"; "product_development"; "financials";
    "marketing_channel_customer_accquistion" ].

(** The dict [full_json_content_report] returns. *)
Record json_report : Type := mkJsonReport {
  report : gmap string pyval;
  errors : gmap string string
}.

Section WithGenerators.

(** The generator registered under a key, applied to the report content:
    what [future.result()] returns or raises. *)
Variable generate : string -> pyval -> result pyval.

(** The loop over [as_completed(future_to_key)]; [completed] lists the
    keys in the order their futures finish. *)
Definition collect (report_content : pyval) (acc : json_report)
    (completed : list string) : json_report :=
  fold_left
    (fun acc key =>
       match generate key report_content with
       | Ok v => mkJsonReport (<[key := v]> (report acc)) (errors acc)
       | Raise e => mkJsonReport (report acc) (<[key := str_exn e]> (errors acc))
       end)
    completed acc.


End WithGenerators.

End JsonReport.

(** ** Reading JSON out of a completion ([services/generate_json_report.py]) *)

Module JsonText.

(** The text from its first ['{'] on. *)
Fixpoint from_first_open (l : list ascii) : option (list ascii) :=
  match l with
  | [] => None
  | c :: r => if Ascii.eqb c "{" then Some l else from_first_open r
  end.

(** The text up to its last ['}']. *)
Fixpoint upto_last_close (l : list ascii) : option (list ascii) :=
  match l with
  | [] => None
  | c :: r =>
      match upto_last_close r with
      | Some p => Some (c :: p)
      | None => if Ascii.eqb c "}" then Some [c] else None
      end
  end.

(** [re.search(r'({.*})', text, re.DOTALL)], group 1: the dot matches
    every character and the star is greedy, so the leftmost match runs
    from the first ['{'] to the last ['}'] behind it. *)
Definition search_braces (text : string) : option string :=
  match from_first_open (list_ascii_of_string text) with
  | None => None
  | Some l =>
      match upto_last_close l with
      | None => None
      | Some m => Some (string_of_list_ascii m)
      end
  end.

(** [extract_possible_json] *)
Definition extract_possible_json (text : string) : option string :=
  match search_braces text with
  | Some m => Some (Currency.ascii_strip m)
  | None => None
  end.

End JsonText.

(** ** Maintenance of the ledger ([services/user_crud_service.py]) *)

Module Maintenance.
Import Ledger.

(** [assign_two_free_credits_to_all_users]:
    [update_many({}, {'$set': {'credits.free_credits': 2}})]. *)
Definition assign_two_free_credits_to_all_users (db : users) : users :=
  (fun c => mkCredits (paid_credits c) 2) <$> db.

End Maintenance.

(** ** The completion call of the JSON conversion
    ([services/generate_json_report.py]) *)

Module Completion.

(** What the code reads of a chat completion: the content of the message
    of the first choice and the token usage (prompt, completion, total),
    either of which may be [None]. *)
Record completion : Type := mkCompletion {
  content : option string;
  usage : option (Z * Z * Z)
}.

(** The dict [generate_with_openai] returns; [time_taken] is the
    difference of two readings of the clock. *)
Record generated (seconds : Type) : Type := mkGenerated {
  text : string;
  time_taken : seconds;
  input_tokens : Z;
  output_tokens : Z
}.
Arguments mkGenerated {seconds} text time_taken input_tokens output_tokens.
Arguments text {seconds} g.
Arguments time_taken {seconds} g.
Arguments input_tokens {seconds} g.
Arguments output_tokens {seconds} g.

(** A run of [generate_with_openai]: what it returned ([None] if the loop
    ran out), the sleeps it made and the number of requests it sent. *)
Record run (seconds : Type) : Type := mkRun {
  returned : option (generated seconds);
  slept : list Z;
  requests : nat
}.
Arguments mkRun {seconds} returned slept requests.
Arguments returned {seconds} r.
Arguments slept {seconds} r.
Arguments requests {seconds} r.

(** The exception in which the [try] block of one attempt ends, if it
    does: that of the request itself, or the [AttributeError] of
    [content.strip()] or of [usage.prompt_tokens] on [None]. *)
Definition attempt_error (r : result completion) : option exn :=
  match r with
  | Raise e => Some e
  | Ok response =>
      match content response, usage response with
      | None, _ => Some (AttributeError "'NoneType' object has no attribute 'strip'")
      | Some _, None =>
          Some (AttributeError "'NoneType' object has no attribute 'prompt_tokens'")
      | Some _, Some _ => None
      end
  end.

(** The content of the dict returned after the last failed attempt. *)
Definition error_section (section_name : string) (retries : nat)
    (last_exception : exn) : string :=
  "### Error Generating Section: " +:+ section_name +:+ "

After " +:+ pretty retries +:+ " attempts.
```
" +:+ str_exn last_exception +:+ "
```".

Section WithClient.

(** [str.strip] *)
Variable strip : string -> string.

(** Readings of the clock: [time n] is what the n-th call of
    [time.time()] returns, [minus] the subtraction of two readings. *)
Variable seconds : Type.
Variable minus : seconds -> seconds -> seconds.
Variable time : nat -> seconds.

(** Outcome of the n-th request of this call,
    [client.chat.completions.create(...)] and the access to
    [.choices[0].message]. *)
Variable create : nat -> result completion.

(** The loop [for attempt in range(retries)], with [left] iterations to
    go; [reads] counts the readings of the clock so far.  [time.sleep] is
    taken to return. *)
Fixpoint generate_loop (section_name : string) (retries left attempt : nat)
    (wait_time : Z) (reads : nat) (slept : list Z) : run seconds :=
  match left with
  | O => mkRun None slept attempt
  | S left' =>
      let failed (last_exception : exn) (reads : nat) : run seconds :=
        if (attempt <? retries - 1)%nat then
          generate_loop section_name retries left' (S attempt) (wait_time * 2)
            reads (slept ++ [wait_time])
        else
          mkRun (Some (mkGenerated
                         (error_section section_name retries last_exception)
                         (minus (time reads) (time 0)) 0 0))
            slept (S attempt) in
      match create attempt with
      | Raise e => failed e reads
      | Ok response =>
          match content response with
          | None =>
              failed (AttributeError "'NoneType' object has no attribute 'strip'")
                reads
          | Some c =>
              let time_taken := minus (time reads) (time 0) in
              match usage response with
              | None =>
                  failed (AttributeError
                            "'NoneType' object has no attribute 'prompt_tokens'")
                    (S reads)
              | Some (prompt_tokens, completion_tokens, _) =>
                  mkRun (Some (mkGenerated (strip c) time_taken prompt_tokens
                                 completion_tokens))
                    slept (S attempt)
              end
          end
      end
  end.

(** [generate_with_openai(prompt, section_name, max_tokens)] *)
Definition generate_with_openai (section_name : string) : run seconds :=
  let retries := 3%nat in
  let wait_time := 5 in
  generate_loop section_name retries retries 0 wait_time 1 [].

End WithClient.

End Completion.

(** ** The completion call of the free tier
    ([services/free_report_generation.py]) *)

Module FreeCompletion.
Import Completion.

(** How a request can fail, as the [except] clauses tell the cases apart:
    a rate limit, another error of the API, anything else. *)
Inductive failure : Type :=
| RateLimitError (msg : string)
| APIError (msg : string)
| Unexpected (e : exn).

Inductive reply : Type :=
| Completed (c : completion)
| Failed (f : failure).

(** How a run of [_generate_content] ends: with its dict, or with the
    error of the API raised again. *)
Inductive ending (seconds : Type) : Type :=
| Returned (g : generated seconds)
| Raised (f : failure).
Arguments Returned {seconds} g.
Arguments Raised {seconds} f.

Record run (seconds : Type) : Type := mkRun {
  ended : ending seconds;
  slept : list Z;
  requests : nat
}.
Arguments mkRun {seconds} ended slept requests.
Arguments ended {seconds} r.
Arguments slept {seconds} r.
Arguments requests {seconds} r.

(** [type(e).__name__] *)
Definition exn_name (e : exn) : string :=
  match e with
  | Exception _ => "Exception"
  | ValueError _ => "ValueError"
  | KeyError _ => "KeyError"
  | TypeError _ => "TypeError"
  | AttributeError _ => "AttributeError"
  | SoftTimeLimitExceeded _ => "SoftTimeLimitExceeded"
  end.

(** The failure in which the [try] block of one attempt ends, if it does:
    that of the request, or the [AttributeError] of [content.strip()] on
    [None]. *)
Definition attempt_failure (r : reply) : option failure :=
  match r with
  | Failed f => Some f
  | Completed c =>
      match content c with
      | None =>
          Some (Unexpected
                  (AttributeError "'NoneType' object has no attribute 'strip'"))
      | Some _ => None
      end
  end.

Definition unexpected_message (section_name : string) (attempt : nat) (e : exn)
    : string :=
  "Unexpected error generating section '" +:+ section_name +:+ "' on attempt "
    +:+ pretty (attempt + 1)%nat +:+ ": " +:+ exn_name e +:+ " - " +:+ str_exn e.

Definition error_section (section_name : string) (retries : nat)
    (error_message : string) : string :=
  "### Error Generating Section: " +:+ section_name +:+ "

After " +:+ pretty retries +:+ " attempts.
```
" +:+ error_message +:+ "
```".

(** The content of the dict behind the loop. *)
Definition final_section (section_name : string) (retries : nat) : string :=
  "### Error Generating Section: " +:+ section_name +:+ "

```
Failed to generate section '" +:+ section_name +:+ "' after "
    +:+ pretty retries +:+ " attempts.
```".

Section WithClient.

Variable strip : string -> string.
Variable seconds : Type.
Variable minus : seconds -> seconds -> seconds.
Variable time : nat -> seconds.

(** Outcome of the n-th request of this call. *)
Variable create : nat -> reply.

(** The loop [for attempt in range(retries)], with [left] iterations to
    go.  [time.sleep] is taken to return. *)
Fixpoint generate_loop (section_name : string) (retries left attempt : nat)
    (wait_time : Z) (slept : list Z) : run seconds :=
  match left with
  | O =>
      mkRun (Returned (mkGenerated (final_section section_name retries)
                         (minus (time 1) (time 0)) 0 0))
        slept attempt
  | S left' =>
      let again : run seconds :=
        generate_loop section_name retries left' (S attempt) (wait_time * 2)
          (slept ++ [wait_time]) in
      let unexpected (e : exn) : run seconds :=
        let error_message := unexpected_message section_name attempt e in
        if (attempt =? retries - 1)%nat then
          mkRun (Returned (mkGenerated
                             (error_section section_name retries error_message)
                             (minus (time 1) (time 0)) 0 0))
            slept (S attempt)
        else again in
      match create attempt with
      | Completed response =>
          match content response with
          | None =>
              unexpected
                (AttributeError "'NoneType' object has no attribute 'strip'")
          | Some c =>
              mkRun (Returned
                       (mkGenerated (strip c) (minus (time 1) (time 0))
                          match usage response with
                          | Some (prompt_tokens, _, _) => prompt_tokens
                          | None => 0
                          end
                          match usage response with
                          | Some (_, completion_tokens, _) => completion_tokens
                          | None => 0
                          end))
                slept (S attempt)
          end
      | Failed (RateLimitError msg) =>
          if (attempt =? retries - 1)%nat
          then mkRun (Raised (RateLimitError msg)) slept (S attempt)
          else again
      | Failed (APIError msg) =>
          if (attempt =? retries - 1)%nat
          then mkRun (Raised (APIError msg)) slept (S attempt)
          else again
      | Failed (Unexpected e) => unexpected e
      end
  end.

(** [_generate_content(prompt, section_name, max_tokens, temperature)] *)
Definition _generate_content (section_name : string) : run seconds :=
  let retries := 3%nat in
  let wait_time := 5 in
  generate_loop section_name retries retries 0 wait_time [].

End WithClient.

End FreeCompletion.

(** ** Replies to the currency question *)

Module Replies.

(** A letter of the ASCII alphabet, capital or small. *)
Definition is_letter (c : ascii) : bool :=
  let n := nat_of_ascii c in
  Currency.is_upper_letter c || ((97 <=? n) && (n <=? 122))%nat.

(** A text of white space only. *)
Definition blank (s : string) : bool :=
  forallb Currency.is_space (list_ascii_of_string s).

End Replies.

(** * Properties *)

(** ** The credit ledger *)

Section LedgerFacts.
Import Ledger.

Lemma valid_credit_type_cases ct :
  valid_credit_type ct = true -> ct = "free" \/ ct = "paid".
Proof.
  unfold valid_credit_type. intros H. apply orb_true_iff in H.
  destruct H as [H|H]; apply String.eqb_eq in H; auto.
Qed.

Lemma bucket_inc ct a c : bucket ct (inc_bucket ct a c) = bucket ct c + a.
Proof. unfold bucket, inc_bucket. destruct (String.eqb ct "free"); reflexivity. Qed.

Lemma other_bucket_inc ct a c :
  other_bucket ct (inc_bucket ct a c) = other_bucket ct c.
Proof.
  unfold other_bucket, inc_bucket. destruct (String.eqb ct "free"); reflexivity.
Qed.

Lemma inc_bucket_inc ct a b c :
  inc_bucket ct a (inc_bucket ct b c) = inc_bucket ct (b + a) c.
Proof.
  unfold inc_bucket. destruct (String.eqb ct "free"); simpl; f_equal; lia.
Qed.

Lemma inc_bucket_zero ct c : inc_bucket ct 0 c = c.
Proof.
  unfold inc_bucket. destruct c as [p f].
  destruct (String.eqb ct "free"); simpl; f_equal; lia.
Qed.

(** A call that passes the checks increments the named bucket. *)
Lemma update_accepts db uid amount ct c :
  db !! uid = Some c -> valid_credit_type ct = true -> amount <> 0 ->
  (amount < 0 -> Z.abs amount <= bucket ct c) ->
  update_user_credits_by_type db uid amount ct
  = (<[uid := inc_bucket ct amount c]> db, Ok (inc_bucket ct amount c)).
Proof.
  intros Hu Hv Hz Hb.
  unfold update_user_credits_by_type, update_user_credits_body, update_one_inc.
  rewrite Hv, Hu. simpl.
  destruct (amount =? 0) eqn:H0; [apply Z.eqb_eq in H0; lia|].
  destruct (amount <? 0) eqn:Hneg; simpl.
  - apply Z.ltb_lt in Hneg. specialize (Hb Hneg).
    destruct (Z.abs amount >? bucket ct c) eqn:Hgt.
    + apply Z.gtb_lt in Hgt. lia.
    + simpl. rewrite lookup_insert_eq. reflexivity.
  - rewrite lookup_insert_eq. reflexivity.
Qed.

(** A debit beyond the balance is refused and changes nothing. *)
Lemma update_rejects db uid amount ct c :
  db !! uid = Some c -> valid_credit_type ct = true ->
  amount < 0 -> Z.abs amount > bucket ct c ->
  update_user_credits_by_type db uid amount ct
  = (db, Raise (Exception ("Error updating user credits: "
                             +:+ ("Insufficient " +:+ ct +:+ " credits")))).
Proof.
  intros Hu Hv Hneg Hgt.
  unfold update_user_credits_by_type, update_user_credits_body.
  rewrite Hv, Hu. simpl.
  apply Z.ltb_lt in Hneg. rewrite Hneg.
  assert ((Z.abs amount >? bucket ct c) = true) as -> by (apply Z.gtb_lt; lia).
  reflexivity.
Qed.

(** Whatever the call, it either leaves the collection as it is or
    replaces one account by its incremented version, and then only after
    the balance check. *)
Lemma update_shape db uid amount ct :
  fst (update_user_credits_by_type db uid amount ct) = db \/
  exists c, db !! uid = Some c /\
    (amount < 0 -> Z.abs amount <= bucket ct c) /\
    fst (update_user_credits_by_type db uid amount ct)
    = <[uid := inc_bucket ct amount c]> db.
Proof.
  unfold update_user_credits_by_type, update_user_credits_body, update_one_inc.
  destruct (valid_credit_type ct); simpl; [|auto].
  destruct (db !! uid) as [c|] eqn:Hu; simpl; [|auto].
  destruct (amount <? 0) eqn:Hneg; simpl.
  - destruct (Z.abs amount >? bucket ct c) eqn:Hgt; simpl; [auto|].
    destruct (amount =? 0); simpl; [auto|].
    rewrite lookup_insert_eq. simpl. right. exists c. repeat split; auto.
    intros _. destruct (Z.gtb_spec (Z.abs amount) (bucket ct c)); [discriminate|lia].
  - destruct (amount =? 0); simpl; [auto|].
    rewrite lookup_insert_eq. simpl. right. exists c. repeat split; auto.
    apply Z.ltb_ge in Hneg. lia.
Qed.

Lemma update_preserves_nonneg db uid amount ct :
  credits_nonneg db ->
  credits_nonneg (fst (update_user_credits_by_type db uid amount ct)).
Proof.
  intros Hdb.
  destruct (update_shape db uid amount ct) as [-> | (c & Hu & Hb & ->)]; [exact Hdb|].
  apply map_Forall_insert_2; [|exact Hdb].
  specialize (Hdb _ _ Hu). simpl in Hdb. destruct Hdb as [Hf Hp].
  unfold inc_bucket, bucket in *.
  destruct (String.eqb ct "free"); simpl; lia.
Qed.

(** C2.  A debit ([amount < 0]) larger than the balance of the named
    bucket raises the insufficient-credits error and leaves the whole
    collection, so both buckets, as it was; a debit within the balance
    lowers exactly the named bucket by [|amount|] and keeps the other; and
    no call of [update_user_credits_by_type], debit or credit, takes a
    balance below zero. *)
Theorem update_user_credits_by_type_debit :
  forall (db : users) (user_id : string) (amount : Z) (credit_type : string)
         (c : Credits),
    db !! user_id = Some c ->
    valid_credit_type credit_type = true ->
    amount < 0 ->
    (Z.abs amount > bucket credit_type c ->
       update_user_credits_by_type db user_id amount credit_type
       = (db, Raise (Exception
                       ("Error updating user credits: "
                          +:+ ("Insufficient " +:+ credit_type +:+ " credits")))))
    /\ (Z.abs amount <= bucket credit_type c ->
        exists c',
          update_user_credits_by_type db user_id amount credit_type
          = (<[user_id := c']> db, Ok c')
          /\ bucket credit_type c' = bucket credit_type c - Z.abs amount
          /\ other_bucket credit_type c' = other_bucket credit_type c)
    /\ (credits_nonneg db ->
        forall uid a ct,
          credits_nonneg (fst (update_user_credits_by_type db uid a ct))).
Proof.
  intros db user_id amount credit_type c Hu Hv Hneg. split; [|split].
  - intros Hgt. now apply update_rejects with (c := c).
  - intros Hle. exists (inc_bucket credit_type amount c). repeat split.
    + apply update_accepts; auto; lia.
    + rewrite bucket_inc. lia.
    + apply other_bucket_inc.
  - intros Hdb uid a ct. now apply update_preserves_nonneg.
Qed.

Lemma update_user_credits_by_type_debit_witness :
  let db : users := {[ "u1" := mkCredits 0 1 ]} in
  update_user_credits_by_type db "u1" (-2) "free"
  = (db, Raise (Exception "Error updating user credits: Insufficient free credits"))
  /\ (exists c',
        update_user_credits_by_type db "u1" (-1) "free" = (<["u1" := c']> db, Ok c')
        /\ bucket "free" c' = 0 /\ other_bucket "free" c' = 0).
Proof.
  intros db. split.
  - apply (update_user_credits_by_type_debit db "u1" (-2) "free" (mkCredits 0 1));
      [reflexivity | reflexivity | lia | vm_compute; reflexivity].
  - apply (update_user_credits_by_type_debit db "u1" (-1) "free" (mkCredits 0 1));
      [reflexivity | reflexivity | lia | vm_compute; discriminate].
Defined.

End LedgerFacts.

(** ** Admission under interleaving *)

Section InterleavingFacts.
Import Ledger Admission Interleaving.

(** A finished handler stays where it is. *)
Lemma step_done rq db j r : step rq db (Done j r) = (db, Done j r).
Proof. reflexivity. Qed.

Lemma bucket_free c : bucket "free" c = free_credits c.
Proof. reflexivity. Qed.

Lemma bucket_paid c : bucket "paid" c = paid_credits c.
Proof. reflexivity. Qed.

(** The three database steps of a debit of one credit, taken without
    interruption from a balance of at least one. *)
Lemma debit_steps rq db c :
  db !! req_user rq = Some c ->
  1 <= bucket (req_access_level rq) c ->
  let db' := <[req_user rq := inc_bucket (req_access_level rq) (-1) c]> db in
  step rq db AtFind = (db, AtInc) /\
  step rq db AtInc = (db', AtRefetch) /\
  step rq db' AtRefetch
  = (db', match req_delay rq with
          | Raise _ =>
              Done None
                (error_response "Internal server error during report generation" 500)
          | Ok task_id =>
              Done (Some (queued_job rq))
                (submitted task_id "Report generation task submitted")
          end).
Proof.
  intros Hu Hb db'. split; [|split].
  - cbn [step]. rewrite Hu. change (Z.abs (-1)) with 1.
    destruct (1 >? bucket (req_access_level rq) c) eqn:Hgt;
      [apply Z.gtb_lt in Hgt; lia | reflexivity].
  - cbn [step]. unfold update_one_inc. rewrite Hu. reflexivity.
  - cbn [step]. subst db'. rewrite lookup_insert_eq.
    destruct (req_delay rq); reflexivity.
Qed.

(** A handler that runs without interruption does what [check_and_debit] does. *)
Lemma run_alone_is_sequential rq db :
  run_alone rq db
  = let '(db', j, r) :=
      check_and_debit db (req_user rq) (req_access_level rq) (req_data rq)
        (req_userIdeasId rq) (req_slug rq) (req_delay rq) in
    (db', Done j r).
Proof.
  unfold run_alone, check_and_debit.
  cbn [step]. unfold get_user_credits.
  destruct (db !! req_user rq) as [c|] eqn:Hu; [|reflexivity].
  unfold valid_credit_type.
  destruct (String.eqb (req_access_level rq) "free") eqn:Hf.
  - cbn [orb negb].
    assert (Hs : req_access_level rq = "free") by (now apply String.eqb_eq).
    rewrite Hs, bucket_free.
    destruct (free_credits c <? 1) eqn:Hlt; [reflexivity|].
    apply Z.ltb_ge in Hlt.
    rewrite (update_accepts db (req_user rq) (-1) "free" c Hu eq_refl)
      by (try discriminate; rewrite bucket_free; lia).
    destruct (debit_steps rq db c Hu) as (H1 & H2 & H3);
      [rewrite Hs, bucket_free; lia|].
    rewrite H1, H2, H3. rewrite Hs. unfold queued_job. rewrite Hf.
    destruct (req_delay rq); reflexivity.
  - cbn [orb].
    destruct (String.eqb (req_access_level rq) "paid") eqn:Hp; [|reflexivity].
    cbn [negb].
    assert (Hs : req_access_level rq = "paid") by (now apply String.eqb_eq).
    rewrite Hs, bucket_paid.
    destruct (paid_credits c <? 1) eqn:Hlt; [reflexivity|].
    apply Z.ltb_ge in Hlt.
    rewrite (update_accepts db (req_user rq) (-1) "paid" c Hu eq_refl)
      by (try discriminate; rewrite bucket_paid; lia).
    destruct (debit_steps rq db c Hu) as (H1 & H2 & H3);
      [rewrite Hs, bucket_paid; lia|].
    rewrite H1, H2, H3. rewrite Hs. unfold queued_job. rewrite Hf.
    destruct (req_delay rq); reflexivity.
Qed.

(** The gate turns away a request against an empty bucket. *)
Lemma gate_rejects rq db c :
  db !! req_user rq = Some c ->
  valid_credit_type (req_access_level rq) = true ->
  bucket (req_access_level rq) c < 1 ->
  step rq db AtGate
  = (db, Done None (error_response
                      ("Insufficient " +:+ req_access_level rq +:+ " credits") 403)).
Proof.
  intros Hu Hv Hb. cbn [step]. unfold get_user_credits. rewrite Hu, Hv.
  cbn [negb]. apply Z.ltb_lt in Hb. rewrite Hb. reflexivity.
Qed.

Lemma gate_passes rq db c :
  db !! req_user rq = Some c ->
  valid_credit_type (req_access_level rq) = true ->
  1 <= bucket (req_access_level rq) c ->
  step rq db AtGate = (db, AtFind).
Proof.
  intros Hu Hv Hb. cbn [step]. unfold get_user_credits. rewrite Hu, Hv.
  cbn [negb]. apply Z.ltb_ge in Hb. rewrite Hb. reflexivity.
Qed.

(** Two handlers taking turns on a bucket that holds one credit: both
    pass the gate and the balance check before either writes, both are
    accepted, and the balance ends below zero. *)
Example alternating_handlers_overdraw :
  let db : users := {[ "u1" := mkCredits 0 1 ]} in
  let rq1 := mkRequest "u1" "free" (PDict []) (PStr "i1") (PStr "s1") (Ok "t1") in
  let rq2 := mkRequest "u1" "free" (PDict []) (PStr "i2") (PStr "s2") (Ok "t2") in
  let c := run rq1 rq2 [true; false; true; false; true; false; true; false]
             (start db) in
  accepted (first c) = true /\ accepted (second c) = true /\
  store c !! "u1" = Some (mkCredits 0 (-1)).
Proof. vm_compute. auto. Qed.

(** C3, refuted as stated: there is a schedule of the two handlers under
    which both submissions are accepted. *)
Lemma admission_not_atomic : ~ admission_atomic.
Proof.
  intros H.
  pose (db := ({[ "u1" := mkCredits 0 1 ]} : users)).
  pose (rq1 := mkRequest "u1" "free" (PDict []) (PStr "i1") (PStr "s1") (Ok "t1")).
  pose (rq2 := mkRequest "u1" "free" (PDict []) (PStr "i2") (PStr "s2") (Ok "t2")).
  specialize (H db rq1 rq2 (mkCredits 0 1)
                [true; false; true; false; true; false; true; false]
                eq_refl eq_refl eq_refl eq_refl eq_refl eq_refl eq_refl).
  cbv zeta in H.
  assert (Hr : rejected_insufficient
                 (second (run rq1 rq2
                            [true; false; true; false; true; false; true; false]
                            (start db))) = false) by (vm_compute; reflexivity).
  assert (Hr' : rejected_insufficient
                  (first (run rq1 rq2
                            [true; false; true; false; true; false; true; false]
                            (start db))) = false) by (vm_compute; reflexivity).
  destruct H as [[_ H] | [_ H]]; try (vm_compute; reflexivity); congruence.
Qed.

(** One handler run to completion before the other starts. *)
Lemma run_serial rq1 rq2 db (pick : bool) :
  run rq1 rq2 (repeat pick 4 ++ repeat (negb pick) 4) (start db)
  = if pick then
      let '(db1, h1) := run_alone rq1 db in
      let '(db2, h2) := run_alone rq2 db1 in
      mkConfig db2 h1 h2
    else
      let '(db1, h2) := run_alone rq2 db in
      let '(db2, h1) := run_alone rq1 db1 in
      mkConfig db2 h1 h2.
Proof.
  unfold run, run_alone, start. destruct pick; cbn [repeat app negb fold_left].
  - unfold sched_step at 8. cbn [store first second].
    destruct (step rq1 db AtGate) as [d1 a1].
    unfold sched_step at 7. cbn [store first second].
    destruct (step rq1 d1 a1) as [d2 a2].
    unfold sched_step at 6. cbn [store first second].
    destruct (step rq1 d2 a2) as [d3 a3].
    unfold sched_step at 5. cbn [store first second].
    destruct (step rq1 d3 a3) as [d4 a4].
    unfold sched_step at 4. cbn [store first second].
    destruct (step rq2 d4 AtGate) as [e1 b1].
    unfold sched_step at 3. cbn [store first second].
    destruct (step rq2 e1 b1) as [e2 b2].
    unfold sched_step at 2. cbn [store first second].
    destruct (step rq2 e2 b2) as [e3 b3].
    unfold sched_step. cbn [store first second].
    destruct (step rq2 e3 b3) as [e4 b4]. reflexivity.
  - unfold sched_step at 8. cbn [store first second].
    destruct (step rq2 db AtGate) as [d1 a1].
    unfold sched_step at 7. cbn [store first second].
    destruct (step rq2 d1 a1) as [d2 a2].
    unfold sched_step at 6. cbn [store first second].
    destruct (step rq2 d2 a2) as [d3 a3].
    unfold sched_step at 5. cbn [store first second].
    destruct (step rq2 d3 a3) as [d4 a4].
    unfold sched_step at 4. cbn [store first second].
    destruct (step rq1 d4 AtGate) as [e1 b1].
    unfold sched_step at 3. cbn [store first second].
    destruct (step rq1 e1 b1) as [e2 b2].
    unfold sched_step at 2. cbn [store first second].
    destruct (step rq1 e2 b2) as [e3 b3].
    unfold sched_step. cbn [store first second].
    destruct (step rq1 e3 b3) as [e4 b4]. reflexivity.
Qed.

(** Alone and with a credit in the bucket, a handler is accepted and
    leaves the bucket lowered by one. *)
Lemma run_alone_accepted rq db c :
  db !! req_user rq = Some c ->
  valid_credit_type (req_access_level rq) = true ->
  is_ok (req_delay rq) = true ->
  1 <= bucket (req_access_level rq) c ->
  exists r,
    run_alone rq db
    = (<[req_user rq := inc_bucket (req_access_level rq) (-1) c]> db,
       Done (Some (queued_job rq)) r) /\ status r = 202.
Proof.
  intros Hu Hv Hd Hb. unfold run_alone.
  rewrite (gate_passes rq db c Hu Hv Hb).
  destruct (debit_steps rq db c Hu Hb) as (H1 & H2 & H3).
  rewrite H1, H2, H3.
  destruct (req_delay rq) as [tid|]; [|discriminate].
  eexists. split; reflexivity.
Qed.

Lemma run_alone_rejected rq db c :
  db !! req_user rq = Some c ->
  valid_credit_type (req_access_level rq) = true ->
  bucket (req_access_level rq) c < 1 ->
  run_alone rq db
  = (db, Done None (error_response
                      ("Insufficient " +:+ req_access_level rq +:+ " credits") 403)).
Proof.
  intros Hu Hv Hb. unfold run_alone.
  rewrite (gate_rejects rq db c Hu Hv Hb). reflexivity.
Qed.

(** C3, as the code has it.  Of two submissions against a bucket holding
    one credit that are handled one after the other, in either order, the
    one handled first is accepted and its task queued, the other is turned
    away with the insufficient-credits reply (403), and the bucket ends
    at zero. *)
Theorem serial_submissions_accept_exactly_one :
  forall (db : users) (rq1 rq2 : request) (c : Credits) (pick : bool),
    req_user rq1 = req_user rq2 ->
    req_access_level rq1 = req_access_level rq2 ->
    valid_credit_type (req_access_level rq1) = true ->
    is_ok (req_delay rq1) = true -> is_ok (req_delay rq2) = true ->
    db !! req_user rq1 = Some c ->
    bucket (req_access_level rq1) c = 1 ->
    let c' := run rq1 rq2 (repeat pick 4 ++ repeat (negb pick) 4) (start db) in
    let winner := if pick then first c' else second c' in
    let loser := if pick then second c' else first c' in
    accepted winner = true /\
    loser = Done None
              (error_response
                 ("Insufficient " +:+ req_access_level rq1 +:+ " credits") 403) /\
    rejected_insufficient loser = true /\
    (bucket (req_access_level rq1) <$> store c' !! req_user rq1) = Some 0.
Proof.
  intros db rq1 rq2 c pick Hsame Hlvl Hv Hd1 Hd2 Hu Hb c'.
  subst c'. rewrite run_serial.
  assert (Hinc : bucket (req_access_level rq1)
                   (inc_bucket (req_access_level rq1) (-1) c) = 0)
    by (rewrite bucket_inc; lia).
  destruct pick.
  - destruct (run_alone_accepted rq1 db c Hu Hv Hd1) as (r & -> & Hr); [lia|].
    rewrite (run_alone_rejected rq2 _ (inc_bucket (req_access_level rq1) (-1) c)).
    + cbn [first second store]. rewrite lookup_insert_eq, Hlvl.
      repeat split. cbn. rewrite <- Hlvl, Hinc. reflexivity.
    + rewrite <- Hsame. apply lookup_insert_eq.
    + now rewrite <- Hlvl.
    + rewrite <- Hlvl, Hinc. lia.
  - rewrite Hsame in Hu. rewrite Hlvl in Hv, Hb, Hinc.
    destruct (run_alone_accepted rq2 db c Hu Hv Hd2) as (r & -> & Hr); [lia|].
    rewrite (run_alone_rejected rq1 _ (inc_bucket (req_access_level rq2) (-1) c)).
    + cbn [first second store]. rewrite Hsame, lookup_insert_eq, Hlvl.
      repeat split. cbn. rewrite Hinc. reflexivity.
    + rewrite Hsame. apply lookup_insert_eq.
    + now rewrite Hlvl.
    + rewrite Hlvl, Hinc. lia.
Qed.

Lemma serial_submissions_accept_exactly_one_witness :
  let db : users := {[ "u1" := mkCredits 0 1 ]} in
  let rq1 := mkRequest "u1" "free" (PDict []) (PStr "i1") (PStr "s1") (Ok "t1") in
  let rq2 := mkRequest "u1" "free" (PDict []) (PStr "i2") (PStr "s2") (Ok "t2") in
  let c' := run rq1 rq2 (repeat true 4 ++ repeat false 4) (start db) in
  accepted (first c') = true /\
  second c' = Done None (error_response "Insufficient free credits" 403) /\
  rejected_insufficient (second c') = true /\
  (bucket "free" <$> store c' !! "u1") = Some 0.
Proof.
  intros db rq1 rq2.
  apply (serial_submissions_accept_exactly_one db rq1 rq2 (mkCredits 0 1) true);
    reflexivity.
Defined.

End InterleavingFacts.

(** ** The tasks: refunds, progress and the default location *)

Section TaskFacts.
Import Ledger Tasks.

Lemma credit_calls_app tr tr' :
  credit_calls (tr ++ tr') = (credit_calls tr ++ credit_calls tr')%list.
Proof.
  induction tr as [|ev tr IH]; [reflexivity|].
  destruct ev; simpl; rewrite IH; reflexivity.
Qed.

Lemma progress_updates_app tr tr' :
  progress_updates (tr ++ tr') = (progress_updates tr ++ progress_updates tr')%list.
Proof.
  induction tr as [|ev tr IH]; [reflexivity|].
  destruct ev; simpl; rewrite IH; reflexivity.
Qed.

Lemma span_nil total lo : span total lo lo = [].
Proof. unfold span. rewrite Nat.sub_diag. reflexivity. Qed.

Lemma span_app total lo mid hi :
  (lo <= mid <= hi)%nat ->
  (span total lo mid ++ span total mid hi)%list = span total lo hi.
Proof.
  intros H. unfold span. rewrite <- map_app. f_equal.
  replace (hi - lo)%nat with ((mid - lo) + (hi - mid))%nat by lia.
  rewrite seq_app. do 2 f_equal. lia.
Qed.

Lemma span_step total lo :
  span total lo (S lo) = [(Z.of_nat (S lo), Z.of_nat total)].
Proof.
  unfold span. replace (S lo - lo)%nat with 1%nat by lia. reflexivity.
Qed.

Lemma span_full total : span total 0 total = steps_upto total.
Proof. unfold span, steps_upto. rewrite Nat.sub_0_r. reflexivity. Qed.

Section Pieces.
Variable env : nat -> result pyval.
Variable total : nat.

Lemma advances_ret {A} lo (a : A) : advances total lo lo (ret a).
Proof.
  intros w. simpl. rewrite span_nil, app_nil_r. auto.
Qed.

Lemma advances_raise {A} lo hi e :
  (lo <= hi)%nat -> advances (A := A) total lo hi (raise e).
Proof.
  intros H w. simpl. repeat split.
  exists lo. rewrite span_nil, app_nil_r. split; [lia|reflexivity].
Qed.

Lemma advances_lift {A} lo (r : result A) : advances total lo lo (lift r).
Proof.
  intros w. simpl. repeat split.
  destruct r; [|exists lo; split; [lia|]]; now rewrite span_nil, app_nil_r.
Qed.

Lemma advances_external lo f args : advances total lo lo (external env f args).
Proof.
  intros w. unfold external. cbn [fst snd accounts trace].
  rewrite credit_calls_app, progress_updates_app. simpl.
  rewrite !app_nil_r. repeat split.
  destruct (env (clock w)); [|exists lo; split; [lia|]];
    now rewrite span_nil, app_nil_r.
Qed.

Lemma advances_emit lo status :
  advances total lo (S lo)
    (emit (update_state (Z.of_nat (S lo)) (Z.of_nat total) status)).
Proof.
  intros w. unfold emit. cbn [fst snd accounts trace].
  rewrite credit_calls_app, progress_updates_app, span_step. simpl.
  rewrite app_nil_r. auto.
Qed.

Lemma advances_bind {A B} lo mid hi (m : task A) (k : A -> task B) :
  (lo <= mid <= hi)%nat ->
  advances total lo mid m -> (forall a, advances total mid hi (k a)) ->
  advances total lo hi (bind m k).
Proof.
  intros Hle Hm Hk w. unfold bind.
  destruct (Hm w) as (Ha & Hc & Hp).
  destruct (m w) as [w1 [a|e]]; cbn [fst snd] in *.
  - destruct (Hk a w1) as (Ha' & Hc' & Hp').
    rewrite Ha', Hc', Ha, Hc. repeat split.
    destruct (snd (k a w1)).
    + rewrite Hp', Hp, <- app_assoc. now rewrite span_app by lia.
    + destruct Hp' as (mid' & Hmid & ->). exists mid'. split; [lia|].
      rewrite Hp, <- app_assoc. now rewrite span_app by lia.
  - repeat split; auto. destruct Hp as (mid' & Hmid & ->).
    exists mid'. split; [lia|reflexivity].
Qed.

(** A handler that continues after a failed quiet call. *)
Lemma advances_try_except {A} lo (m : task A) (h : exn -> task A) :
  advances total lo lo m -> (forall e, advances total lo lo (h e)) ->
  advances total lo lo (try_except m h).
Proof.
  intros Hm Hh w. unfold try_except.
  destruct (Hm w) as (Ha & Hc & Hp).
  destruct (m w) as [w1 [a|e]]; cbn [fst snd] in *.
  - auto.
  - destruct (Hh e w1) as (Ha' & Hc' & Hp').
    rewrite Ha', Hc', Ha, Hc. repeat split.
    destruct Hp as (mid & Hmid & Hp). assert (mid = lo) by lia. subst mid.
    rewrite span_nil, app_nil_r in Hp. rewrite <- Hp. exact Hp'.
Qed.

Lemma advances_retry_loop lo f args delay attempts last :
  advances total lo lo (retry_loop env f args delay attempts last).
Proof.
  revert last. induction attempts as [|n IH]; intros last; cbn [retry_loop].
  - destruct last; apply advances_raise; lia.
  - apply advances_try_except; [apply advances_external|].
    intros e. apply (advances_bind lo lo lo); [lia|apply advances_external|].
    intros _. apply IH.
Qed.

Lemma advances_retry_operation lo f args :
  advances total lo lo (retry_operation env f args).
Proof. apply advances_retry_loop. Qed.

End Pieces.

Create HintDb quiet discriminated.
#[local] Hint Resolve advances_external advances_lift advances_retry_operation
  advances_ret : quiet.

(** Walks through a task body, one statement at a time. *)
Ltac walk :=
  lazymatch goal with
  | |- advances ?t ?lo ?hi (bind (emit _) _) =>
      apply (advances_bind t lo (S lo) hi);
      [lia | apply (advances_emit t lo) | intros ?]
  | |- advances ?t ?lo ?hi (bind _ _) =>
      apply (advances_bind t lo lo hi); [lia | auto with quiet | intros ?]
  | |- advances _ _ _ (if ?b then _ else _) => destruct b
  | |- advances _ _ _ (raise _) => apply advances_raise; lia
  | |- advances _ _ _ (ret _) => apply advances_ret
  end.

Lemma generate_free_report_body_advances env data current_user userIdeasId slug :
  advances 3 0 3 (generate_free_report_body env data current_user userIdeasId slug).
Proof. unfold generate_free_report_body. repeat walk. Qed.

Lemma execute_workflow_and_generate_report_body_advances env data current_user
    userIdeasId slug :
  advances 8 0 8
    (execute_workflow_and_generate_report_body env data current_user userIdeasId slug).
Proof. unfold execute_workflow_and_generate_report_body. cbv zeta. repeat walk. Qed.

Lemma upgrade_report_to_paid_body_advances env data current_user userIdeasId
    report_id problem_response location :
  advances 8 0 8
    (upgrade_report_to_paid_body env data current_user userIdeasId report_id
       problem_response location).
Proof. unfold upgrade_report_to_paid_body. cbv zeta. repeat walk. Qed.

Lemma job_body_advances env j :
  advances (job_total j) 0 (job_total j) (job_body env j).
Proof.
  destruct j; cbn [job_total job_body].
  - apply generate_free_report_body_advances.
  - apply execute_workflow_and_generate_report_body_advances.
  - apply upgrade_report_to_paid_body_advances.
Qed.

(** Each task is its body guarded by the handler that refunds one credit
    to the job's bucket and re-raises. *)
Lemma run_job_guarded env j w :
  run_job env j w
  = try_except (job_body env j)
      (fun e => bind (refund (job_user j) (job_bucket j)) (fun _ => raise e)) w.
Proof.
  destruct j; cbn [run_job job_body job_user job_bucket];
    unfold generate_free_report_task, execute_workflow_and_generate_report_task,
      upgrade_report_to_paid_task, try_except;
    match goal with |- context [match ?b with _ => _ end] => destruct b as [w1 [v|e]] end;
    try reflexivity; destruct e; reflexivity.
Qed.

Lemma valid_job_bucket j : valid_credit_type (job_bucket j) = true.
Proof. destruct j; reflexivity. Qed.

(** The refund of one credit to an existing account. *)
Lemma refund_credits u ct c w :
  accounts w !! u = Some c -> valid_credit_type ct = true ->
  refund u ct w
  = (mkWorld (<[u := inc_bucket ct 1 c]> (accounts w))
       (trace w ++ [credit_call u 1 ct]) (clock w), Ok tt).
Proof.
  intros Hu Hv. unfold refund.
  rewrite (update_accepts (accounts w) u 1 ct c Hu Hv) by lia. reflexivity.
Qed.

(** What a run of a job does to the ledger, from any ledger that knows
    the user. *)
Lemma run_job_ledger env j db c :
  db !! job_user j = Some c ->
  let out := run_job env j (initial db) in
  match snd out with
  | Raise e =>
      snd (job_body env j (initial db)) = Raise e
      /\ credit_calls (trace (fst out)) = [(job_user j, 1, job_bucket j)]
      /\ accounts (fst out) = <[job_user j := inc_bucket (job_bucket j) 1 c]> db
  | Ok v =>
      snd (job_body env j (initial db)) = Ok v
      /\ credit_calls (trace (fst out)) = []
      /\ accounts (fst out) = db
  end.
Proof.
  intros Hu out. subst out. rewrite run_job_guarded. unfold try_except.
  destruct (job_body_advances env j (initial db)) as (Ha & Hc & _).
  destruct (job_body env j (initial db)) as [w1 [v|e]]; cbn [fst snd] in *.
  - auto.
  - unfold bind. rewrite (refund_credits _ _ c) by (rewrite ?Ha; auto using valid_job_bucket).
    cbn [raise fst snd trace accounts].
    rewrite credit_calls_app, Hc, Ha. auto.
Qed.

Lemma debit_one db u ct c :
  db !! u = Some c -> valid_credit_type ct = true -> (bucket ct c <? 1) = false ->
  update_user_credits_by_type db u (-1) ct
  = (<[u := inc_bucket ct (-1) c]> db, Ok (inc_bucket ct (-1) c)).
Proof.
  intros Hu Hv Hb. apply Z.ltb_ge in Hb.
  apply update_accepts; [assumption|assumption|lia|]. intros _. change (Z.abs (-1)) with 1. lia.
Qed.

Lemma check_and_debit_debits db u lvl data ids slug delay db1 j r :
  Admission.check_and_debit db u lvl data ids slug delay = (db1, Some j, r) ->
  debited db db1 j.
Proof.
  unfold Admission.check_and_debit, get_user_credits.
  destruct (db !! u) as [c|] eqn:Hu; [|discriminate].
  destruct (String.eqb lvl "free").
  - destruct (free_credits c <? 1) eqn:Hb; [discriminate|].
    rewrite (debit_one db u "free" c Hu eq_refl Hb).
    destruct delay; [|discriminate].
    intros [= <- <- _]. exists c. apply Z.ltb_ge in Hb. auto.
  - destruct (String.eqb lvl "paid"); [|discriminate].
    destruct (paid_credits c <? 1) eqn:Hb; [discriminate|].
    rewrite (debit_one db u "paid" c Hu eq_refl Hb).
    destruct delay; [|discriminate].
    intros [= <- <- _]. exists c. apply Z.ltb_ge in Hb. auto.
Qed.

Lemma route_debits db db1 j : queued_by_route db db1 j -> debited db db1 j.
Proof.
  intros [(u & rq & delay & r & H) | (u & rq & idea & existing & delay & r & H)].
  - unfold Admission.execute_workflow_and_generate_report in H.
    repeat match type of H with
           | (if ?b then _ else _) = _ => destruct b; try discriminate
           | match ?x with _ => _ end = _ => destruct x; try discriminate
           end.
    eapply check_and_debit_debits; eauto.
  - unfold Admission.upgrade_report_and_execute_workflow in H.
    repeat match type of H with
           | (if String.eqb _ _ then _ else _) = _ =>
               destruct (String.eqb u ""); try discriminate
           | (if negb _ then _ else _) = _ =>
               match type of H with (if ?b then _ else _) = _ =>
                 destruct b; try discriminate end
           | (if negb _ || negb _ then _ else _) = _ =>
               match type of H with (if ?b then _ else _) = _ =>
                 destruct b; try discriminate end
           | match get_user_credits db u with _ => _ end = _ =>
               unfold get_user_credits in H;
               destruct (db !! u) as [c|] eqn:Hu; try discriminate
           | (if paid_credits ?c <? 1 then _ else _) = _ =>
               destruct (paid_credits c <? 1) eqn:Hb; try discriminate;
               rewrite (debit_one db u "paid" c Hu eq_refl Hb) in H
           | match ?x with _ => _ end = _ => destruct x; try discriminate
           end.
    injection H as <- <- _.
    match goal with
    | Hu : db !! _ = Some ?c, Hb : (paid_credits ?c <? 1) = false |- _ =>
        exists c; apply Z.ltb_ge in Hb; auto
    end.
Qed.

(** A free-tier run in which every collaborator answers: the task returns,
    shows its three steps and leaves the ledger alone. *)
Example free_run_returns :
  let env := fun n : nat =>
    match n with
    | 1%nat => Ok (PDict [("free_report_content", PStr "report")])
    | 4%nat => Ok (PDict [("_id", PStr "r1")])
    | _ => Ok PNone
    end in
  let out := generate_free_report_task env
               (PDict [("problem_response", PStr "an idea")]) "u1" (PStr "i1")
               (PStr "s1") (initial {[ "u1" := mkCredits 0 0 ]}) in
  is_ok (snd out) = true
  /\ progress_updates (trace (fst out)) = [(1, 3); (2, 3); (3, 3)]
  /\ credit_calls (trace (fst out)) = []
  /\ calls_of "generate_free_report_content" (trace (fst out))
     = [[PStr "an idea"; PStr "USA"]].
Proof. vm_compute. auto. Qed.

(** A paid-tier run that is cut short by the soft time limit in its second
    search attempt: one refund to the paid bucket, four steps shown. *)
Example paid_run_times_out :
  let env := fun n : nat =>
    match n with
    | 0%nat => Ok (PDict [("headings", PList [PStr "market"])])
    | 1%nat => Ok (PList [PStr "query"])
    | _ => Raise (SoftTimeLimitExceeded "SoftTimeLimitExceeded()")
    end in
  let out := execute_workflow_and_generate_report_task env
               (PDict [("problem_response", PStr "an idea")]) "u1" (PStr "i1")
               (PStr "s1") (initial {[ "u1" := mkCredits 0 0 ]}) in
  snd out = Raise (SoftTimeLimitExceeded "SoftTimeLimitExceeded()")
  /\ progress_updates (trace (fst out)) = [(1, 8); (2, 8); (3, 8); (4, 8)]
  /\ credit_calls (trace (fst out)) = [("u1", 1, "paid")]
  /\ accounts (fst out) !! "u1" = Some (mkCredits 1 0).
Proof. vm_compute. auto. Qed.

(** C1.  A job that a submission route has queued was paid for with one
    credit from the bucket of the job (free for the free-tier task, paid
    for the paid-tier and the upgrade task).  If its run fails, whatever
    the exception, the soft time limit included, the task makes exactly
    one ledger call, a credit of 1 to that same bucket, re-raises the
    error of its body, and the ledger is back to what it was before the
    submission; if the run returns, the task makes no ledger call and the
    debit stands. *)
Theorem failed_job_refunds_exactly_once :
  forall (env : nat -> result pyval) (db db1 : users) (j : Admission.job),
    queued_by_route db db1 j ->
    let out := run_job env j (initial db1) in
    debited db db1 j /\
    match snd out with
    | Raise e =>
        snd (job_body env j (initial db1)) = Raise e
        /\ credit_calls (trace (fst out)) = [(job_user j, 1, job_bucket j)]
        /\ accounts (fst out) = db
    | Ok v =>
        snd (job_body env j (initial db1)) = Ok v
        /\ credit_calls (trace (fst out)) = []
        /\ accounts (fst out) = db1
    end.
Proof.
  intros env db db1 j Hadm out.
  pose proof (route_debits db db1 j Hadm) as Hdeb.
  split; [exact Hdeb|].
  destruct Hdeb as (c & Hu & Hb & ->).
  pose proof (run_job_ledger env j _ (inc_bucket (job_bucket j) (-1) c)
                (lookup_insert_eq db (job_user j) _)) as H.
  cbv zeta in H. subst out.
  destruct (snd (run_job env j _)); [exact H|].
  destruct H as (Hbody & Hcalls & ->). repeat split; auto.
  rewrite insert_insert_eq, inc_bucket_inc.
  change (-1 + 1) with 0. rewrite inc_bucket_zero. now apply insert_id.
Qed.

Lemma failed_job_refunds_exactly_once_witness :
  let env : nat -> result pyval := fun _ => Raise (SoftTimeLimitExceeded "soft limit") in
  let db : users := {[ "u1" := mkCredits 1 0 ]} in
  let db1 : users := {[ "u1" := mkCredits 0 0 ]} in
  let data := PDict [("access_level", PStr "paid"); ("slug", PStr "s");
                     ("userideasId", PStr "i"); ("problem_response", PStr "p")] in
  let j := Admission.execute_workflow_and_generate_report_job data "u1"
             (PStr "i") (PStr "s") in
  let out := run_job env j (initial db1) in
  debited db db1 j /\
  match snd out with
  | Raise e =>
      snd (job_body env j (initial db1)) = Raise e
      /\ credit_calls (trace (fst out)) = [("u1", 1, "paid")]
      /\ accounts (fst out) = db
  | Ok v =>
      snd (job_body env j (initial db1)) = Ok v
      /\ credit_calls (trace (fst out)) = []
      /\ accounts (fst out) = db1
  end.
Proof.
  intros env db db1 data j.
  apply (failed_job_refunds_exactly_once env db db1 j).
  left. exists "u1", (Ok data), (Ok "t1"),
    (Admission.submitted "t1" "Report generation task submitted").
  vm_compute. reflexivity.
Defined.

(** The progress updates of a run: all of them when it returns, an
    initial part when it raises. *)
Lemma run_job_progress env j db :
  let out := run_job env j (initial db) in
  match snd out with
  | Ok _ => progress_updates (trace (fst out)) = steps_upto (job_total j)
  | Raise _ =>
      exists mid, (mid <= job_total j)%nat /\
        progress_updates (trace (fst out)) = span (job_total j) 0 mid
  end.
Proof.
  intros out. subst out. rewrite run_job_guarded. unfold try_except.
  destruct (job_body_advances env j (initial db)) as (_ & _ & Hp).
  destruct (job_body env j (initial db)) as [w1 [v|e]]; cbn [fst snd] in *.
  - simpl in Hp. rewrite Hp. apply span_full.
  - simpl in Hp. destruct Hp as (mid & Hmid & Hp).
    unfold bind, refund.
    destruct (update_user_credits_by_type _ _ _ _) as [db' r].
    cbn [raise fst snd trace]. exists mid. split; [lia|].
    rewrite progress_updates_app, Hp. simpl. now rewrite app_nil_r.
Qed.

Lemma span_lookup total lo hi i p :
  span total lo hi !! i = Some p ->
  p = (Z.of_nat (S lo + i), Z.of_nat total).
Proof.
  unfold span. rewrite list_lookup_fmap.
  destruct (seq (S lo) (hi - lo) !! i) as [k|] eqn:Hk; [|discriminate].
  destruct (proj1 (lookup_seq _ _ _ _) Hk) as [-> _]. now intros [= <-].
Qed.

Lemma span_non_decreasing total lo hi :
  non_decreasing (map fst (span total lo hi)).
Proof.
  intros i j a b Hij Hi Hj.
  change (map fst (span total lo hi)) with (fst <$> span total lo hi) in Hi, Hj.
  rewrite list_lookup_fmap in Hi, Hj.
  destruct (span total lo hi !! i) as [p|] eqn:Hp; [|discriminate].
  destruct (span total lo hi !! j) as [q|] eqn:Hq; [|discriminate].
  apply span_lookup in Hp, Hq. subst p q. simpl in Hi, Hj.
  injection Hi as <-. injection Hj as <-. lia.
Qed.

Lemma span_constant_total total lo hi :
  Forall (fun p => snd p = Z.of_nat total) (span total lo hi).
Proof. unfold span. apply Forall_map. apply Forall_forall. auto. Qed.

Lemma steps_upto_last total :
  (0 < total)%nat ->
  last (steps_upto total) = Some (Z.of_nat total, Z.of_nat total).
Proof.
  intros H. unfold steps_upto.
  destruct total as [|n]; [lia|].
  replace (seq 1 (S n)) with (seq 1 n ++ [S n])%list.
  - rewrite map_app. simpl. now rewrite last_snoc.
  - rewrite seq_S. reflexivity.
Qed.

Lemma job_total_cases j : job_total j = 3%nat \/ job_total j = 8%nat.
Proof. destruct j; auto. Qed.

(** C8.  The progress updates a task emits are an initial part of
    [(1,total), (2,total), ..., (total,total)], with [total = 3] for the
    free-tier task and [total = 8] for the paid-tier (and the upgrade)
    task: the steps never decrease and the total is constant.  A run that
    returns has emitted all of them, the last being [(total,total)].  A
    poll of the status route shows each stored update as it was emitted,
    and shows a finished job with step equal to total as well (1 of 1). *)
Theorem progress_is_monotone :
  forall (env : nat -> result pyval) (j : Admission.job) (db : users)
         (backend : gmap string Status.task_meta) (task_id : string) (value : pyval),
    let out := run_job env j (initial db) in
    let steps := progress_updates (trace (fst out)) in
    let total := job_total j in
    total = match j with
            | Admission.generate_free_report_job _ _ _ _ => 3%nat
            | _ => 8%nat
            end /\
    (exists mid, (mid <= total)%nat /\ steps = span total 0 mid) /\
    non_decreasing (map fst steps) /\
    Forall (fun p => snd p = Z.of_nat total) steps /\
    match snd out with
    | Ok _ =>
        steps = steps_upto total /\
        last steps = Some (Z.of_nat total, Z.of_nat total)
    | Raise _ => True
    end /\
    Status.shown_progress
      (Status.workflow_task_status
         (<[task_id := Status.mkMeta "SUCCESS" value]> backend) "GET" task_id)
    = Some (1, 1) /\
    Forall (fun p =>
              forall status,
                Status.shown_progress
                  (Status.workflow_task_status
                     (Status.store_progress backend task_id (fst p) (snd p) status)
                     "GET" task_id)
                = Some p) steps.
Proof.
  intros env j db backend task_id value out steps total.
  assert (Hspan : exists mid, (mid <= total)%nat /\ steps = span total 0 mid).
  { pose proof (run_job_progress env j db) as H. cbv zeta in H.
    fold out in H. fold steps in H. fold total in H.
    destruct (snd out).
    - exists total. split; [lia|]. rewrite H. symmetry. apply span_full.
    - exact H. }
  split; [destruct j; reflexivity|].
  split; [exact Hspan|].
  destruct Hspan as (mid & Hmid & Hsteps).
  split; [rewrite Hsteps; apply span_non_decreasing|].
  split; [rewrite Hsteps; apply span_constant_total|].
  split.
  - pose proof (run_job_progress env j db) as H. cbv zeta in H.
    fold out in H. fold steps in H. fold total in H.
    destruct (snd out); [|exact I].
    split; [exact H|]. rewrite H. apply steps_upto_last.
    subst total. destruct (job_total_cases j) as [-> | ->]; lia.
  - split.
    + unfold Status.workflow_task_status, Status.AsyncResult.
      rewrite lookup_insert_eq. reflexivity.
    + apply Forall_forall. intros [current total'] _ status.
      unfold Status.workflow_task_status, Status.AsyncResult, Status.store_progress.
      rewrite lookup_insert_eq. reflexivity.
Qed.

End TaskFacts.

(** ** What the generation calls are handed *)

Section CallFacts.
Import Ledger Tasks.

Variable env : nat -> result pyval.
Variable P : string -> list pyval -> Prop.

Lemma every_call_snoc tr ev :
  every_call P tr ->
  match ev with call f args => P f args | _ => True end ->
  every_call P (tr ++ [ev]).
Proof. intros Htr Hev. apply Forall_app. split; [exact Htr|]. now constructor. Qed.

Lemma calls_only_ret {A} (a : A) : calls_only P (ret a).
Proof. intros w H. exact H. Qed.

Lemma calls_only_raise {A} e : calls_only (A := A) P (raise e).
Proof. intros w H. exact H. Qed.

Lemma calls_only_lift {A} (r : result A) : calls_only P (lift r).
Proof. intros w H. exact H. Qed.

Lemma calls_only_emit current total status :
  calls_only P (emit (update_state current total status)).
Proof. intros w H. now apply every_call_snoc. Qed.

Lemma calls_only_refund u ct : calls_only P (refund u ct).
Proof.
  intros w H. unfold refund.
  destruct (update_user_credits_by_type _ _ _ _). now apply every_call_snoc.
Qed.

Lemma calls_only_external f args : P f args -> calls_only P (external env f args).
Proof. intros Hf w H. now apply every_call_snoc. Qed.

Lemma calls_only_bind {A B} (m : task A) (k : A -> task B) :
  calls_only P m -> (forall a, calls_only P (k a)) -> calls_only P (bind m k).
Proof.
  intros Hm Hk w H. unfold bind. specialize (Hm w H).
  destruct (m w) as [w1 [a|e]]; cbn [fst] in *; [now apply Hk|exact Hm].
Qed.

(** A value read without a call is the value the rest of the body uses. *)
Lemma calls_only_bind_value {A B} (x : A) (k : A -> task B) :
  calls_only P (k x) -> calls_only P (bind (lift (Ok x)) k).
Proof. intros Hk w H. exact (Hk w H). Qed.

Lemma calls_only_try_except {A} (m : task A) (h : exn -> task A) :
  calls_only P m -> (forall e, calls_only P (h e)) -> calls_only P (try_except m h).
Proof.
  intros Hm Hh w H. unfold try_except. specialize (Hm w H).
  destruct (m w) as [w1 [a|e]]; cbn [fst] in *; [exact Hm|now apply Hh].
Qed.

Lemma calls_only_retry_loop f args delay attempts last :
  P f args -> P "time.sleep" [PInt delay] ->
  calls_only P (retry_loop env f args delay attempts last).
Proof.
  intros Hf Hs. revert last.
  induction attempts as [|n IH]; intros last; cbn [retry_loop].
  - destruct last; apply calls_only_raise.
  - apply calls_only_try_except; [now apply calls_only_external|].
    intros e. apply calls_only_bind; [now apply calls_only_external|].
    intros _. apply IH.
Qed.

Lemma calls_only_retry_operation f args :
  P f args -> P "time.sleep" [PInt 2] ->
  calls_only P (retry_operation env f args).
Proof. apply calls_only_retry_loop. Qed.

End CallFacts.

Section LocationFacts.
Import Ledger Tasks.

(** Follows a task body call by call; [side] settles what an external call
    is handed. *)
Ltac follow side :=
  repeat first
    [ apply calls_only_bind_value
    | apply calls_only_ret
    | apply calls_only_raise
    | apply calls_only_lift
    | apply calls_only_emit
    | apply calls_only_refund
    | apply calls_only_external; side
    | apply calls_only_retry_operation; side
    | apply calls_only_bind; [|intros ?]
    | apply calls_only_try_except; [|intros ?]
    | match goal with
      | |- calls_only _ (if ?b then _ else _) => destruct b
      | |- calls_only _ (match ?e with _ => _ end) => destruct e
      end ].

Ltac by_name :=
  first
    [ intros H; first [discriminate H | reflexivity]
    | split; intros H; first [discriminate H | reflexivity] ].

Lemma free_location_default v :
  truthy v = false \/ is_str v = false -> free_location v = PStr "USA".
Proof. unfold free_location. intros [-> | ->]; [reflexivity|]. now rewrite orb_true_r. Qed.

Lemma paid_location_default v :
  truthy v = false -> paid_location v = PStr "entire world".
Proof. unfold paid_location. now intros ->. Qed.

Lemma paid_location_kept v : truthy v = true -> paid_location v = v.
Proof. unfold paid_location. now intros ->. Qed.

Lemma upgrade_location_default v :
  truthy v = false -> upgrade_location v = PStr "USA".
Proof. unfold upgrade_location. now intros ->. Qed.

Lemma missing_is_falsy d :
  assoc "location" d = None -> truthy (dict_get d "location" PNone) = false.
Proof. unfold dict_get. now intros ->. Qed.

(** The free-tier task reads of [data] the idea and the location only. *)
Lemma generate_free_report_task_reads env d d' u ids slug :
  dict_get d "problem_response" PNone = dict_get d' "problem_response" PNone ->
  free_location (dict_get d "location" PNone)
  = free_location (dict_get d' "location" PNone) ->
  generate_free_report_task env (PDict d) u ids slug
  = generate_free_report_task env (PDict d') u ids slug.
Proof.
  intros Hi Hl. unfold generate_free_report_task, generate_free_report_body.
  cbn [py_get]. unfold bind, lift. cbv beta iota zeta. now rewrite Hi, Hl.
Qed.

Lemma execute_workflow_and_generate_report_task_reads env d d' u ids slug :
  dict_get d "problem_response" PNone = dict_get d' "problem_response" PNone ->
  paid_location (dict_get d "location" PNone)
  = paid_location (dict_get d' "location" PNone) ->
  execute_workflow_and_generate_report_task env (PDict d) u ids slug
  = execute_workflow_and_generate_report_task env (PDict d') u ids slug.
Proof.
  intros Hi Hl.
  unfold execute_workflow_and_generate_report_task,
    execute_workflow_and_generate_report_body.
  cbn [py_get]. unfold bind, lift. cbv beta iota zeta. now rewrite Hi, Hl.
Qed.

Lemma upgrade_report_to_paid_task_reads env data u ids rid pr l l' :
  upgrade_location l = upgrade_location l' ->
  upgrade_report_to_paid_task env data u ids rid pr l
  = upgrade_report_to_paid_task env data u ids rid pr l'.
Proof.
  intros Hl. unfold upgrade_report_to_paid_task, upgrade_report_to_paid_body.
  cbv zeta. now rewrite Hl.
Qed.

(** C10, refuted as stated: a paid-tier request whose location is the
    number 42 is not processed as one naming ['entire world']; the number
    is what generation receives. *)
Lemma paid_location_not_defaulted : ~ paid_location_claim.
Proof.
  intros H.
  specialize (H (fun _ => Ok PNone)
                [("problem_response", PStr "an idea"); ("location", PInt 42)]
                "u1" (PStr "i1") (PStr "s1") (initial ∅)
                (or_intror eq_refl)).
  apply (f_equal (fun out => calls_of "get_required_evaluation_headings"
                               (trace (fst out)))) in H.
  vm_compute in H. discriminate H.
Qed.

(** What generation receives in that run. *)
Example paid_location_number_passed_on :
  calls_of "get_required_evaluation_headings"
    (trace (fst (execute_workflow_and_generate_report_task (fun _ => Ok PNone)
                   (PDict [("problem_response", PStr "an idea"); ("location", PInt 42)])
                   "u1" (PStr "i1") (PStr "s1") (initial ∅))))
  = [[PStr "an idea"; PInt 42]].
Proof. vm_compute. reflexivity. Qed.

Lemma generate_free_report_task_calls env d u ids slug :
  calls_only
    (free_generation_gets (dict_get d "problem_response" PNone)
       (free_location (dict_get d "location" PNone)))
    (generate_free_report_task env (PDict d) u ids slug).
Proof.
  unfold generate_free_report_task, generate_free_report_body,
    free_generation_gets.
  cbn [py_get]. follow by_name.
Qed.

Lemma execute_workflow_and_generate_report_task_calls env d u ids slug :
  calls_only
    (generation_gets (dict_get d "problem_response" PNone) u ids
       (paid_location (dict_get d "location" PNone)))
    (execute_workflow_and_generate_report_task env (PDict d) u ids slug).
Proof.
  unfold execute_workflow_and_generate_report_task,
    execute_workflow_and_generate_report_body, generation_gets.
  cbn [py_get]. cbv zeta. follow by_name.
Qed.

Lemma upgrade_report_to_paid_task_calls env data u ids rid pr location :
  calls_only (generation_gets pr u ids (upgrade_location location))
    (upgrade_report_to_paid_task env data u ids rid pr location).
Proof.
  unfold upgrade_report_to_paid_task, upgrade_report_to_paid_body,
    generation_gets.
  cbv zeta. follow by_name.
Qed.

(** C10, as the code has it.  Whatever the environment, a request is
    processed exactly as the request that names the default explicitly,
    and the default is what the generation calls are handed: ['USA'] in the
    free-tier task when the location is missing, falsy or not a string;
    ['entire world'] in the paid-tier task when the location is missing or
    falsy, while a truthy location, string or not, is handed on as it is;
    ['USA'] in the upgrade task when the location is falsy. *)
Theorem location_defaults :
  forall (env : nat -> result pyval) (d : list (string * pyval))
         (data : pyval) (current_user : string)
         (userIdeasId slug report_id problem_response location : pyval),
    let given := dict_get d "location" PNone in
    let idea := dict_get d "problem_response" PNone in
    (assoc "location" d = None \/ truthy given = false \/ is_str given = false ->
     generate_free_report_task env (PDict d) current_user userIdeasId slug
     = generate_free_report_task env (PDict (with_location (PStr "USA") d))
         current_user userIdeasId slug
     /\ calls_only (free_generation_gets idea (PStr "USA"))
          (generate_free_report_task env (PDict d) current_user userIdeasId slug))
    /\ (assoc "location" d = None \/ truthy given = false ->
        execute_workflow_and_generate_report_task env (PDict d) current_user
          userIdeasId slug
        = execute_workflow_and_generate_report_task env
            (PDict (with_location (PStr "entire world") d)) current_user
            userIdeasId slug
        /\ calls_only
             (generation_gets idea current_user userIdeasId (PStr "entire world"))
             (execute_workflow_and_generate_report_task env (PDict d) current_user
                userIdeasId slug))
    /\ (truthy given = true ->
        calls_only (generation_gets idea current_user userIdeasId given)
          (execute_workflow_and_generate_report_task env (PDict d) current_user
             userIdeasId slug))
    /\ (truthy location = false ->
        upgrade_report_to_paid_task env data current_user userIdeasId report_id
          problem_response location
        = upgrade_report_to_paid_task env data current_user userIdeasId report_id
            problem_response (PStr "USA")
        /\ calls_only
             (generation_gets problem_response current_user userIdeasId (PStr "USA"))
             (upgrade_report_to_paid_task env data current_user userIdeasId
                report_id problem_response location)).
Proof.
  intros env d data u ids slug rid pr location given idea. subst given idea.
  split; [|split; [|split]].
  - intros H.
    assert (Hd : free_location (dict_get d "location" PNone) = PStr "USA").
    { apply free_location_default.
      destruct H as [H | [H | H]]; auto using missing_is_falsy. }
    split.
    + apply generate_free_report_task_reads; [reflexivity|].
      now rewrite Hd.
    + rewrite <- Hd. apply generate_free_report_task_calls.
  - intros H.
    assert (Hd : paid_location (dict_get d "location" PNone) = PStr "entire world").
    { apply paid_location_default. destruct H as [H | H]; auto using missing_is_falsy. }
    split.
    + apply execute_workflow_and_generate_report_task_reads; [reflexivity|].
      now rewrite Hd.
    + rewrite <- Hd. apply execute_workflow_and_generate_report_task_calls.
  - intros H. pose proof (execute_workflow_and_generate_report_task_calls env d u ids slug) as Hc.
    now rewrite (paid_location_kept _ H) in Hc.
  - intros H. split.
    + apply upgrade_report_to_paid_task_reads. now rewrite upgrade_location_default.
    + rewrite <- (upgrade_location_default _ H).
      apply upgrade_report_to_paid_task_calls.
Qed.

End LocationFacts.

(** ** The status route *)

Section StatusFacts.
Import Status.

Lemma status_unknown backend task_id :
  backend !! task_id = None ->
  workflow_task_status backend "GET" task_id = pending_reply.
Proof.
  intros H. unfold workflow_task_status, AsyncResult. rewrite H. reflexivity.
Qed.

(** C9, refuted as stated: the poll for an id the backend has never seen
    is answered with status 200 and no error entry. *)
Lemma unknown_id_is_not_an_error : ~ unknown_id_is_error.
Proof.
  intros H. specialize (H ∅ "no-such-task" (lookup_empty _)).
  vm_compute in H. discriminate H.
Qed.

(** C9, as the code has it.  The poll for an unknown id is answered like
    the poll for a known job that is still pending: status 200, state
    [PENDING], empty progress, no error.  That answer differs from the
    answer for any job in a terminal state ([SUCCESS] or [FAILURE]). *)
Theorem unknown_id_reads_as_pending :
  forall (backend : gmap string task_meta) (task_id : string),
    backend !! task_id = None ->
    workflow_task_status backend "GET" task_id = pending_reply
    /\ is_error_reply (workflow_task_status backend "GET" task_id) = false
    /\ (forall backend' task_id' value,
          backend' !! task_id' = Some (mkMeta "PENDING" value) ->
          workflow_task_status backend' "GET" task_id'
          = workflow_task_status backend "GET" task_id)
    /\ (forall backend' task_id' m,
          backend' !! task_id' = Some m ->
          state m = "SUCCESS" \/ state m = "FAILURE" ->
          workflow_task_status backend' "GET" task_id'
          <> workflow_task_status backend "GET" task_id).
Proof.
  intros backend task_id H. rewrite (status_unknown _ _ H).
  split; [reflexivity|]. split; [reflexivity|]. split.
  - intros backend' task_id' value H'.
    unfold workflow_task_status, AsyncResult. rewrite H'. reflexivity.
  - intros backend' task_id' m H' Hm.
    unfold workflow_task_status, AsyncResult. rewrite H'.
    destruct Hm as [-> | ->]; simpl; discriminate.
Qed.

Lemma unknown_id_reads_as_pending_witness :
  workflow_task_status ∅ "GET" "no-such-task" = pending_reply
  /\ is_error_reply (workflow_task_status ∅ "GET" "no-such-task") = false
  /\ (forall backend' task_id' value,
        backend' !! task_id' = Some (mkMeta "PENDING" value) ->
        workflow_task_status backend' "GET" task_id'
        = workflow_task_status ∅ "GET" "no-such-task")
  /\ (forall backend' task_id' m,
        backend' !! task_id' = Some m ->
        state m = "SUCCESS" \/ state m = "FAILURE" ->
        workflow_task_status backend' "GET" task_id'
        <> workflow_task_status ∅ "GET" "no-such-task").
Proof.
  apply (unknown_id_reads_as_pending ∅ "no-such-task"). apply lookup_empty.
Defined.

End StatusFacts.

(** ** The currency helper *)

Section CurrencyFacts.
Import Currency.

Lemma fullmatch_code_spec s :
  fullmatch_code s = true <->
  exists a b c,
    s = String a (String b (String c EmptyString)) /\
    is_upper_letter a = true /\ is_upper_letter b = true /\
    is_upper_letter c = true.
Proof.
  split.
  - destruct s as [|a [|b [|c [|]]]]; simpl; try discriminate.
    intros H. apply andb_true_iff in H as [H Hc].
    apply andb_true_iff in H as [Ha Hb]. exists a, b, c. auto.
  - intros (a & b & c & -> & Ha & Hb & Hc). simpl. now rewrite Ha, Hb, Hc.
Qed.

Example currency_accepts_padded_lowercase :
  get_currency_via_llm ascii_strip ascii_upper "Germany"
    (fun _ => Ok (Some (" eur" +:+ String (ascii_of_nat 10) EmptyString)))
  = "EUR".
Proof. reflexivity. Qed.

Example currency_rejects_a_word :
  get_currency_via_llm ascii_strip ascii_upper "Germany" (fun _ => Ok (Some "Euro"))
  = "USD".
Proof. reflexivity. Qed.

(** C6.  Whatever the completion call does, [get_currency_via_llm] returns
    a value and that value matches [^[A-Z]{3}$]: it is
    [upper(strip(s))] when the call produced the string [s] and this
    matches, and ['USD'] in every other case, the raising call
    included. *)
Theorem get_currency_via_llm_validated :
  forall (strip upper : string -> string) (location_name : string)
         (completion : string -> result (option string)),
    let code := get_currency_via_llm strip upper location_name completion in
    fullmatch_code code = true /\
    match completion (currency_prompt location_name) with
    | Ok (Some s) =>
        code = if fullmatch_code (upper (strip s)) then upper (strip s) else "USD"
    | Ok None => code = "USD"
    | Raise _ => code = "USD"
    end.
Proof.
  intros strip upper location_name completion code. subst code.
  unfold get_currency_via_llm.
  destruct (completion (currency_prompt location_name)) as [[s|]|e];
    try (split; reflexivity).
  destruct (fullmatch_code (upper (strip s))) eqn:Hm; split; auto.
Qed.

End CurrencyFacts.

(** ** The fan-out generator *)

Section FanoutFacts.
Import Fanout.

Variable generate : string -> string -> string -> string -> string -> result string.
Variables idea location currency_code overall_summary : string.

Let fill := collect generate idea location currency_code overall_summary.
Let content name := slot generate name idea location currency_code overall_summary.

(** After the loop, a finished task's slot holds its content or its
    placeholder; every other key is as before. *)
Lemma collect_lookup (completed : list string) (results : gmap string string)
    (name : string) :
  fill results completed !! name
  = if decide (name ∈ completed) then Some (content name) else results !! name.
Proof.
  subst fill content. unfold collect.
  revert results. induction completed as [|t rest IH]; intros results.
  - simpl. destruct (decide (name ∈ [])) as [H|H]; [|reflexivity].
    now apply elem_of_nil in H.
  - cbn [fold_left]. rewrite IH.
    destruct (decide (name ∈ rest)) as [Hin|Hout].
    + rewrite decide_True by (now apply elem_of_cons; right). reflexivity.
    + destruct (decide (name = t)) as [->|Hne].
      * rewrite decide_True by (now apply elem_of_cons; left).
        now rewrite lookup_insert_eq.
      * rewrite decide_False by (intros [?|?]%elem_of_cons; congruence).
        now rewrite lookup_insert_ne by congruence.
Qed.

Lemma collect_dom (completed : list string) (results : gmap string string) :
  dom (fill results completed) = dom results ∪ list_to_set completed.
Proof.
  apply set_eq. intros name.
  rewrite elem_of_dom, collect_lookup, elem_of_union, elem_of_dom,
    elem_of_list_to_set.
  destruct (decide (name ∈ completed)) as [H|H].
  - split; [auto | intros _; eexists; reflexivity].
  - split; [auto | intros [?|?]; [assumption | contradiction]].
Qed.

End FanoutFacts.

Section FanoutReport.
Import Fanout.

Lemma report_section_tasks_NoDup : NoDup report_section_tasks.
Proof. apply (bool_decide_unpack _). vm_compute. exact I. Qed.

Lemma overall_not_a_section : "overall_context_summary" ∉ report_section_tasks.
Proof. apply (bool_decide_unpack _). vm_compute. exact I. Qed.

(** C4.  Whichever section generators raise and in whatever order the
    futures finish, once the overall summary is there the report function
    returns, and its result has exactly 23 entries: the overall summary
    and, for each of the 22 section tasks, the generated content or, where
    the generator raised, the text
    ['Error generating <section_name>: <message>']. *)
Theorem failed_sections_are_isolated :
  forall (strip upper : string -> string)
         (completion : string -> result (option string))
         (generate_overall_context_summary : string -> string -> result string)
         (generate : string -> string -> string -> string -> string -> result string)
         (idea current_user location file_path overall : string)
         (completed : list string),
    completed ≡ₚ report_section_tasks ->
    generate_overall_context_summary idea location = Ok overall ->
    let currency := Currency.get_currency_via_llm strip upper location completion in
    exists results : gmap string string,
      generate_full_final_parallel_executed_report strip upper completion
        generate_overall_context_summary generate idea current_user location
        file_path completed
      = Ok results
      /\ length report_section_tasks = 22%nat
      /\ size results = 23%nat
      /\ results !! "overall_context_summary" = Some overall
      /\ forall name, name ∈ report_section_tasks ->
           results !! name
           = Some match generate name idea location currency overall with
                  | Ok content => content
                  | Raise e => "Error generating " +:+ name +:+ ": " +:+ str_exn e
                  end.
Proof.
  intros strip upper completion summary generate idea current_user location
    file_path overall completed Hperm Hsum currency.
  unfold generate_full_final_parallel_executed_report. rewrite Hsum.
  fold currency. eexists. split; [reflexivity|].
  split; [reflexivity|]. split; [|split].
  - rewrite <- size_dom, collect_dom, dom_singleton_L.
    rewrite (list_to_set_perm_L _ _ Hperm).
    rewrite size_union.
    + rewrite size_singleton, size_list_to_set by apply report_section_tasks_NoDup.
      reflexivity.
    + apply disjoint_singleton_l. rewrite elem_of_list_to_set.
      apply overall_not_a_section.
  - rewrite collect_lookup.
    rewrite decide_False; [apply lookup_singleton_eq|].
    rewrite Hperm. apply overall_not_a_section.
  - intros name Hin. rewrite collect_lookup.
    rewrite decide_True by (now rewrite Hperm). reflexivity.
Qed.

Lemma failed_sections_are_isolated_witness :
  let generate := fun name (_ _ _ _ : string) =>
    if String.eqb name "slogan" then Raise (Exception "rate limited")
    else Ok ("# " +:+ name) in
  exists results : gmap string string,
    generate_full_final_parallel_executed_report Currency.ascii_strip
      Currency.ascii_upper (fun _ => Ok (Some "eur")) (fun _ _ => Ok "summary")
      generate "idea" "u1" "Germany" "user_cache/u1/u1-i1.json"
      (rev report_section_tasks)
    = Ok results
    /\ length report_section_tasks = 22%nat
    /\ size results = 23%nat
    /\ results !! "overall_context_summary" = Some "summary"
    /\ forall name, name ∈ report_section_tasks ->
         results !! name
         = Some match generate name "idea" "Germany"
                        (Currency.get_currency_via_llm Currency.ascii_strip
                           Currency.ascii_upper "Germany" (fun _ => Ok (Some "eur")))
                        "summary" with
                | Ok content => content
                | Raise e => "Error generating " +:+ name +:+ ": " +:+ str_exn e
                end.
Proof.
  intros generate.
  apply (failed_sections_are_isolated Currency.ascii_strip Currency.ascii_upper
           (fun _ => Ok (Some "eur")) (fun _ _ => Ok "summary") generate
           "idea" "u1" "Germany" "user_cache/u1/u1-i1.json" "summary"
           (rev report_section_tasks)).
  - symmetry. apply Permutation_rev.
  - reflexivity.
Defined.

Example failed_slot_holds_placeholder :
  match generate_full_final_parallel_executed_report Currency.ascii_strip
          Currency.ascii_upper (fun _ => Ok (Some "eur")) (fun _ _ => Ok "summary")
          (fun name _ _ _ _ =>
             if String.eqb name "slogan" then Raise (Exception "rate limited")
             else Ok ("# " +:+ name))
          "idea" "u1" "Germany" "user_cache/u1/u1-i1.json"
          (rev report_section_tasks) with
  | Ok results =>
      results !! "slogan" = Some "Error generating slogan: rate limited"
      /\ results !! "mvp" = Some "# mvp"
  | Raise _ => False
  end.
Proof.
  unfold generate_full_final_parallel_executed_report. cbv beta iota zeta.
  rewrite !collect_lookup. split; reflexivity.
Qed.

End FanoutReport.

(** ** The retrieval index cache *)

Section IndexCacheFacts.
Import IndexCache.

Variable vector : Type.
Variable sha256 : blob vector -> string.
Variable strip : string -> string.
Variable parse_documents : blob vector -> list string.
Variable split_documents : list string -> list string.
Variable embed_query : string -> result vector.

Abbreviation rebuild := (rebuild_faiss_index vector sha256 parse_documents
                       split_documents embed_query).
Abbreviation rebuild_cache := (rebuild_and_cache vector sha256 parse_documents
                             split_documents embed_query).
Abbreviation init := (initialize_retriever vector sha256 strip parse_documents
                    split_documents embed_query).
Abbreviation check := (check_file_for_changes vector sha256 strip).
Abbreviation rebuilt := (count RebuiltAndSaved).

Lemma count_app m (l l' : list message) :
  count m (l ++ l') = (count m l + count m l')%nat.
Proof. unfold count. now rewrite List.filter_app, length_app. Qed.

(** One failing chunk makes the whole embedding step fail. *)
Lemma embed_all_raises texts c e :
  In c texts -> embed_query c = Raise e ->
  exists e', embed_all vector embed_query texts = Raise e'.
Proof.
  induction texts as [|t rest IH]; intros Hin Hc; [destruct Hin|].
  cbn [embed_all]. destruct (embed_query t) as [v|e0] eqn:Ht; [|eauto].
  destruct Hin as [->|Hin]; [congruence|].
  destruct (IH Hin Hc) as [e' ->]. eauto.
Qed.

Lemma embed_all_ok texts :
  Forall (fun c => is_ok (embed_query c) = true) texts ->
  exists vs, embed_all vector embed_query texts = Ok vs
             /\ Forall2 (fun c v => embed_query c = Ok v) texts vs.
Proof.
  induction 1 as [|t rest Ht _ IH]; [exists []; split; [reflexivity|constructor]|].
  cbn [embed_all]. destruct (embed_query t) as [v|e] eqn:Hv; [|discriminate].
  destruct IH as (vs & -> & Hvs). exists (v :: vs). split; [reflexivity|].
  now constructor.
Qed.

(** A rebuild reports success at most once, and only with an index. *)
Lemma rebuild_log st user_id file_path index_name :
  let out := rebuild st user_id file_path index_name in
  (rebuilt (log (fst out)) <= rebuilt (log st) + 1)%nat /\
  (snd out = None -> rebuilt (log (fst out)) = rebuilt (log st)) /\
  FAISS_INDEX_CACHE (fst out) = FAISS_INDEX_CACHE st.
Proof.
  cbv zeta. unfold rebuild_faiss_index.
  destruct (negb (blob_exists vector st file_path)); [simpl; auto with lia|].
  destruct (preprocess_json vector parse_documents st file_path) as [|d ds];
    [simpl; auto with lia|].
  destruct (split_documents (d :: ds)) as [|c cs]; [simpl; auto with lia|].
  destruct (embed_all vector embed_query (c :: cs)) as [vs|e].
  - cbn [fst snd log upload_blob_data print FAISS_INDEX_CACHE].
    rewrite count_app. change (rebuilt [RebuiltAndSaved]) with 1%nat.
    split; [lia|]. split; [discriminate|reflexivity].
  - cbn [fst snd log print FAISS_INDEX_CACHE]. rewrite count_app.
    change (rebuilt [ErrorBuilding]) with 0%nat.
    split; [lia|]. split; [intros _; lia|reflexivity].
Qed.

Lemma check_log st file_path user_id :
  log (fst (check st file_path user_id)) = log st /\
  FAISS_INDEX_CACHE (fst (check st file_path user_id)) = FAISS_INDEX_CACHE st.
Proof.
  unfold check_file_for_changes.
  destruct (blob_exists vector st _); [|split; reflexivity].
  destruct (download_blob_data vector st _) as [b|e]; [|split; reflexivity].
  destruct (decode vector b) as [text|e]; [|split; reflexivity].
  destruct (String.eqb _ _); split; reflexivity.
Qed.

(** The tail of [initialize_retriever]: at most one success, and an index
    that is returned is cached. *)
Lemma rebuild_and_cache_spec st user_id file_path :
  let out := rebuild_cache st user_id file_path in
  (rebuilt (log (fst out)) <= rebuilt (log st) + 1)%nat /\
  match snd out with
  | Ok (Some ix) =>
      FAISS_INDEX_CACHE (fst out) !! blob_index_name user_id file_path = Some ix
  | Ok None => rebuilt (log (fst out)) = rebuilt (log st)
  | Raise _ => False
  end /\
  exists tail, log (fst out) = (log st ++ Rebuilding :: tail)%list
               /\ ~ In LoadingFromBlob tail /\ ~ In UsingCachedIndex tail.
Proof.
  cbv zeta. unfold rebuild_and_cache.
  pose proof (rebuild_log (print vector st Rebuilding) user_id file_path
                (blob_index_name user_id file_path)) as (H1 & H2 & _).
  assert (Htail : exists tail,
             log (fst (rebuild (print vector st Rebuilding) user_id file_path
                         (blob_index_name user_id file_path)))
             = (log st ++ Rebuilding :: tail)%list
             /\ ~ In LoadingFromBlob tail /\ ~ In UsingCachedIndex tail).
  { unfold rebuild_faiss_index.
    destruct (negb (blob_exists vector _ file_path));
      [exists []; simpl; auto|].
    destruct (preprocess_json vector parse_documents _ file_path) as [|d ds];
      [exists []; simpl; auto|].
    destruct (split_documents (d :: ds)) as [|c cs]; [exists []; simpl; auto|].
    destruct (embed_all vector embed_query (c :: cs)) as [vs|e].
    - exists [RebuiltAndSaved].
      cbn [fst log upload_blob_data print]. rewrite <- app_assoc.
      split; [reflexivity|]. split; intros [|[]]; discriminate.
    - exists [ErrorBuilding].
      cbn [fst log print]. rewrite <- app_assoc.
      split; [reflexivity|]. split; intros [|[]]; discriminate. }
  cbn [log print] in H1, H2. rewrite count_app in H1, H2.
  change (rebuilt [Rebuilding]) with 0%nat in H1, H2.
  rewrite Nat.add_0_r in H1, H2.
  destruct (rebuild (print vector st Rebuilding) user_id file_path
              (blob_index_name user_id file_path)) as [st' [ix|]];
    cbn [fst snd cache_store log FAISS_INDEX_CACHE] in *.
  - split; [exact H1|]. split; [apply lookup_insert_eq|exact Htail].
  - split; [exact H1|]. split; [now apply H2|exact Htail].
Qed.

Lemma count_print m st :
  rebuilt (log (print vector st m))
  = (rebuilt (log st) + rebuilt [m])%nat.
Proof. cbn [print log]. apply count_app. Qed.

(** A cached index is returned as it is: no fingerprint, no rebuild. *)
Lemma init_cached st user_id file_path ix :
  FAISS_INDEX_CACHE st !! blob_index_name user_id file_path = Some ix ->
  init st user_id file_path = (print vector st UsingCachedIndex, Ok (Some ix)).
Proof. intros H. unfold initialize_retriever. now rewrite H. Qed.

(** One call: at most one successful rebuild, and a returned index is in
    the in-process cache afterwards. *)
Lemma init_spec st user_id file_path :
  let out := init st user_id file_path in
  (rebuilt (log (fst out)) <= rebuilt (log st) + 1)%nat /\
  match snd out with
  | Ok (Some ix) =>
      FAISS_INDEX_CACHE (fst out) !! blob_index_name user_id file_path = Some ix
  | _ => rebuilt (log (fst out)) = rebuilt (log st)
  end.
Proof.
  cbv zeta. unfold initialize_retriever.
  destruct (FAISS_INDEX_CACHE st !! blob_index_name user_id file_path)
    as [ix|] eqn:Hc.
  - cbn [fst snd]. rewrite count_print.
    change (rebuilt [UsingCachedIndex]) with 0%nat. split; [lia|exact Hc].
  - destruct (check_log st file_path user_id) as (Hl & _).
    destruct (check st file_path user_id) as [st1 [changed|e]];
      cbn [fst snd] in *; [|rewrite Hl; split; [lia|reflexivity]].
    assert (Htail : forall st2,
               rebuilt (log st2) = rebuilt (log st) ->
               let out := rebuild_cache st2 user_id file_path in
               (rebuilt (log (fst out)) <= rebuilt (log st) + 1)%nat /\
               match snd out with
               | Ok (Some ix) =>
                   FAISS_INDEX_CACHE (fst out) !! blob_index_name user_id file_path
                   = Some ix
               | _ => rebuilt (log (fst out)) = rebuilt (log st)
               end).
    { intros st2 H2.
      destruct (rebuild_and_cache_spec st2 user_id file_path) as (H1 & Hr & _).
      cbv zeta. rewrite <- H2. split; [exact H1|].
      destruct (snd (rebuild_cache st2 user_id file_path)) as [[ix|]|e];
        [exact Hr | exact Hr | destruct Hr]. }
    destruct changed; [apply Htail; now rewrite Hl|].
    destruct (blob_exists vector st1 _); [|apply Htail; now rewrite Hl].
    destruct (download_blob_data vector _ _) as [b|e].
    + destruct (load_local vector b) as [ix|e].
      * cbn [fst snd cache_store log FAISS_INDEX_CACHE].
        rewrite count_print, Hl.
        change (rebuilt [LoadingFromBlob]) with 0%nat.
        split; [lia|apply lookup_insert_eq].
      * apply Htail. rewrite !count_print, Hl.
        change (rebuilt [LoadingFromBlob]) with 0%nat.
        change (rebuilt [ErrorLoading]) with 0%nat. lia.
    + apply Htail. rewrite !count_print, Hl.
        change (rebuilt [LoadingFromBlob]) with 0%nat.
        change (rebuilt [ErrorLoading]) with 0%nat. lia.
Qed.

(** A marker that differs from the fresh fingerprint makes the check
    report a change and store the fresh fingerprint. *)
Lemma check_changed st file_path user_id marker :
  blobs st !! blob_hash_name user_id file_path = Some (Bytes marker) ->
  compute_file_hash vector sha256 st file_path <> strip marker ->
  check st file_path user_id
  = (upload_blob_data vector st (blob_hash_name user_id file_path)
       (Bytes (compute_file_hash vector sha256 st file_path)), Ok true).
Proof.
  intros Hm Hne. unfold check_file_for_changes, blob_exists, download_blob_data.
  rewrite Hm. cbn [decode].
  destruct (String.eqb_spec (compute_file_hash vector sha256 st file_path)
              (strip marker)); [contradiction|reflexivity].
Qed.

Lemma check_unchanged st file_path user_id marker :
  blobs st !! blob_hash_name user_id file_path = Some (Bytes marker) ->
  compute_file_hash vector sha256 st file_path = strip marker ->
  check st file_path user_id = (st, Ok false).
Proof.
  intros Hm He. unfold check_file_for_changes, blob_exists, download_blob_data.
  rewrite Hm. cbn [decode]. rewrite He, String.eqb_refl. reflexivity.
Qed.

(** C5, as the code has it.  Of two calls in a row for the same user and
    file at most one rebuilds the index, and when the first returns an
    index the second is answered from [FAISS_INDEX_CACHE] without any
    rebuild.  Without a cache entry, a stored marker equal to the fresh
    fingerprint makes the call load the persisted index, and a marker that
    differs makes it rebuild rather than load.  With a cache entry the
    cached index is returned whatever the artifact holds by now. *)
Theorem index_reuse_and_rebuild :
  forall (st : state vector) (user_id file_path : string),
    let name := blob_index_name user_id file_path in
    let first := init st user_id file_path in
    let second := init (fst first) user_id file_path in
    (rebuilt (log (fst second)) <= rebuilt (log st) + 1)%nat
    /\ (forall ix, snd first = Ok (Some ix) ->
          second = (print vector (fst first) UsingCachedIndex, Ok (Some ix)))
    /\ (forall ix, FAISS_INDEX_CACHE st !! name = Some ix ->
          first = (print vector st UsingCachedIndex, Ok (Some ix)))
    /\ (forall ix marker,
          FAISS_INDEX_CACHE st !! name = None ->
          blobs st !! blob_hash_name user_id file_path = Some (Bytes marker) ->
          compute_file_hash vector sha256 st file_path = strip marker ->
          blobs st !! name = Some (Zip ix) ->
          first = (cache_store vector (print vector st LoadingFromBlob) name ix,
                   Ok (Some ix)))
    /\ (forall marker,
          FAISS_INDEX_CACHE st !! name = None ->
          blobs st !! blob_hash_name user_id file_path = Some (Bytes marker) ->
          compute_file_hash vector sha256 st file_path <> strip marker ->
          exists tail,
            log (fst first) = (log st ++ Rebuilding :: tail)%list
            /\ ~ In LoadingFromBlob tail /\ ~ In UsingCachedIndex tail).
Proof.
  intros st user_id file_path name first second.
  assert (Hsecond : forall ix, snd first = Ok (Some ix) ->
            second = (print vector (fst first) UsingCachedIndex, Ok (Some ix))).
  { intros ix Hix. subst second. apply init_cached.
    pose proof (init_spec st user_id file_path) as (_ & H).
    cbv zeta in H. fold first in H. now rewrite Hix in H. }
  split; [|split; [exact Hsecond|split; [|split]]].
  - pose proof (init_spec st user_id file_path) as (H1 & H2).
    cbv zeta in H1, H2. fold first in H1, H2.
    destruct (snd first) as [[ix|]|e] eqn:Hr.
    + rewrite (Hsecond ix eq_refl). cbn [fst]. rewrite count_print.
      change (rebuilt [UsingCachedIndex]) with 0%nat. lia.
    + pose proof (init_spec (fst first) user_id file_path) as (H3 & _).
      cbv zeta in H3. fold second in H3. lia.
    + pose proof (init_spec (fst first) user_id file_path) as (H3 & _).
      cbv zeta in H3. fold second in H3. lia.
  - intros ix Hc. now apply init_cached.
  - intros ix marker Hc Hm He Hz. subst first. unfold initialize_retriever.
    fold name. rewrite Hc, (check_unchanged st file_path user_id marker Hm He).
    unfold blob_exists, download_blob_data. cbn [print blobs]. rewrite Hz.
    reflexivity.
  - intros marker Hc Hm Hne. subst first. unfold initialize_retriever.
    fold name. rewrite Hc, (check_changed st file_path user_id marker Hm Hne).
    destruct (rebuild_and_cache_spec
                (upload_blob_data vector st (blob_hash_name user_id file_path)
                   (Bytes (compute_file_hash vector sha256 st file_path)))
                user_id file_path) as (_ & _ & Htail).
    exact Htail.
Qed.

(** C7, as the code has it.  When the embedding of any chunk fails, the
    rebuild builds and uploads nothing and returns no index; only when
    every chunk is embedded does it return an index, and that index is
    over all the chunks. *)
Theorem failed_embedding_fails_rebuild :
  forall (st : state vector) (user_id file_path index_name : string)
         (b : blob vector),
    blobs st !! file_path = Some b ->
    parse_documents b <> [] ->
    split_documents (parse_documents b) <> [] ->
    let chunked := split_documents (parse_documents b) in
    let out := rebuild st user_id file_path index_name in
    ((exists c e, In c chunked /\ embed_query c = Raise e) ->
     snd out = None /\ blobs (fst out) = blobs st
     /\ FAISS_INDEX_CACHE (fst out) = FAISS_INDEX_CACHE st)
    /\ (Forall (fun c => is_ok (embed_query c) = true) chunked ->
        exists vs,
          snd out = Some (mkIndex vs chunked)
          /\ Forall2 (fun c v => embed_query c = Ok v) chunked vs
          /\ blobs (fst out) !! blob_hash_name user_id file_path
             = Some (Bytes (sha256 b))
          /\ (index_name <> blob_hash_name user_id file_path ->
              blobs (fst out) !! index_name = Some (Zip (mkIndex vs chunked)))).
Proof.
  intros st user_id file_path index_name b Hb Hdocs Hchunks chunked out.
  subst out. unfold rebuild_faiss_index, blob_exists, preprocess_json,
    compute_file_hash, download_blob_data.
  rewrite Hb. cbn [negb].
  destruct (parse_documents b) as [|d ds] eqn:Hp; [contradiction|].
  fold chunked.
  destruct chunked as [|c cs] eqn:Hc; [contradiction|].
  split.
  - intros (c' & e & Hin & He).
    destruct (embed_all_raises (c :: cs) c' e Hin He) as [e' ->].
    auto.
  - intros Hall. destruct (embed_all_ok (c :: cs) Hall) as (vs & -> & Hvs).
    exists vs. cbn [fst snd upload_blob_data print blobs].
    split; [reflexivity|]. split; [exact Hvs|]. split.
    + apply lookup_insert_eq.
    + intros Hne. rewrite lookup_insert_ne by congruence.
      apply lookup_insert_eq.
Qed.

End IndexCacheFacts.

Section IndexCacheExamples.
Import IndexCache.

Example blob_base_of_job_artifact :
  get_blob_file_base "u1" "user_cache/u1/u1-i1.json" = "u1-i1"
  /\ blob_index_name "u1" "user_cache/u1/u1-i1.json"
     = "user_cache/u1/faiss_index_u1-i1.zip"
  /\ blob_hash_name "u1" "user_cache/u1/u1-i1.json"
     = "user_cache/u1/u1-i1_data_hash.txt".
Proof. repeat split; reflexivity. Qed.

Example blob_base_of_other_names :
  get_blob_file_base "u1" "notes.txt" = "u1-notes"
  /\ get_blob_file_base "u1" "dir/.hidden" = "u1-.hidden"
  /\ get_blob_file_base "u1" "a/b/archive.tar.gz" = "u1-archive.tar"
  /\ get_blob_file_base "u1" "u1-x.txt" = "u1-u1-x".
Proof. repeat split; reflexivity. Qed.

(** C5, refuted as stated: the marker differs from the fingerprint of the
    artifact, yet the call is answered from [FAISS_INDEX_CACHE] and nothing
    is rebuilt. *)
Lemma stale_cache_serves_changed_artifact : ~ changed_artifact_rebuilds.
Proof.
  intros H.
  specialize (H nat toy_sha256 Currency.ascii_strip toy_parse toy_split toy_embed
                (mkState {[ blob_index_name "u1" artifact := mkIndex [3%nat] ["old"] ]}
                   {[ artifact := Bytes "new";
                      blob_hash_name "u1" artifact := Bytes "h(old)" ]} [])
                "u1" artifact "h(old)").
  assert (H' := H ltac:(vm_compute; reflexivity) ltac:(vm_compute; discriminate)).
  vm_compute in H'. destruct H' as [H'|[]]. discriminate H'.
Qed.

Lemma index_reuse_and_rebuild_witness :
  let st : state nat :=
    mkState ∅ {[ artifact := Bytes "new";
                 blob_hash_name "u1" artifact := Bytes "h(old)" ]} [] in
  exists tail,
    log (fst (initialize_retriever nat toy_sha256 Currency.ascii_strip toy_parse
                toy_split toy_embed st "u1" artifact))
    = Rebuilding :: tail
    /\ ~ In LoadingFromBlob tail /\ ~ In UsingCachedIndex tail.
Proof.
  intros st.
  apply (proj2 (proj2 (proj2 (proj2
           (index_reuse_and_rebuild nat toy_sha256 Currency.ascii_strip toy_parse
              toy_split toy_embed st "u1" artifact)))) "h(old)").
  - reflexivity.
  - vm_compute. reflexivity.
  - vm_compute. discriminate.
Defined.

(** C7, refuted as stated: one chunk of two fails to embed and the
    rebuild returns no index at all. *)
Lemma failed_chunk_leaves_no_index : ~ partial_index_is_built.
Proof.
  intros H.
  specialize (H nat toy_sha256 toy_parse toy_split toy_embed
                (mkState ∅ {[ artifact := Bytes "bad" ]} [])
                "u1" artifact (blob_index_name "u1" artifact) (Bytes "bad")).
  destruct H as (ix & H & _).
  - vm_compute. reflexivity.
  - exists "good". split; [left; reflexivity | reflexivity].
  - vm_compute in H. discriminate H.
Qed.

Lemma failed_embedding_fails_rebuild_witness :
  let st : state nat := mkState ∅ {[ artifact := Bytes "bad" ]} [] in
  let out := rebuild_faiss_index nat toy_sha256 toy_parse toy_split toy_embed st
               "u1" artifact (blob_index_name "u1" artifact) in
  snd out = None /\ blobs (fst out) = blobs st
  /\ FAISS_INDEX_CACHE (fst out) = FAISS_INDEX_CACHE st.
Proof.
  intros st.
  apply (proj1 (failed_embedding_fails_rebuild nat toy_sha256 toy_parse toy_split
                  toy_embed st "u1" artifact (blob_index_name "u1" artifact)
                  (Bytes "bad") ltac:(vm_compute; reflexivity)
                  ltac:(discriminate) ltac:(discriminate))).
  exists "bad", (Exception "embedding failed"). split; [right; left|]; reflexivity.
Defined.

End IndexCacheExamples.

(** ** More on the credit ledger *)

Section LedgerMore.
Import Ledger.

(** X1.  A call of [update_user_credits_by_type] that raises, for whatever
    reason (unknown credit type, unknown user, insufficient credits, an
    increment that modifies nothing), leaves the collection as it was. *)
Theorem update_raises_changes_nothing :
  forall (db : users) (user_id : string) (amount : Z) (credit_type : string),
    match update_user_credits_by_type db user_id amount credit_type with
    | (db', Raise _) => db' = db
    | (db', Ok c') =>
        db' !! user_id = Some c' /\ get_user_credits db' user_id = Ok c'
    end.
Proof.
  intros db user_id amount credit_type.
  unfold update_user_credits_by_type, update_user_credits_body, update_one_inc.
  destruct (valid_credit_type credit_type); cbn [negb]; [|reflexivity].
  destruct (db !! user_id) as [c|] eqn:Hu; [|reflexivity].
  destruct ((amount <? 0) && (Z.abs amount >? bucket credit_type c));
    [reflexivity|].
  destruct (amount =? 0); cbn [Z.eqb]; [reflexivity|].
  rewrite lookup_insert_eq. unfold get_user_credits.
  rewrite lookup_insert_eq. auto.
Qed.

(** X2.  Whatever the call and its outcome, the accounts of all other
    users and the other bucket of the user named are as before. *)
Theorem update_touches_one_bucket :
  forall (db : users) (user_id : string) (amount : Z) (credit_type : string),
    let db' := fst (update_user_credits_by_type db user_id amount credit_type) in
    (forall other, other <> user_id -> db' !! other = db !! other)
    /\ (other_bucket credit_type <$> db' !! user_id)
       = (other_bucket credit_type <$> db !! user_id)
    /\ dom db' = dom db.
Proof.
  intros db user_id amount credit_type db'. subst db'.
  destruct (update_shape db user_id amount credit_type) as [-> | (c & Hu & _ & ->)].
  - auto.
  - split; [|split].
    + intros other Hne. now rewrite lookup_insert_ne by congruence.
    + rewrite lookup_insert_eq, Hu. simpl. now rewrite other_bucket_inc.
    + rewrite dom_insert_L. apply elem_of_dom_2 in Hu.
      apply set_eq. intros k. rewrite elem_of_union, elem_of_singleton.
      split; [intros [->|?]; assumption | auto].
Qed.

(** X3.  A debit of [n] credits that is accepted, followed by a credit of
    [n] to the same bucket, gives back the collection as it was: the refund
    undoes the debit exactly. *)
Theorem debit_then_credit_restores :
  forall (db : users) (user_id : string) (n : Z) (credit_type : string)
         (c : Credits),
    db !! user_id = Some c ->
    valid_credit_type credit_type = true ->
    0 < n <= bucket credit_type c ->
    let db1 := fst (update_user_credits_by_type db user_id (- n) credit_type) in
    is_ok (snd (update_user_credits_by_type db user_id (- n) credit_type)) = true
    /\ update_user_credits_by_type db1 user_id n credit_type = (db, Ok c).
Proof.
  intros db user_id n credit_type c Hu Hv Hn db1. subst db1.
  assert (Habs : - n < 0 -> Z.abs (- n) <= bucket credit_type c)
    by (intros _; rewrite Z.abs_opp, Z.abs_eq; lia).
  assert (Hnz : - n <> 0) by lia.
  rewrite (update_accepts db user_id (- n) credit_type c Hu Hv Hnz Habs).
  cbn [fst snd is_ok]. split; [reflexivity|].
  rewrite (update_accepts _ user_id n credit_type (inc_bucket credit_type (- n) c)
             (lookup_insert_eq _ _ _) Hv) by lia.
  rewrite insert_insert_eq, inc_bucket_inc.
  replace (- n + n) with 0 by lia. rewrite inc_bucket_zero.
  now rewrite insert_id.
Qed.

Lemma debit_then_credit_restores_witness :
  let db : users := {[ "u1" := mkCredits 3 1 ]} in
  is_ok (snd (update_user_credits_by_type db "u1" (- 2) "paid")) = true
  /\ update_user_credits_by_type
       (fst (update_user_credits_by_type db "u1" (- 2) "paid")) "u1" 2 "paid"
     = (db, Ok (mkCredits 3 1)).
Proof.
  intros db.
  apply (debit_then_credit_restores db "u1" 2 "paid" (mkCredits 3 1));
    [reflexivity | reflexivity | vm_compute; split; [reflexivity | discriminate]].
Defined.

(** X4.  Two accepted credits in a row add up: crediting [a] and then [b]
    leaves the collection that a single credit of [a + b] leaves. *)
Theorem credits_add_up :
  forall (db : users) (user_id : string) (a b : Z) (credit_type : string)
         (c : Credits),
    db !! user_id = Some c ->
    valid_credit_type credit_type = true ->
    0 < a -> 0 < b ->
    fst (update_user_credits_by_type
           (fst (update_user_credits_by_type db user_id a credit_type))
           user_id b credit_type)
    = fst (update_user_credits_by_type db user_id (a + b) credit_type).
Proof.
  intros db user_id a b credit_type c Hu Hv Ha Hb.
  rewrite (update_accepts db user_id a credit_type c Hu Hv) by lia.
  rewrite (update_accepts db user_id (a + b) credit_type c Hu Hv) by lia.
  cbn [fst].
  rewrite (update_accepts _ user_id b credit_type (inc_bucket credit_type a c)
             (lookup_insert_eq _ _ _) Hv) by lia.
  cbn [fst]. now rewrite insert_insert_eq, inc_bucket_inc.
Qed.

Lemma credits_add_up_witness :
  let db : users := {[ "u1" := mkCredits 0 0 ]} in
  fst (update_user_credits_by_type
         (fst (update_user_credits_by_type db "u1" 2 "paid")) "u1" 3 "paid")
  = fst (update_user_credits_by_type db "u1" (2 + 3) "paid").
Proof.
  intros db.
  apply (credits_add_up db "u1" 2 3 "paid" (mkCredits 0 0));
    [reflexivity | reflexivity | lia | lia].
Defined.

(** X5.  An increment by zero is refused: for a known user and a valid
    credit type the call raises "Credit update failed", because the update
    modifies no document. *)
Theorem zero_amount_is_refused :
  forall (db : users) (user_id credit_type : string) (c : Credits),
    db !! user_id = Some c ->
    valid_credit_type credit_type = true ->
    update_user_credits_by_type db user_id 0 credit_type
    = (db, Raise (Exception "Error updating user credits: Credit update failed")).
Proof.
  intros db user_id credit_type c Hu Hv.
  unfold update_user_credits_by_type, update_user_credits_body, update_one_inc.
  rewrite Hv, Hu. reflexivity.
Qed.

Lemma zero_amount_is_refused_witness :
  let db : users := {[ "u1" := mkCredits 3 1 ]} in
  update_user_credits_by_type db "u1" 0 "free"
  = (db, Raise (Exception "Error updating user credits: Credit update failed")).
Proof.
  intros db.
  apply (zero_amount_is_refused db "u1" "free" (mkCredits 3 1)); reflexivity.
Defined.

End LedgerMore.

(** ** More on the routes *)

Section RouteMore.
Import Ledger Admission.

(** What the credit check and debit of a submission can come to: the debit
    of one credit, followed by the hand-over or by the failure to queue, or
    a refusal that leaves the ledger alone. *)
Lemma check_and_debit_cases db u lvl data ids slug delay :
  match check_and_debit db u lvl data ids slug delay with
  | (db', j, r) =>
      (exists c,
          db !! u = Some c /\ valid_credit_type lvl = true /\
          1 <= bucket lvl c /\
          db' = <[u := inc_bucket lvl (-1) c]> db /\
          match delay with
          | Ok _ => status r = 202 /\ exists job, j = Some job /\ Tasks.job_user job = u
                                                  /\ Tasks.job_bucket job = lvl
          | Raise _ => status r = 500 /\ j = None
          end)
      \/ (db' = db /\ j = None /\ (status r = 403 \/ status r = 500))
  end.
Proof.
  unfold check_and_debit, get_user_credits.
  destruct (db !! u) as [c|] eqn:Hu; [|cbv beta iota; right; auto].
  destruct (String.eqb_spec lvl "free") as [->|Hf].
  - destruct (free_credits c <? 1) eqn:Hb; [cbv beta iota; right; auto|].
    rewrite (debit_one db u "free" c Hu eq_refl Hb). apply Z.ltb_ge in Hb.
    destruct delay; cbv beta iota; left; exists c; repeat split; eauto.
  - destruct (String.eqb_spec lvl "paid") as [->|Hp]; [|cbv beta iota; right; auto].
    destruct (paid_credits c <? 1) eqn:Hb; [cbv beta iota; right; auto|].
    rewrite (debit_one db u "paid" c Hu eq_refl Hb). apply Z.ltb_ge in Hb.
    destruct delay; cbv beta iota; left; exists c; repeat split; eauto.
Qed.

(** X6.  Every submission is either refused, with no job queued, the
    ledger untouched and status 400, 401, 403 or 500, or it takes exactly
    one credit from the bucket its access level names and then answers 202
    with the job queued for the submitting user, or, when the hand-over to
    the queue raises, 500 with no job and the credit gone. *)
Theorem submission_debits_at_most_once :
  forall (db : users) (current_user : string) (request_json : result pyval)
         (delay : result string),
    match execute_workflow_and_generate_report db current_user request_json delay with
    | (db', j, r) =>
        (exists c lvl,
            db !! current_user = Some c /\ valid_credit_type lvl = true /\
            1 <= bucket lvl c /\
            db' = <[current_user := inc_bucket lvl (-1) c]> db /\
            match delay with
            | Ok _ =>
                status r = 202 /\
                exists job, j = Some job /\ Tasks.job_user job = current_user
                            /\ Tasks.job_bucket job = lvl
            | Raise _ => status r = 500 /\ j = None
            end)
        \/ (db' = db /\ j = None /\
            (status r = 400 \/ status r = 401 \/ status r = 403 \/ status r = 500))
    end.
Proof.
  intros db u rq delay.
  destruct (execute_workflow_and_generate_report db u rq delay) as [[db' j] r] eqn:H.
  unfold execute_workflow_and_generate_report in H.
  repeat match type of H with
         | check_and_debit _ _ _ _ _ _ _ = _ => fail 1
         | (if ?b then _ else _) = _ => destruct b
         | match ?x with _ => _ end = _ => destruct x
         end;
    try (injection H as <- <- <-; right; cbn; auto 10).
  pose proof (check_and_debit_cases db u (lower s) (PDict kvs)
                (dict_get kvs "userideasId" PNone) (dict_get kvs "slug" PNone) delay)
    as C.
  rewrite H in C. destruct C as [(c & Hu & Hv & Hb & Hdb & Hd) | (Hdb & Hj & Hs)].
  - left. exists c, (lower s). auto.
  - right. intuition.
Qed.

(** X7.  An upgrade request is either refused, with no job queued and the
    ledger untouched, or it takes exactly one credit from the paid bucket;
    that happens only for an existing report whose status is ['free'], and
    is followed by 202 with the upgrade job queued or, when the hand-over
    raises, by 500 with no job and the credit gone. *)
Theorem upgrade_debits_at_most_once :
  forall (db : users) (user_id : string) (request_json idea existing : result pyval)
         (delay : result string),
    match upgrade_report_and_execute_workflow db user_id request_json idea existing
            delay with
    | (db', j, r) =>
        (exists c ex,
            db !! user_id = Some c /\ 1 <= paid_credits c /\
            db' = <[user_id := inc_bucket "paid" (-1) c]> db /\
            existing = Ok ex /\ py_get ex "status" PNone = Ok (PStr "free") /\
            match delay with
            | Ok _ =>
                status r = 202 /\
                exists job, j = Some job /\ Tasks.job_user job = user_id
                            /\ Tasks.job_bucket job = "paid"
            | Raise _ => status r = 500 /\ j = None
            end)
        \/ (db' = db /\ j = None /\
            (status r = 400 \/ status r = 401 \/ status r = 403 \/
             status r = 404 \/ status r = 409 \/ status r = 500))
    end.
Proof.
  intros db u rq idea existing delay.
  destruct (upgrade_report_and_execute_workflow db u rq idea existing delay)
    as [[db' j] r] eqn:H.
  unfold upgrade_report_and_execute_workflow in H.
  repeat match type of H with
         | (if String.eqb _ _ then _ else _) = _ =>
             destruct (String.eqb u "")
         | (if negb (match py_get ?ex _ _ with _ => _ end) then _ else _) = _ =>
             destruct (py_get ex "status" PNone) as [[| | |st| |]|] eqn:Hst;
             [| | | destruct (String.eqb_spec st "free") as [->|] | | |];
             cbv beta iota in H; cbn [negb] in H
         | (if negb _ then _ else _) = _ =>
             match type of H with (if ?b then _ else _) = _ => destruct b end
         | (if negb _ || negb _ then _ else _) = _ =>
             match type of H with (if ?b then _ else _) = _ => destruct b end
         | match get_user_credits db u with _ => _ end = _ =>
             unfold get_user_credits in H;
             destruct (db !! u) as [c|] eqn:Hu
         | (if paid_credits ?c <? 1 then _ else _) = _ =>
             destruct (paid_credits c <? 1) eqn:Hb;
             [|rewrite (debit_one db u "paid" c Hu eq_refl Hb) in H]
         | match ?x with _ => _ end = _ => destruct x
         end;
    cbn [negb] in H;
    injection H as H1 H2 H3; rewrite <- H1, <- H2, <- H3;
    first
      [ solve [right; cbn; auto 10]
      | left;
        match goal with
        | Hu : _ !! _ = Some ?c, Hb : (paid_credits ?c <? 1) = false,
          Hst : py_get ?ex _ _ = _ |- _ =>
            exists c, ex; apply Z.ltb_ge in Hb; cbn; repeat split; eauto
        end ].
Qed.


End RouteMore.

(** ** More on the tasks *)

Section TaskMore.
Import Ledger Tasks.

(** X9.  [retry_operation] makes at most three calls of its function.
    When it returns, the value is that of a call all of whose predecessors
    failed and were each followed by a sleep that returned, and nothing is
    called afterwards.  When it raises, either a sleep after a failed call
    raised that exception, or all three calls failed and the exception is
    that of the third. *)
Theorem retry_operation_outcome :
  forall (env : nat -> result pyval) (f : string) (args : list pyval) (w : world),
    let n := clock w in
    let out := retry_operation env f args w in
    let failed k := forall i, (i < k)%nat ->
                      is_ok (env (n + 2 * i)%nat) = false
                      /\ is_ok (env (n + 2 * i + 1)%nat) = true in
    accounts (fst out) = accounts w /\
    match snd out with
    | Ok v =>
        exists k, (k < 3)%nat /\ failed k /\ env (n + 2 * k)%nat = Ok v
                  /\ clock (fst out) = (n + 2 * k + 1)%nat
    | Raise e =>
        (exists k, (k < 3)%nat /\ failed k
                   /\ is_ok (env (n + 2 * k)%nat) = false
                   /\ env (n + 2 * k + 1)%nat = Raise e
                   /\ clock (fst out) = (n + 2 * k + 2)%nat)
        \/ (failed 3%nat /\ env (n + 4)%nat = Raise e
            /\ clock (fst out) = (n + 6)%nat)
    end.
Proof.
  intros env f args w n out failed. subst out.
  unfold retry_operation. cbn [retry_loop].
  unfold try_except, bind, external, raise. cbn [clock fst snd accounts].
  fold n.
  replace (S n) with (n + 1)%nat by lia.
  replace (S (n + 1)) with (n + 2)%nat by lia.
  replace (S (n + 2)) with (n + 3)%nat by lia.
  replace (S (n + 3)) with (n + 4)%nat by lia.
  replace (S (n + 4)) with (n + 5)%nat by lia.
  replace (S (n + 5)) with (n + 6)%nat by lia.
  assert (E0 : (n + 2 * 0 = n)%nat) by lia.
  assert (E1 : (n + 2 * 0 + 1 = n + 1)%nat) by lia.
  assert (E2 : (n + 2 * 1 = n + 2)%nat) by lia.
  assert (E3 : (n + 2 * 1 + 1 = n + 3)%nat) by lia.
  assert (E4 : (n + 2 * 2 = n + 4)%nat) by lia.
  assert (E5 : (n + 2 * 2 + 1 = n + 5)%nat) by lia.
  assert (F0 : failed 0%nat) by (intros i Hi; lia).
  destruct (env n) as [v0|e0] eqn:H0; cbn [fst snd accounts clock].
  { split; [reflexivity|]. exists 0%nat. rewrite ?E1, ?E3, ?E5, ?E0, ?E2, ?E4.
    split; [lia|]. split; [exact F0|]. split; [assumption|lia]. }
  destruct (env (n + 1)%nat) as [s0|e] eqn:S0; cbn [fst snd accounts clock].
  2:{ split; [reflexivity|]. left. exists 0%nat. rewrite ?E1, ?E3, ?E5, ?E0, ?E2, ?E4. rewrite H0.
      split; [lia|]. split; [exact F0|]. split; [reflexivity|]. split; [assumption|lia]. }
  assert (F1 : failed 1%nat).
  { intros i Hi. assert (i = 0)%nat as -> by lia. rewrite ?E1, ?E3, ?E5, ?E0, ?E2, ?E4. rewrite H0, S0. auto. }
  destruct (env (n + 2)%nat) as [v1|e1] eqn:H1; cbn [fst snd accounts clock].
  { split; [reflexivity|]. exists 1%nat. rewrite ?E1, ?E3, ?E5, ?E0, ?E2, ?E4.
    split; [lia|]. split; [exact F1|]. split; [assumption|lia]. }
  destruct (env (n + 3)%nat) as [s1|e] eqn:S1; cbn [fst snd accounts clock].
  2:{ split; [reflexivity|]. left. exists 1%nat. rewrite ?E1, ?E3, ?E5, ?E0, ?E2, ?E4. rewrite H1.
      split; [lia|]. split; [exact F1|]. split; [reflexivity|]. split; [assumption|lia]. }
  assert (F2 : failed 2%nat).
  { intros i Hi. destruct i as [|[|i]]; [apply F1; lia| |lia].
    rewrite ?E1, ?E3, ?E5, ?E0, ?E2, ?E4. rewrite H1, S1. auto. }
  destruct (env (n + 4)%nat) as [v2|e2] eqn:H2; cbn [fst snd accounts clock].
  { split; [reflexivity|]. exists 2%nat. rewrite ?E1, ?E3, ?E5, ?E0, ?E2, ?E4.
    split; [lia|]. split; [exact F2|]. split; [assumption|lia]. }
  destruct (env (n + 5)%nat) as [s2|e] eqn:S2; cbn [fst snd accounts clock].
  2:{ split; [reflexivity|]. left. exists 2%nat. rewrite ?E1, ?E3, ?E5, ?E0, ?E2, ?E4. rewrite H2.
      split; [lia|]. split; [exact F2|]. split; [reflexivity|]. split; [assumption|lia]. }
  split; [reflexivity|]. right. split; [|split; [reflexivity|lia]].
  intros i Hi. destruct i as [|[|[|i]]]; [apply F2; lia | apply F2; lia | | lia].
  rewrite ?E1, ?E3, ?E5, ?E0, ?E2, ?E4. rewrite H2, S2. auto.
Qed.

(** X10.  A job without an idea fails before any generator is asked.  The
    paid-tier task and the upgrade task raise at step 1 without a single
    external call; the free-tier task raises after its first sleep and
    its second progress update.  Each refunds the credit of the job. *)
Theorem job_without_idea_stops_at_once :
  forall (env : nat -> result pyval) (d : list (string * pyval))
         (data : pyval) (current_user : string)
         (userIdeasId slug report_id problem_response location : pyval)
         (w : world),
    let paid := execute_workflow_and_generate_report_task env (PDict d)
                  current_user userIdeasId slug w in
    let upgrade := upgrade_report_to_paid_task env data current_user userIdeasId
                     report_id problem_response location w in
    let free := generate_free_report_task env (PDict d) current_user userIdeasId
                  slug w in
    (truthy (dict_get d "problem_response" PNone) = false ->
     snd paid = Raise (Exception "Idea is required")
     /\ trace (fst paid)
        = (trace w ++ [update_state 1 8 "Analyzing the Idea";
                       credit_call current_user 1 "paid"])%list
     /\ clock (fst paid) = clock w)
    /\ (truthy problem_response = false ->
        snd upgrade = Raise (Exception "Missing problem_response")
        /\ trace (fst upgrade)
           = (trace w ++ [update_state 1 8 "Analyzing the Idea";
                          credit_call current_user 1 "paid"])%list
        /\ clock (fst upgrade) = clock w)
    /\ (truthy (dict_get d "problem_response" PNone) = false ->
        is_ok (env (clock w)) = true ->
        snd free
        = Raise (Exception "Missing problem_response for free report generation")
        /\ trace (fst free)
           = (trace w ++ [update_state 1 3 "Starting with your dream";
                          call "time.sleep" [PInt 3];
                          update_state 2 3 "Adding the AI magic";
                          credit_call current_user 1 "free"])%list
        /\ clock (fst free) = S (clock w)).
Proof.
  intros env d data u ids slug rid pr location w paid upgrade free.
  subst paid upgrade free. split; [|split].
  - intros Hi.
    unfold execute_workflow_and_generate_report_task,
      execute_workflow_and_generate_report_body, try_except, bind, lift, emit.
    cbn [py_get]. cbv beta iota zeta. rewrite Hi. cbn [negb].
    unfold raise, refund, bind. cbv beta iota zeta.
    destruct (update_user_credits_by_type _ _ _ _) as [db' r].
    cbn [fst snd trace clock].
    rewrite <- app_assoc. auto.
  - intros Hi.
    unfold upgrade_report_to_paid_task, upgrade_report_to_paid_body, try_except,
      bind, lift, emit.
    cbv beta iota zeta. rewrite Hi. cbn [negb].
    unfold raise, refund, bind. cbv beta iota zeta.
    destruct (update_user_credits_by_type _ _ _ _) as [db' r].
    cbn [fst snd trace clock].
    rewrite <- app_assoc. auto.
  - intros Hi Hs.
    unfold generate_free_report_task, generate_free_report_body, try_except,
      bind, lift, emit, external.
    cbn [py_get trace clock accounts]. cbv beta iota zeta.
    destruct (env (clock w)) as [s|e]; [|discriminate].
    cbv beta iota zeta. cbn [trace clock accounts]. rewrite Hi. cbn [negb].
    unfold raise, refund, bind. cbv beta iota zeta.
    destruct (update_user_credits_by_type _ _ _ _) as [db' r].
    cbn [fst snd trace clock].
    rewrite <- !app_assoc. auto.
Qed.

(** X11.  When the free-tier generator returns something that has no
    ['free_report_content'] (its error replies are such dicts), the task
    raises the error of the subscript at once: neither the JSON conversion
    nor [create_report] is called, so no report is stored, and the free
    credit is handed back. *)
Theorem free_report_without_content_is_not_stored :
  forall (env : nat -> result pyval) (d : list (string * pyval))
         (current_user : string) (userIdeasId slug : pyval) (w : world)
         (report : pyval) (e : exn),
    truthy (dict_get d "problem_response" PNone) = true ->
    is_ok (env (clock w)) = true ->
    env (S (clock w)) = Ok report ->
    py_getitem report "free_report_content" = Raise e ->
    let out := generate_free_report_task env (PDict d) current_user userIdeasId
                 slug w in
    snd out = Raise e
    /\ trace (fst out)
       = (trace w ++ [update_state 1 3 "Starting with your dream";
                      call "time.sleep" [PInt 3];
                      update_state 2 3 "Adding the AI magic";
                      call "generate_free_report_content"
                        [dict_get d "problem_response" PNone;
                         free_location (dict_get d "location" PNone)];
                      credit_call current_user 1 "free"])%list
    /\ clock (fst out) = S (S (clock w)).
Proof.
  intros env d u ids slug w report e Hi Hs Hr Hk out. subst out.
  unfold generate_free_report_task, generate_free_report_body, try_except,
    bind, lift, emit, external.
  cbn [py_get trace clock accounts]. cbv beta iota zeta.
  destruct (env (clock w)) as [s|e0]; [|discriminate].
  cbv beta iota zeta. cbn [trace clock accounts]. rewrite Hi. cbn [negb].
  cbv beta iota zeta. cbn [trace clock accounts]. rewrite Hr.
  cbv beta iota zeta. rewrite Hk.
  unfold raise, refund, bind. cbv beta iota zeta.
  destruct (update_user_credits_by_type _ _ _ _) as [db' r].
  cbn [fst snd trace clock].
  rewrite <- !app_assoc. auto.
Qed.

Lemma free_report_without_content_is_not_stored_witness :
  let env : nat -> result pyval := fun n =>
    match n with
    | 1%nat => Ok (PDict [("error", PStr "Invalid 'idea' input.")])
    | _ => Ok PNone
    end in
  let d := [("problem_response", PInt 7)] in
  let out := generate_free_report_task env (PDict d) "u1" (PStr "i1") (PStr "s")
               (initial {[ "u1" := mkCredits 0 0 ]}) in
  snd out = Raise (KeyError "free_report_content")
  /\ trace (fst out)
     = ([] ++ [update_state 1 3 "Starting with your dream";
               call "time.sleep" [PInt 3];
               update_state 2 3 "Adding the AI magic";
               call "generate_free_report_content"
                 [dict_get d "problem_response" PNone;
                  free_location (dict_get d "location" PNone)];
               credit_call "u1" 1 "free"])%list
  /\ clock (fst out) = 2%nat.
Proof.
  intros env d.
  apply (free_report_without_content_is_not_stored env d "u1" (PStr "i1")
           (PStr "s") (initial {[ "u1" := mkCredits 0 0 ]})
           (PDict [("error", PStr "Invalid 'idea' input.")])
           (KeyError "free_report_content"));
    reflexivity.
Defined.

End TaskMore.

Section StoredReport.
Import Ledger Tasks.

Variable env : nat -> result pyval.

Lemma calls_of_app g tr tr' :
  calls_of g (tr ++ tr') = (calls_of g tr ++ calls_of g tr')%list.
Proof.
  induction tr as [|[| |f args] tr IH]; cbn [calls_of app]; auto.
  destruct (String.eqb g f); cbn [app]; now rewrite IH.
Qed.

(** The retry loop calls its function and [time.sleep], nothing else. *)
Lemma retry_loop_calls g f args delay attempts last w :
  g <> f -> g <> "time.sleep" ->
  calls_of g (trace (fst (retry_loop env f args delay attempts last w)))
  = calls_of g (trace w).
Proof.
  intros Hf Hs. revert last w.
  induction attempts as [|n IH]; intros last w; cbn [retry_loop].
  - destruct last; reflexivity.
  - unfold try_except, bind, external. cbn [trace clock accounts].
    destruct (env (clock w)) as [v|e]; cbn [fst trace].
    + rewrite calls_of_app. cbn [calls_of].
      destruct (String.eqb_spec g f); [contradiction|]. now rewrite app_nil_r.
    + cbn [trace clock accounts].
      destruct (env (S (clock w))) as [s|e']; cbn [fst trace].
      * rewrite IH. cbn [trace]. rewrite !calls_of_app. cbn [calls_of].
        destruct (String.eqb_spec g f); [contradiction|].
        destruct (String.eqb_spec g "time.sleep"); [contradiction|].
        now rewrite !app_nil_r.
      * rewrite !calls_of_app. cbn [calls_of].
        destruct (String.eqb_spec g f); [contradiction|].
        destruct (String.eqb_spec g "time.sleep"); [contradiction|].
        now rewrite !app_nil_r.
Qed.

Lemma bind_external {B} f a (k : pyval -> task B) w :
  bind (external env f a) k w
  = match env (clock w) with
    | Ok v => k v (mkWorld (accounts w) (trace w ++ [call f a]) (S (clock w)))
    | Raise e => (mkWorld (accounts w) (trace w ++ [call f a]) (S (clock w)), Raise e)
    end.
Proof. unfold bind, external. now destruct (env (clock w)). Qed.

Lemma bind_emit {B} ev (k : unit -> task B) w :
  bind (emit ev) k w = k tt (mkWorld (accounts w) (trace w ++ [ev]) (clock w)).
Proof. reflexivity. Qed.

Lemma bind_lift {A B} (r : result A) (k : A -> task B) w :
  bind (lift r) k w = match r with Ok v => k v w | Raise e => (w, Raise e) end.
Proof. unfold bind, lift. now destruct r. Qed.

Lemma bind_retry {B} f a (k : pyval -> task B) w :
  bind (retry_operation env f a) k w
  = match retry_operation env f a w with
    | (w', Ok v) => k v w'
    | (w', Raise e) => (w', Raise e)
    end.
Proof. reflexivity. Qed.

Lemma retry_operation_calls g f args w :
  g <> f -> g <> "time.sleep" ->
  calls_of g (trace (fst (retry_operation env f args w))) = calls_of g (trace w).
Proof. apply retry_loop_calls. Qed.

Ltac retry_step :=
  match goal with
  | |- context [retry_operation env ?f ?a ?w] =>
      let U := fresh "U" in let C := fresh "C" in let G := fresh "G" in
      let P := fresh "P" in
      pose proof (retry_operation_calls "upload_blob_data" f a w
                    ltac:(discriminate) ltac:(discriminate)) as U;
      pose proof (retry_operation_calls "create_report" f a w
                    ltac:(discriminate) ltac:(discriminate)) as C;
      pose proof (retry_operation_calls
                    "generate_full_final_parallel_executed_report" f a w
                    ltac:(discriminate) ltac:(discriminate)) as G;
      pose proof (retry_operation_calls "update_report" f a w
                    ltac:(discriminate) ltac:(discriminate)) as P;
      destruct (retry_operation env f a w) as [? [?|?]];
      cbn [fst snd trace] in U, C, G, P;
      rewrite !calls_of_app in U, C, G, P; cbn [calls_of] in U, C, G, P;
      rewrite ?app_nil_r in U, C, G, P; [|exact I]
  end.

Ltac ext_step :=
  match goal with
  | |- context [env ?n] => destruct (env n) as [?|?]; [|exact I]
  end.


Lemma upgrade_body_stores_what_it_returns data u ids rid pr location w :
  let out := upgrade_report_to_paid_body env data u ids rid pr location w in
  match snd out with
  | Raise _ => True
  | Ok v =>
      exists report summary json,
        v = PDict [("message", PStr "Report upgraded successfully");
                   ("report", PDict [("reportId", rid); ("report", report)])]
        /\ calls_of "generate_full_final_parallel_executed_report" (trace (fst out))
           = (calls_of "generate_full_final_parallel_executed_report" (trace w)
              ++ [[pr; PStr u; upgrade_location location;
                   PStr (cache_path u ids)]])%list
        /\ calls_of "update_report" (trace (fst out))
           = (calls_of "update_report" (trace w)
              ++ [[rid;
                   PDict [("access_level", PStr "paid"); ("status", PStr "paid");
                          ("report_content", report);
                          ("report_json_content", json);
                          ("report_file_path", PStr (cache_path u ids))]]])%list
        /\ calls_of "create_report" (trace (fst out))
           = calls_of "create_report" (trace w)
        /\ calls_of "upload_blob_data" (trace (fst out))
           = (calls_of "upload_blob_data" (trace w)
              ++ [[PStr (cache_path u ids); PDict [("summary", summary)]];
                  [PStr (final_path u ids rid); report]])%list
  end.
Proof.
  cbv zeta. unfold upgrade_report_to_paid_body. cbv zeta.
  rewrite bind_emit.
  destruct (negb (truthy pr)); [exact I|].
  rewrite bind_emit, bind_retry. retry_step.
  rewrite bind_lift.
  match goal with
  | |- context [py_get ?a ?b ?c] => destruct (py_get a b c) as [?|?]; [|exact I]
  end.
  rewrite bind_emit, bind_retry. retry_step.
  rewrite bind_emit, bind_retry. retry_step.
  rewrite bind_emit, bind_external. cbn [clock]. ext_step.
  rewrite bind_emit, bind_external. cbn [clock]. ext_step.
  rewrite bind_lift.
  match goal with
  | |- context [py_getitem ?a ?b] =>
      destruct (py_getitem a b) as [summary|?]; [|exact I]
  end.
  rewrite bind_emit, bind_external. cbn [clock]. ext_step.
  rewrite bind_emit.
  rewrite bind_external. cbn [clock]. ext_step.
  rewrite bind_external. cbn [clock]. ext_step.
  rewrite bind_external. cbn [clock]. ext_step.
  rewrite bind_external. cbn [clock]. ext_step.
  cbn [ret fst snd trace accounts].
  eexists _, _, _. split; [reflexivity|].
  rewrite !calls_of_app. cbn [calls_of String.eqb Ascii.eqb Bool.eqb].
  rewrite ?app_nil_r, <- ?app_assoc. cbn [app].
  rewrite G1, G0, G, C1, C0, C, U1, U0, U, P1, P0, P. auto.
Qed.


(** A task returns exactly when its body does, in the same world. *)
Lemma guarded_returns {A} (m : task A) (h : exn -> task unit) w :
  match snd (try_except m (fun e => bind (h e) (fun _ => raise e)) w) with
  | Ok _ => try_except m (fun e => bind (h e) (fun _ => raise e)) w = m w
  | Raise _ => True
  end.
Proof.
  unfold try_except. destruct (m w) as [w1 [v|e]]; cbn [snd]; [reflexivity|].
  unfold bind, raise. destruct (h e w1) as [w2 [[]|e']]; exact I.
Qed.

Lemma task_returns_as_body j w :
  match snd (run_job env j w) with
  | Ok _ => run_job env j w = job_body env j w
  | Raise _ => True
  end.
Proof. rewrite run_job_guarded. apply guarded_returns. Qed.


(** X13.  When the upgrade task returns, it has updated the existing
    report, under the id it was given, with the generated report and the
    paid access level, and has created no report; the result names that
    same id and report, and the report is uploaded under its final path. *)
Theorem upgrade_task_updates_the_given_report :
  forall (data : pyval) (current_user : string)
         (userIdeasId report_id problem_response location : pyval) (w : world),
    let out := upgrade_report_to_paid_task env data current_user userIdeasId
                 report_id problem_response location w in
    let intermediate := cache_path current_user userIdeasId in
    match snd out with
    | Raise _ => True
    | Ok v =>
        exists report summary json,
          v = PDict [("message", PStr "Report upgraded successfully");
                     ("report",
                      PDict [("reportId", report_id); ("report", report)])]
          /\ calls_of "generate_full_final_parallel_executed_report"
               (trace (fst out))
             = (calls_of "generate_full_final_parallel_executed_report" (trace w)
                ++ [[problem_response; PStr current_user;
                     upgrade_location location; PStr intermediate]])%list
          /\ calls_of "update_report" (trace (fst out))
             = (calls_of "update_report" (trace w)
                ++ [[report_id;
                     PDict [("access_level", PStr "paid");
                            ("status", PStr "paid");
                            ("report_content", report);
                            ("report_json_content", json);
                            ("report_file_path", PStr intermediate)]]])%list
          /\ calls_of "create_report" (trace (fst out))
             = calls_of "create_report" (trace w)
          /\ calls_of "upload_blob_data" (trace (fst out))
             = (calls_of "upload_blob_data" (trace w)
                ++ [[PStr intermediate; PDict [("summary", summary)]];
                    [PStr (final_path current_user userIdeasId report_id);
                     report]])%list
    end.
Proof.
  intros data u ids rid pr location w out intermediate. subst out intermediate.
  pose proof (task_returns_as_body
                (Admission.upgrade_report_to_paid_job data u ids rid pr location)
                w) as Hr.
  cbn [run_job job_body] in Hr.
  destruct (snd (upgrade_report_to_paid_task env _ _ _ _ _ _ w)) eqn:Hs;
    [|exact I].
  rewrite Hr in Hs |- *.
  pose proof (upgrade_body_stores_what_it_returns data u ids rid pr location w)
    as Hb.
  cbv zeta in Hb. rewrite Hs in Hb. exact Hb.
Qed.


End StoredReport.

(** A paid-tier run in which every collaborator answers. *)
Example paid_run_returns :
  let env := fun n : nat =>
    match n with
    | 4%nat => Ok (PDict [("summarized_results", PList [PStr "s"])])
    | 6%nat => Ok (PDict [("executive_summary", PStr "text")])
    | 8%nat => Ok (PDict [("_id", PStr "r1")])
    | _ => Ok PNone
    end in
  let out := Tasks.execute_workflow_and_generate_report_task env
               (PDict [("problem_response", PStr "an idea")]) "u1" (PStr "i1")
               (PStr "s1") (Tasks.initial {[ "u1" := Ledger.mkCredits 0 0 ]}) in
  snd out
  = Ok (PDict [("message",
                PStr "Workflow and report generation completed successfully");
               ("report",
                PDict [("reportId", PStr "r1");
                       ("report", PDict [("executive_summary", PStr "text")])])])
  /\ Tasks.calls_of "upload_blob_data" (Tasks.trace (fst out))
     = [[PStr "user_cache/u1/u1-i1.json";
         PDict [("summary", PList [PStr "s"])]];
        [PStr "user_cache/u1/u1-i1-r1.json";
         PDict [("executive_summary", PStr "text")]]].
Proof. vm_compute. auto. Qed.

(** ** More on the retrieval index cache *)

Section BlobNames.
Import IndexCache.

Lemma length_append (s t : string) :
  String.length (s +:+ t) = (String.length s + String.length t)%nat.
Proof. induction s as [|c s IH]; simpl; [reflexivity|now f_equal]. Qed.

Lemma append_cancel_l (s a b : string) : s +:+ a = s +:+ b -> a = b.
Proof. induction s as [|c s IH]; simpl; [auto|]. intros [= H]. auto. Qed.

(** The index and the marker of a file never share a blob. *)
Lemma index_name_is_not_marker_name user_id file_path :
  blob_index_name user_id file_path <> blob_hash_name user_id file_path.
Proof.
  unfold blob_index_name, blob_hash_name. intros H.
  apply append_cancel_l, append_cancel_l in H.
  apply (f_equal String.length) in H. rewrite !length_append in H.
  cbn [String.length] in H. lia.
Qed.

End BlobNames.

Section IndexCacheMore.
Import IndexCache.

Variable vector : Type.
Variable sha256 : blob vector -> string.
Variable strip : string -> string.
Variable parse_documents : blob vector -> list string.
Variable split_documents : list string -> list string.
Variable embed_query : string -> result vector.

Abbreviation rebuild' := (rebuild_faiss_index vector sha256 parse_documents
                       split_documents embed_query).
Abbreviation rebuild_cache' := (rebuild_and_cache vector sha256 parse_documents
                             split_documents embed_query).
Abbreviation init' := (initialize_retriever vector sha256 strip parse_documents
                    split_documents embed_query).
Abbreviation check' := (check_file_for_changes vector sha256 strip).
Abbreviation hash' := (compute_file_hash vector sha256).

Lemma embed_all_length texts vs :
  embed_all vector embed_query texts = Ok vs -> length vs = length texts.
Proof.
  revert vs. induction texts as [|t texts IH]; intros vs; cbn [embed_all].
  - now intros [= <-].
  - destruct (embed_query t); [|discriminate].
    destruct (embed_all vector embed_query texts); [|discriminate].
    intros [= <-]. cbn [length]. f_equal. now apply IH.
Qed.

(** What a rebuild leaves behind. *)
Lemma rebuild_outcome st user_id file_path index_name :
  let out := rebuild' st user_id file_path index_name in
  FAISS_INDEX_CACHE (fst out) = FAISS_INDEX_CACHE st /\
  match snd out with
  | Some ix =>
      blobs (fst out)
      = <[blob_hash_name user_id file_path := Bytes (hash' st file_path)]>
          (<[index_name := Zip ix]> (blobs st))
      /\ is_Some (blobs st !! file_path)
      /\ length (vectors ix) = length (chunks ix) /\ chunks ix <> []
  | None => blobs (fst out) = blobs st
  end.
Proof.
  cbv zeta. unfold rebuild_faiss_index, blob_exists.
  destruct (blobs st !! file_path) as [b|] eqn:Hb; cbn [negb];
    [|cbn [fst snd]; auto].
  destruct (preprocess_json _ _ _ _) as [|doc docs]; [cbn [fst snd]; auto|].
  destruct (split_documents (doc :: docs)) as [|c cs] eqn:Hs;
    [cbn [fst snd]; auto|].
  destruct (embed_all _ _ _) as [vs|e] eqn:He;
    [|cbn [fst snd print blobs FAISS_INDEX_CACHE]; auto].
  cbn [fst snd upload_blob_data print blobs FAISS_INDEX_CACHE vectors chunks].
  split; [reflexivity|]. split; [reflexivity|]. split; [eauto|].
  split; [now apply embed_all_length|discriminate].
Qed.

(** X15.  A rebuild that returns an index has stored it under the index
    name and has set the marker to the fingerprint of the artifact; these
    are two different blobs, and no other blob is written.  A rebuild that
    returns none has written nothing.  The in-process cache is not touched
    by the rebuild itself. *)
Theorem rebuild_writes_index_and_marker_only :
  forall (st : state vector) (user_id file_path : string),
    let name := blob_index_name user_id file_path in
    let marker := blob_hash_name user_id file_path in
    let out := rebuild' st user_id file_path name in
    name <> marker
    /\ FAISS_INDEX_CACHE (fst out) = FAISS_INDEX_CACHE st
    /\ (forall other, other <> name -> other <> marker ->
          blobs (fst out) !! other = blobs st !! other)
    /\ match snd out with
       | Some ix =>
           blobs (fst out) !! name = Some (Zip ix)
           /\ blobs (fst out) !! marker = Some (Bytes (hash' st file_path))
           /\ length (vectors ix) = length (chunks ix)
           /\ chunks ix <> []
       | None => blobs (fst out) = blobs st
       end.
Proof.
  intros st user_id file_path name marker out.
  pose proof (index_name_is_not_marker_name user_id file_path) as Hne.
  fold name marker in Hne.
  pose proof (rebuild_outcome st user_id file_path name) as (Hc & Hr).
  fold out in Hc, Hr. fold marker in Hr.
  split; [exact Hne|]. split; [exact Hc|].
  destruct (snd out) as [ix|].
  - destruct Hr as (Hb & _ & Hl & Hn). rewrite Hb. split; [|split; [|split; [|auto]]].
    + intros other H1 H2. now rewrite !lookup_insert_ne by congruence.
    + rewrite lookup_insert_ne by congruence. apply lookup_insert_eq.
    + apply lookup_insert_eq.
  - rewrite Hr. auto.
Qed.

Lemma hash_depends_on_artifact (st st' : state vector) file_path :
  blobs st' !! file_path = blobs st !! file_path ->
  hash' st' file_path = hash' st file_path.
Proof. unfold compute_file_hash, download_blob_data. now intros ->. Qed.

Lemma rebuild_and_cache_outcome st user_id file_path :
  let name := blob_index_name user_id file_path in
  let out := rebuild_cache' st user_id file_path in
  match snd out with
  | Ok (Some ix) =>
      blobs (fst out)
      = <[blob_hash_name user_id file_path := Bytes (hash' st file_path)]>
          (<[name := Zip ix]> (blobs st))
      /\ FAISS_INDEX_CACHE (fst out) = <[name := ix]> (FAISS_INDEX_CACHE st)
      /\ is_Some (blobs st !! file_path)
  | Ok None =>
      blobs (fst out) = blobs st
      /\ FAISS_INDEX_CACHE (fst out) = FAISS_INDEX_CACHE st
  | Raise _ => False
  end.
Proof.
  cbv zeta. unfold rebuild_and_cache.
  pose proof (rebuild_outcome (print vector st Rebuilding) user_id file_path
                (blob_index_name user_id file_path)) as (Hc & Hr).
  cbv zeta in Hc, Hr.
  destruct (rebuild' _ _ _ _) as [st1 [ix|]]; cbn [fst snd] in *.
  - destruct Hr as (Hb & Hf & _). cbn [cache_store blobs FAISS_INDEX_CACHE].
    rewrite Hb, Hc. auto.
  - auto.
Qed.

Lemma check_outcome st file_path user_id :
  match check' st file_path user_id with
  | (st1, Ok true) =>
      st1 = upload_blob_data vector st (blob_hash_name user_id file_path)
              (Bytes (hash' st file_path))
  | (st1, Ok false) =>
      st1 = st /\ exists m, blobs st !! blob_hash_name user_id file_path
                            = Some (Bytes m)
                            /\ hash' st file_path = strip m
  | (st1, Raise _) => st1 = st
  end.
Proof.
  unfold check_file_for_changes, blob_exists, download_blob_data.
  destruct (blobs st !! blob_hash_name user_id file_path) as [[m|ix]|] eqn:Hm;
    cbn [decode]; [|reflexivity|reflexivity].
  destruct (String.eqb_spec (hash' st file_path) (strip m)); [|reflexivity].
  split; [reflexivity|]. eauto.
Qed.

(** A process without a cache entry that finds the marker up to date and
    the index persisted loads it. *)
Lemma init_loads st user_id file_path m ix :
  FAISS_INDEX_CACHE st !! blob_index_name user_id file_path = None ->
  blobs st !! blob_hash_name user_id file_path = Some (Bytes m) ->
  hash' st file_path = strip m ->
  blobs st !! blob_index_name user_id file_path = Some (Zip ix) ->
  init' st user_id file_path
  = (cache_store vector (print vector st LoadingFromBlob)
       (blob_index_name user_id file_path) ix, Ok (Some ix)).
Proof.
  intros Hc Hm Hh Hz. unfold initialize_retriever.
  rewrite Hc, (check_unchanged vector sha256 strip st file_path user_id m Hm Hh).
  unfold blob_exists, download_blob_data. cbn [print blobs]. rewrite Hz.
  reflexivity.
Qed.

(** After a rebuild that returned an index, a process that starts without
    a cache entry over the blobs left behind loads that index. *)
Lemma loads_after_rebuild st user_id file_path ix c l :
  file_path <> blob_index_name user_id file_path ->
  file_path <> blob_hash_name user_id file_path ->
  strip (hash' st file_path) = hash' st file_path ->
  snd (rebuild_cache' st user_id file_path) = Ok (Some ix) ->
  c !! blob_index_name user_id file_path = None ->
  let next := mkState c (blobs (fst (rebuild_cache' st user_id file_path))) l in
  init' next user_id file_path
  = (cache_store vector (print vector next LoadingFromBlob)
       (blob_index_name user_id file_path) ix, Ok (Some ix)).
Proof.
  intros Hn Hm Hs Hr Hc next.
  pose proof (rebuild_and_cache_outcome st user_id file_path) as H.
  cbv zeta in H. rewrite Hr in H. destruct H as (Hb & _ & _).
  pose proof (index_name_is_not_marker_name user_id file_path) as Hne.
  apply (init_loads next user_id file_path (hash' st file_path)).
  - exact Hc.
  - subst next. cbn [blobs]. rewrite Hb. apply lookup_insert_eq.
  - rewrite Hs. apply hash_depends_on_artifact. subst next. cbn [blobs].
    rewrite Hb. now rewrite !lookup_insert_ne by congruence.
  - subst next. cbn [blobs]. rewrite Hb.
    rewrite lookup_insert_ne by congruence. apply lookup_insert_eq.
Qed.

(** X16.  What one process has built or loaded, the next one finds: when a
    call without a cache entry returns an index, a process that starts with
    an empty cache over the blobs left behind loads that very index from
    blob storage and rebuilds nothing.  The artifact is neither the index
    blob nor the marker blob, and stripping leaves its fingerprint as it
    is. *)
Theorem fresh_process_loads_persisted_index :
  forall (st : state vector) (user_id file_path : string) (ix : Index vector)
         (l : list message),
    let name := blob_index_name user_id file_path in
    file_path <> name ->
    file_path <> blob_hash_name user_id file_path ->
    strip (hash' st file_path) = hash' st file_path ->
    FAISS_INDEX_CACHE st !! name = None ->
    snd (init' st user_id file_path) = Ok (Some ix) ->
    let fresh := mkState ∅ (blobs (fst (init' st user_id file_path))) l in
    init' fresh user_id file_path
    = (cache_store vector (print vector fresh LoadingFromBlob) name ix,
       Ok (Some ix)).
Proof.
  intros st user_id file_path ix l name Hn Hm Hstrip Hc Hr fresh.
  assert (Hreb : forall st2 : state vector,
             blobs st2 !! file_path = blobs st !! file_path ->
             snd (rebuild_cache' st2 user_id file_path) = Ok (Some ix) ->
             init' (mkState ∅ (blobs (fst (rebuild_cache' st2 user_id file_path))) l)
               user_id file_path
             = (cache_store vector
                  (print vector
                     (mkState ∅
                        (blobs (fst (rebuild_cache' st2 user_id file_path))) l)
                     LoadingFromBlob) name ix, Ok (Some ix))).
  { intros st2 Hsame H2. apply loads_after_rebuild; auto.
    now rewrite (hash_depends_on_artifact st st2 file_path Hsame). }
  subst fresh. revert Hr.
  remember (init' st user_id file_path) as out eqn:Hout.
  unfold initialize_retriever in Hout. fold name in Hout. rewrite Hc in Hout.
  pose proof (check_outcome st file_path user_id) as Hck.
  destruct (check' st file_path user_id) as [st1 [[|]|e]];
    [| |subst out; discriminate].
  - subst out. intros Hr. apply Hreb; [|exact Hr]. subst st1.
    cbn [upload_blob_data blobs]. now rewrite lookup_insert_ne by congruence.
  - destruct Hck as (-> & m & Hmk & Hh). revert Hout.
    unfold blob_exists, download_blob_data. cbn [print blobs].
    destruct (blobs st !! name) as [[data|ix0]|] eqn:Hz; cbn [load_local];
      intros ->.
    + intros Hr. now apply Hreb.
    + cbn [snd fst]. intros [= ->]. cbn [cache_store blobs].
      now apply (init_loads _ user_id file_path m).
    + intros Hr. now apply Hreb.
Qed.

(** X17.  The change check settles: a check that returns is followed, with
    the artifact untouched, by a check that reports no change and writes
    nothing; a check that raises has written nothing.  The artifact is not
    its own marker blob, and stripping leaves its fingerprint as it is. *)
Theorem check_file_for_changes_settles :
  forall (st : state vector) (file_path user_id : string),
    file_path <> blob_hash_name user_id file_path ->
    strip (hash' st file_path) = hash' st file_path ->
    match check' st file_path user_id with
    | (st1, Ok _) => check' st1 file_path user_id = (st1, Ok false)
    | (st1, Raise _) => st1 = st
    end.
Proof.
  intros st file_path user_id Hm Hs.
  pose proof (check_outcome st file_path user_id) as Hck.
  destruct (check' st file_path user_id) as [st1 [[|]|e]] eqn:Hc.
  - subst st1.
    apply (check_unchanged vector sha256 strip _ file_path user_id
             (hash' st file_path)).
    + cbn [upload_blob_data blobs]. apply lookup_insert_eq.
    + rewrite Hs. apply hash_depends_on_artifact.
      cbn [upload_blob_data blobs]. now rewrite lookup_insert_ne by congruence.
  - destruct Hck as (-> & _). exact Hc.
  - exact Hck.
Qed.

(** X18.  A rebuild that fails leaves the old index in use.  When the
    artifact has changed (the marker differs from its fingerprint) the
    check stores the new fingerprint before anything is built; if the call
    then returns no index, the next call finds the marker up to date and
    loads the index persisted for the old artifact. *)
Theorem failed_rebuild_leaves_the_old_index_in_use :
  forall (st : state vector) (user_id file_path m : string)
         (old : Index vector),
    let name := blob_index_name user_id file_path in
    let marker := blob_hash_name user_id file_path in
    file_path <> marker ->
    strip (hash' st file_path) = hash' st file_path ->
    FAISS_INDEX_CACHE st !! name = None ->
    blobs st !! marker = Some (Bytes m) ->
    hash' st file_path <> strip m ->
    blobs st !! name = Some (Zip old) ->
    snd (init' st user_id file_path) = Ok None ->
    let st1 := fst (init' st user_id file_path) in
    blobs st1 !! marker = Some (Bytes (hash' st file_path))
    /\ init' st1 user_id file_path
       = (cache_store vector (print vector st1 LoadingFromBlob) name old,
          Ok (Some old)).
Proof.
  intros st user_id file_path m old name marker Hm Hs Hc Hmk Hne Hz Hr st1.
  pose proof (index_name_is_not_marker_name user_id file_path) as Hnm.
  fold name marker in Hnm.
  subst st1. revert Hr.
  remember (init' st user_id file_path) as out eqn:Hout.
  unfold initialize_retriever in Hout. fold name in Hout.
  rewrite Hc, (check_changed vector sha256 strip st file_path user_id m Hmk Hne)
    in Hout.
  fold marker in Hout.
  pose proof (rebuild_and_cache_outcome
                (upload_blob_data vector st marker (Bytes (hash' st file_path)))
                user_id file_path) as H.
  cbv zeta in H. rewrite <- Hout in H. intros Hr. rewrite Hr in H.
  destruct H as (Hb & Hcache). cbn [upload_blob_data blobs FAISS_INDEX_CACHE] in *.
  assert (Hmk' : blobs (fst out) !! marker = Some (Bytes (hash' st file_path)))
    by (rewrite Hb; apply lookup_insert_eq).
  split; [exact Hmk'|].
  apply (init_loads _ user_id file_path (hash' st file_path)).
  - fold name. now rewrite Hcache.
  - exact Hmk'.
  - rewrite Hs. apply hash_depends_on_artifact. rewrite Hb.
    now rewrite lookup_insert_ne by congruence.
  - fold name. rewrite Hb. now rewrite lookup_insert_ne by congruence.
Qed.

(** X19.  [initialize_retriever] keeps to its own two blobs and its own
    cache entry: every other cache entry and every other blob is as
    before, no blob is ever deleted, and an index that is in the cache
    is never replaced, with nothing written to blob storage. *)
Theorem initialize_retriever_frame :
  forall (st : state vector) (user_id file_path : string),
    let name := blob_index_name user_id file_path in
    let marker := blob_hash_name user_id file_path in
    let out := init' st user_id file_path in
    (forall other, other <> name ->
       FAISS_INDEX_CACHE (fst out) !! other = FAISS_INDEX_CACHE st !! other)
    /\ (forall other, other <> name -> other <> marker ->
          blobs (fst out) !! other = blobs st !! other)
    /\ (forall other, is_Some (blobs st !! other) ->
          is_Some (blobs (fst out) !! other))
    /\ (forall ix, FAISS_INDEX_CACHE st !! name = Some ix ->
          snd out = Ok (Some ix)
          /\ FAISS_INDEX_CACHE (fst out) = FAISS_INDEX_CACHE st
          /\ blobs (fst out) = blobs st).
Proof.
  intros st user_id file_path name marker out.
  assert (Hkeep : forall (bs : gmap string (blob vector)) k v other,
             is_Some (bs !! other) -> is_Some (<[k := v]> bs !! other)).
  { intros bs k v other H. destruct (decide (k = other)) as [->|Hk].
    - rewrite lookup_insert_eq. eauto.
    - now rewrite lookup_insert_ne. }
  assert (Hreb : forall st2 : state vector,
             FAISS_INDEX_CACHE st2 = FAISS_INDEX_CACHE st ->
             (forall other, other <> marker ->
                blobs st2 !! other = blobs st !! other) ->
             (forall other, is_Some (blobs st !! other) ->
                is_Some (blobs st2 !! other)) ->
             let o := rebuild_cache' st2 user_id file_path in
             (forall other, other <> name ->
                FAISS_INDEX_CACHE (fst o) !! other = FAISS_INDEX_CACHE st !! other)
             /\ (forall other, other <> name -> other <> marker ->
                   blobs (fst o) !! other = blobs st !! other)
             /\ (forall other, is_Some (blobs st !! other) ->
                   is_Some (blobs (fst o) !! other))).
  { intros st2 H1 H2 H3 o.
    pose proof (rebuild_and_cache_outcome st2 user_id file_path) as H.
    cbv zeta in H. fold o name marker in H.
    destruct (snd o) as [[ix|]|e]; [| |destruct H].
    - destruct H as (Hb & Hcache & _). rewrite Hb, Hcache. split; [|split].
      + intros other Ho. rewrite lookup_insert_ne by congruence. now rewrite H1.
      + intros other Ho Ho'. rewrite !lookup_insert_ne by congruence. auto.
      + intros other Ho. auto.
    - destruct H as (Hb & Hcache). rewrite Hb, Hcache, H1. auto. }
  subst out. unfold initialize_retriever. fold name.
  destruct (FAISS_INDEX_CACHE st !! name) as [ix|] eqn:Hc.
  { cbn [fst snd print FAISS_INDEX_CACHE blobs].
    split; [auto|]. split; [auto|]. split; [auto|].
    intros ix' [= <-]. auto. }
  match goal with
  | |- ?A /\ ?B /\ ?C /\ _ =>
      enough (A /\ B /\ C) as (HA & HB & HC)
        by (split; [exact HA|split; [exact HB|split; [exact HC|]]];
            intros ? [=])
  end.
  pose proof (check_outcome st file_path user_id) as Hck. fold marker in Hck.
  destruct (check' st file_path user_id) as [st1 [[|]|e]].
  - subst st1. apply Hreb; cbn [upload_blob_data blobs FAISS_INDEX_CACHE]; auto.
    intros other Ho. now rewrite lookup_insert_ne by congruence.
  - destruct Hck as (-> & _).
    destruct (blob_exists vector st name); [|apply Hreb; auto].
    destruct (download_blob_data vector _ name) as [b|e];
      [|apply Hreb; cbn [print blobs FAISS_INDEX_CACHE]; auto].
    destruct (load_local vector b) as [ix|e];
      [|apply Hreb; cbn [print blobs FAISS_INDEX_CACHE]; auto].
    cbn [fst cache_store print FAISS_INDEX_CACHE blobs].
    split; [|auto]. intros other Ho. now rewrite lookup_insert_ne by congruence.
  - subst st1. cbn [fst]. auto.
Qed.

(** X20.  Without the artifact nothing is built: a call that finds neither
    a cache entry, nor the artifact, nor a persisted index never returns an
    index, caches none and persists none.  It still leaves a marker: where
    there was none, the marker now holds the empty fingerprint. *)
Theorem missing_artifact_gives_no_index :
  forall (st : state vector) (user_id file_path : string),
    let name := blob_index_name user_id file_path in
    let marker := blob_hash_name user_id file_path in
    let out := init' st user_id file_path in
    file_path <> marker ->
    FAISS_INDEX_CACHE st !! name = None ->
    blobs st !! file_path = None ->
    blobs st !! name = None ->
    (forall ix, snd out <> Ok (Some ix))
    /\ FAISS_INDEX_CACHE (fst out) = FAISS_INDEX_CACHE st
    /\ blobs (fst out) !! name = None
    /\ blobs (fst out) !! file_path = None
    /\ (blobs st !! marker = None ->
        snd out = Ok None /\ blobs (fst out) !! marker = Some (Bytes "")).
Proof.
  intros st user_id file_path name marker out Hm Hc Hf Hz.
  pose proof (index_name_is_not_marker_name user_id file_path) as Hnm.
  fold name marker in Hnm.
  assert (Hreb : forall st2 : state vector,
             blobs st2 !! file_path = None ->
             rebuild_cache' st2 user_id file_path
             = (print vector st2 Rebuilding, Ok None)).
  { intros st2 H2. unfold rebuild_and_cache, rebuild_faiss_index, blob_exists.
    cbn [print blobs]. now rewrite H2. }
  subst out. unfold initialize_retriever. fold name. rewrite Hc.
  pose proof (check_outcome st file_path user_id) as Hck. fold marker in Hck.
  assert (Hnone : blobs st !! marker = None ->
                  check' st file_path user_id
                  = (upload_blob_data vector st marker (Bytes ""), Ok true)).
  { intros H. unfold check_file_for_changes, blob_exists. fold marker.
    rewrite H. unfold compute_file_hash, download_blob_data. now rewrite Hf. }
  destruct (check' st file_path user_id) as [st1 [[|]|e]] eqn:Hck'.
  - subst st1. rewrite Hreb
      by (cbn [upload_blob_data blobs]; now rewrite lookup_insert_ne by congruence).
    cbn [fst snd print upload_blob_data blobs FAISS_INDEX_CACHE].
    rewrite !lookup_insert_ne by congruence.
    split; [discriminate|]. split; [reflexivity|]. split; [exact Hz|].
    split; [exact Hf|]. intros H. specialize (Hnone H).
    injection Hnone as Hnone. split; [reflexivity|].
    apply (f_equal (fun bs : gmap string (blob vector) => bs !! marker)) in Hnone.
    rewrite !lookup_insert_eq in Hnone. rewrite lookup_insert_eq.
    exact Hnone.
  - destruct Hck as (-> & m0 & Hm0 & _). unfold blob_exists. rewrite Hz.
    rewrite Hreb by exact Hf. cbn [fst snd print blobs FAISS_INDEX_CACHE].
    split; [discriminate|]. split; [reflexivity|]. split; [exact Hz|].
    split; [exact Hf|]. intros H. congruence.
  - subst st1. cbn [fst snd].
    split; [discriminate|]. split; [reflexivity|]. split; [exact Hz|].
    split; [exact Hf|]. intros H. specialize (Hnone H). discriminate.
Qed.

End IndexCacheMore.

Section IndexCacheMoreExamples.
Import IndexCache.

Lemma fresh_process_loads_persisted_index_witness :
  let st : state nat := mkState ∅ {[ artifact := Bytes "text" ]} [] in
  let init := initialize_retriever nat toy_sha256 Currency.ascii_strip toy_parse
                toy_split toy_embed in
  let fresh := mkState ∅ (blobs (fst (init st "u1" artifact))) [] in
  init fresh "u1" artifact
  = (cache_store nat (print nat fresh LoadingFromBlob)
       (blob_index_name "u1" artifact) (mkIndex [4%nat; 4%nat] ["good"; "text"]),
     Ok (Some (mkIndex [4%nat; 4%nat] ["good"; "text"]))).
Proof.
  intros st init fresh.
  apply (fresh_process_loads_persisted_index nat toy_sha256 Currency.ascii_strip
           toy_parse toy_split toy_embed st "u1" artifact
           (mkIndex [4%nat; 4%nat] ["good"; "text"]) []);
    [vm_compute; discriminate | vm_compute; discriminate
    | vm_compute; reflexivity | reflexivity | vm_compute; reflexivity].
Defined.

Lemma check_file_for_changes_settles_witness :
  let st : state nat :=
    mkState ∅ {[ artifact := Bytes "new";
                 blob_hash_name "u1" artifact := Bytes "h(old)" ]} [] in
  match check_file_for_changes nat toy_sha256 Currency.ascii_strip st artifact "u1"
  with
  | (st1, Ok _) =>
      check_file_for_changes nat toy_sha256 Currency.ascii_strip st1 artifact "u1"
      = (st1, Ok false)
  | (st1, Raise _) => st1 = st
  end.
Proof.
  intros st.
  apply (check_file_for_changes_settles nat toy_sha256 Currency.ascii_strip st
           artifact "u1");
    [vm_compute; discriminate | vm_compute; reflexivity].
Defined.

Lemma failed_rebuild_leaves_the_old_index_in_use_witness :
  let old : Index nat := mkIndex [3%nat] ["old"] in
  let st : state nat :=
    mkState ∅ {[ artifact := Bytes "bad";
                 blob_hash_name "u1" artifact := Bytes "h(old)";
                 blob_index_name "u1" artifact := Zip old ]} [] in
  let init := initialize_retriever nat toy_sha256 Currency.ascii_strip toy_parse
                toy_split toy_embed in
  let st1 := fst (init st "u1" artifact) in
  blobs st1 !! blob_hash_name "u1" artifact
  = Some (Bytes (compute_file_hash nat toy_sha256 st artifact))
  /\ init st1 "u1" artifact
     = (cache_store nat (print nat st1 LoadingFromBlob)
          (blob_index_name "u1" artifact) old, Ok (Some old)).
Proof.
  intros old st init st1.
  apply (failed_rebuild_leaves_the_old_index_in_use nat toy_sha256
           Currency.ascii_strip toy_parse toy_split toy_embed st "u1" artifact
           "h(old)" old);
    [vm_compute; discriminate | vm_compute; reflexivity | reflexivity
    | reflexivity | vm_compute; discriminate | reflexivity
    | vm_compute; reflexivity].
Defined.

Lemma missing_artifact_gives_no_index_witness :
  let st : state nat := mkState ∅ ∅ [] in
  let out := initialize_retriever nat toy_sha256 Currency.ascii_strip toy_parse
               toy_split toy_embed st "u1" artifact in
  (forall ix, snd out <> Ok (Some ix))
  /\ FAISS_INDEX_CACHE (fst out) = FAISS_INDEX_CACHE st
  /\ blobs (fst out) !! blob_index_name "u1" artifact = None
  /\ blobs (fst out) !! artifact = None
  /\ (blobs st !! blob_hash_name "u1" artifact = None ->
      snd out = Ok None
      /\ blobs (fst out) !! blob_hash_name "u1" artifact = Some (Bytes "")).
Proof.
  intros st out.
  apply (missing_artifact_gives_no_index nat toy_sha256 Currency.ascii_strip
           toy_parse toy_split toy_embed st "u1" artifact);
    [vm_compute; discriminate | reflexivity | reflexivity | reflexivity].
Defined.

End IndexCacheMoreExamples.

Section ArtifactNames.
Import IndexCache.

Abbreviation chars := list_ascii_of_string.
Abbreviation text := string_of_list_ascii.

Lemma chars_append (s t : string) : chars (s +:+ t) = (chars s ++ chars t)%list.
Proof. induction s as [|c s IH]; simpl; [reflexivity|f_equal; exact IH]. Qed.

Lemma text_app (l l' : list ascii) : text (l ++ l') = text l +:+ text l'.
Proof. induction l as [|c l IH]; simpl; [reflexivity|rewrite IH; reflexivity]. Qed.

Lemma append_assoc (a b c : string) : (a +:+ b) +:+ c = a +:+ b +:+ c.
Proof.
  induction a as [|x a IH]; [reflexivity|].
  change (String x ((a +:+ b) +:+ c) = String x (a +:+ b +:+ c)).
  now rewrite IH.
Qed.

Lemma basename_from_plain acc t :
  ~ In "/"%char t -> basename_from acc t = (acc ++ t)%list.
Proof.
  revert acc. induction t as [|c t IH]; intros acc Hn; cbn [basename_from].
  - now rewrite app_nil_r.
  - destruct (Ascii.eqb_spec c "/") as [->|_]; [destruct Hn; now left|].
    rewrite IH by (intros H; apply Hn; now right).
    now rewrite <- app_assoc.
Qed.

Lemma basename_from_slash acc l t :
  ~ In "/"%char t ->
  basename_from acc (l ++ "/"%char :: t) = t.
Proof.
  intros Hn. revert acc. induction l as [|c l IH]; intros acc; cbn [app basename_from].
  - cbn. now rewrite basename_from_plain.
  - destruct (Ascii.eqb c "/"); apply IH.
Qed.

Lemma prefix_append (s t : string) : String.prefix s (s +:+ t) = true.
Proof.
  induction s as [|c s IH]; simpl; [now destruct t|].
  destruct (ascii_dec c c); [exact IH|contradiction].
Qed.

(** X21.  The blobs of the index are named after the artifact of the job:
    for the intermediate artifact a task uploads for a user and an idea,
    neither of whose names holds a slash, the base name is
    [<user>-<idea>], so the index lives next to the artifact under
    [user_cache/<user>/]. *)
Theorem index_of_job_artifact :
  forall (current_user : string) (userIdeasId : pyval),
    ~ In "/"%char (chars current_user) ->
    ~ In "/"%char (chars (py_str userIdeasId)) ->
    let file_path := Tasks.cache_path current_user userIdeasId in
    get_blob_file_base current_user file_path
    = current_user +:+ "-" +:+ py_str userIdeasId
    /\ blob_index_name current_user file_path
       = "user_cache/" +:+ current_user +:+ "/faiss_index_" +:+ current_user
           +:+ "-" +:+ py_str userIdeasId +:+ ".zip"
    /\ blob_hash_name current_user file_path
       = "user_cache/" +:+ current_user +:+ "/" +:+ current_user
           +:+ "-" +:+ py_str userIdeasId +:+ "_data_hash.txt".
Proof.
  intros u ids Hu Hi file_path.
  assert (Hbase : get_blob_file_base u file_path = u +:+ "-" +:+ py_str ids).
  { subst file_path. unfold get_blob_file_base, Tasks.cache_path.
    set (i := py_str ids) in *.
    assert (Hb : basename ("user_cache/" +:+ u +:+ "/" +:+ u +:+ "-" +:+ i +:+ ".json")
                 = u +:+ "-" +:+ i +:+ ".json").
    { unfold basename.
      replace (chars ("user_cache/" +:+ u +:+ "/" +:+ u +:+ "-" +:+ i +:+ ".json"))
        with ((chars "user_cache/" ++ chars u) ++ "/"%char
                :: chars (u +:+ "-" +:+ i +:+ ".json"))%list
        by (rewrite !chars_append, <- !app_assoc; reflexivity).
      rewrite basename_from_slash; [apply string_of_list_ascii_of_string|].
      rewrite !chars_append. rewrite !in_app_iff.
      cbn. intuition congruence. }
    rewrite Hb.
    replace (startswith (u +:+ "-" +:+ i +:+ ".json") (u +:+ "-")) with true.
    2:{ unfold startswith. symmetry.
        replace (u +:+ "-" +:+ i +:+ ".json") with ((u +:+ "-") +:+ i +:+ ".json").
        - apply prefix_append.
        - apply append_assoc. }
    replace (endswith (u +:+ "-" +:+ i +:+ ".json") ".json") with true.
    2:{ unfold endswith. symmetry.
        replace (chars (u +:+ "-" +:+ i +:+ ".json"))
          with (chars (u +:+ "-" +:+ i) ++ chars ".json")%list
          by (rewrite !chars_append, <- !app_assoc; reflexivity).
        rewrite rev_app_distr, text_app. apply prefix_append. }
    cbn [andb]. unfold drop_last.
    replace (chars (u +:+ "-" +:+ i +:+ ".json"))
      with (chars (u +:+ "-" +:+ i) ++ chars ".json")%list
      by (rewrite !chars_append, <- !app_assoc; reflexivity).
    rewrite rev_app_distr.
    change (rev (chars ".json")) with (chars "nosj.").
    cbn [list_ascii_of_string app drop]. rewrite drop_0.
    rewrite rev_involutive. apply string_of_list_ascii_of_string. }
  split; [exact Hbase|].
  unfold blob_index_name, blob_hash_name. rewrite Hbase.
  now rewrite !append_assoc.
Qed.

Lemma index_of_job_artifact_witness :
  let file_path := Tasks.cache_path "u1" (PStr "i1") in
  get_blob_file_base "u1" file_path = "u1" +:+ "-" +:+ py_str (PStr "i1")
  /\ blob_index_name "u1" file_path
     = "user_cache/" +:+ "u1" +:+ "/faiss_index_" +:+ "u1"
         +:+ "-" +:+ py_str (PStr "i1") +:+ ".zip"
  /\ blob_hash_name "u1" file_path
     = "user_cache/" +:+ "u1" +:+ "/" +:+ "u1"
         +:+ "-" +:+ py_str (PStr "i1") +:+ "_data_hash.txt".
Proof.
  apply (index_of_job_artifact "u1" (PStr "i1"));
    vm_compute; intuition discriminate.
Defined.

End ArtifactNames.

(** ** The free-tier generator *)

Section FreeReportFacts.
Import Currency.

Lemma upper_char_fixes_capitals c :
  is_upper_letter c = true -> upper_char c = c.
Proof.
  unfold is_upper_letter, upper_char. intros H.
  apply andb_true_iff in H as [H1 H2].
  apply Nat.leb_le in H1. apply Nat.leb_le in H2.
  replace ((97 <=? nat_of_ascii c)%nat) with false; [reflexivity|].
  symmetry. apply Nat.leb_gt. lia.
Qed.

(** [str.upper] leaves a code of three capital letters as it is. *)
Lemma ascii_upper_fixes_codes s :
  fullmatch_code s = true -> ascii_upper s = s.
Proof.
  intros H. apply fullmatch_code_spec in H as (a & b & c & -> & Ha & Hb & Hc).
  cbn [ascii_upper]. now rewrite !upper_char_fixes_capitals.
Qed.

(** X22.  The currency helper of the free tier also returns a value that
    matches [^[A-Z]{3}$] whatever the completion call does, and it is the
    stricter of the two helpers: on the same reply it returns what the
    paid-tier helper returns, or else ['USD'].  Upper-casing leaves three
    capital letters as they are. *)
Theorem free_currency_helper_is_stricter :
  forall (strip upper : string -> string) (location_name : string)
         (completion : string -> result (option string)),
    (forall s, fullmatch_code s = true -> upper s = s) ->
    let free := FreeReport.get_currency_via_llm strip location_name completion in
    let paid := get_currency_via_llm strip upper location_name completion in
    fullmatch_code free = true /\ (free = paid \/ free = "USD").
Proof.
  intros strip upper location_name completion Hupper free paid.
  subst free paid. unfold FreeReport.get_currency_via_llm, get_currency_via_llm.
  destruct (completion (currency_prompt location_name)) as [[s|]|e];
    try (split; [reflexivity|now left]).
  destruct (fullmatch_code (strip s)) eqn:Hm.
  - split; [exact Hm|]. left. rewrite (Hupper _ Hm), Hm. reflexivity.
  - split; [reflexivity|now right].
Qed.

Lemma free_currency_helper_is_stricter_witness :
  let completion : string -> result (option string) :=
    fun _ => Ok (Some " JPY ") in
  let free := FreeReport.get_currency_via_llm ascii_strip "Tokyo, Japan"
                completion in
  let paid := get_currency_via_llm ascii_strip ascii_upper "Tokyo, Japan"
                completion in
  fullmatch_code free = true /\ (free = paid \/ free = "USD").
Proof.
  intros completion.
  apply (free_currency_helper_is_stricter ascii_strip ascii_upper "Tokyo, Japan"
           completion ascii_upper_fixes_codes).
Defined.

(** A reply in lower case: accepted by the paid tier, defaulted by the
    free tier. *)
Example lowercase_reply_splits_the_helpers :
  let completion : string -> result (option string) := fun _ => Ok (Some "eur") in
  FreeReport.get_currency_via_llm ascii_strip "Germany" completion = "USD"
  /\ get_currency_via_llm ascii_strip ascii_upper "Germany" completion = "EUR".
Proof. split; reflexivity. Qed.

(** X23.  The generator of the free tier turns down, with a reply that has
    no ['free_report_content'], exactly the ideas that are falsy or not a
    string.  Its check of the location never fires for a call from the
    free-tier task, which has replaced every such location by ['USA']. *)
Theorem free_generator_rejects_only_the_idea :
  forall (idea location : pyval),
    match FreeReport.invalid_input idea (Tasks.free_location location) with
    | Some reply =>
        (truthy idea = false \/ is_str idea = false)
        /\ reply = PDict [("error", PStr "Invalid 'idea' input.")]
        /\ py_getitem reply "free_report_content"
           = Raise (KeyError "free_report_content")
    | None => truthy idea = true /\ is_str idea = true
    end.
Proof.
  intros idea location. unfold FreeReport.invalid_input.
  destruct (truthy idea) eqn:Ht; cbn [negb orb]; [|auto].
  destruct (is_str idea) eqn:Hs; cbn [negb]; [|auto].
  unfold Tasks.free_location.
  destruct (negb (truthy location) || negb (is_str location)) eqn:Hl.
  - cbn. auto.
  - rewrite Hl. auto.
Qed.

End FreeReportFacts.

(** ** The JSON conversion *)

Section JsonReportFacts.
Import JsonReport.

Variable generate : string -> pyval -> result pyval.
Variable report_content : pyval.


End JsonReportFacts.

Section JsonReportSections.
Import JsonReport.




End JsonReportSections.

(** ** Reading JSON out of a completion *)

Section JsonTextFacts.
Import JsonText.

Abbreviation chars' := list_ascii_of_string.
Abbreviation text' := string_of_list_ascii.

Lemma from_first_open_some l m :
  from_first_open l = Some m ->
  exists pre t, l = (pre ++ m)%list /\ m = "{"%char :: t /\ ~ In "{"%char pre.
Proof.
  revert m. induction l as [|c r IH]; intros m; cbn [from_first_open];
    [discriminate|].
  destruct (Ascii.eqb_spec c "{") as [->|Hc].
  - intros [= <-]. exists [], r. auto.
  - intros H. destruct (IH m H) as (pre & t & -> & -> & Hn).
    exists (c :: pre), t. split; [reflexivity|]. split; [reflexivity|].
    intros [?|?]; [congruence|contradiction].
Qed.

Lemma from_first_open_none l :
  from_first_open l = None -> ~ In "{"%char l.
Proof.
  induction l as [|c r IH]; cbn [from_first_open]; [auto|].
  destruct (Ascii.eqb_spec c "{") as [->|Hc]; [discriminate|].
  intros H [?|?]; [congruence|now apply IH].
Qed.

Lemma upto_last_close_some l p :
  upto_last_close l = Some p ->
  exists q post, l = (p ++ post)%list /\ p = (q ++ ["}"%char])%list
                 /\ ~ In "}"%char post.
Proof.
  revert p. induction l as [|c r IH]; intros p; cbn [upto_last_close];
    [discriminate|].
  destruct (upto_last_close r) as [p'|] eqn:Hr.
  - intros [= <-]. destruct (IH p' eq_refl) as (q & post & -> & -> & Hn).
    exists (c :: q), post. auto.
  - destruct (Ascii.eqb_spec c "}") as [->|Hc]; [|discriminate].
    intros [= <-]. exists [], r. split; [reflexivity|]. split; [reflexivity|].
    clear IH. revert Hr. induction r as [|d r IH]; cbn [upto_last_close]; [auto|].
    destruct (upto_last_close r); [discriminate|].
    destruct (Ascii.eqb_spec d "}") as [->|Hd]; [discriminate|].
    intros _ [?|?]; [congruence|now apply IH].
Qed.

Lemma upto_last_close_none l :
  upto_last_close l = None -> ~ In "}"%char l.
Proof.
  induction l as [|c r IH]; cbn [upto_last_close]; [auto|].
  destruct (upto_last_close r); [discriminate|].
  destruct (Ascii.eqb_spec c "}") as [->|Hc]; [discriminate|].
  intros _ [?|?]; [congruence|now apply IH].
Qed.

Lemma upto_last_close_closed q :
  upto_last_close (q ++ ["}"%char]) = Some (q ++ ["}"%char])%list.
Proof.
  induction q as [|c q IH]; [reflexivity|].
  cbn [app upto_last_close]. now rewrite IH.
Qed.

Lemma chars_app (s t : string) : chars' (s +:+ t) = (chars' s ++ chars' t)%list.
Proof. induction s as [|c s IH]; simpl; [reflexivity|f_equal; exact IH]. Qed.

Lemma text_of_app (l l' : list ascii) : text' (l ++ l') = text' l +:+ text' l'.
Proof. induction l as [|c l IH]; simpl; [reflexivity|rewrite IH; reflexivity]. Qed.

(** Stripping leaves a text that ends in a visible character alone at
    that end. *)
Lemma rstrip_visible_end s c :
  Currency.is_space c = false ->
  Currency.rstrip (s +:+ String c "") = s +:+ String c "".
Proof.
  intros Hc. induction s as [|a s IH].
  - change ("" +:+ String c "") with (String c "").
    cbn [Currency.rstrip]. now rewrite Hc.
  - change (String a s +:+ String c "") with (String a (s +:+ String c "")).
    cbn [Currency.rstrip]. rewrite IH.
    destruct s; reflexivity.
Qed.

Lemma strip_braced q :
  Currency.ascii_strip (text' ("{"%char :: q ++ ["}"%char]))
  = text' ("{"%char :: q ++ ["}"%char]).
Proof.
  unfold Currency.ascii_strip.
  change (text' ("{"%char :: q ++ ["}"%char]))
    with (String "{" (text' (q ++ ["}"%char]))).
  cbn [Currency.lstrip]. change (Currency.is_space "{") with false. cbv iota.
  rewrite text_of_app.
  change (String "{" (text' q +:+ text' ["}"%char]))
    with (String "{" (text' q) +:+ String "}" "").
  now apply rstrip_visible_end.
Qed.

(** Where a text begins, behind a part free of [x], with [x]. *)
Lemma first_occurrence (x : ascii) pre m a rest :
  (pre ++ m = a ++ x :: rest)%list -> ~ In x pre ->
  exists d, m = (d ++ x :: rest)%list.
Proof.
  revert a. induction pre as [|c pre IH]; intros a H Hn.
  - exists a. exact H.
  - destruct a as [|c' a]; cbn [app] in H; injection H as -> H.
    + destruct Hn. now left.
    + apply (IH a H). intros ?. apply Hn. now right.
Qed.

(** X25.  [extract_possible_json] returns the part of the text from its
    first opening brace to its last closing brace: before it there is no
    opening brace, behind it no closing brace, and extracting from the
    result gives the result again.  It returns nothing exactly when no
    opening brace of the text has a closing brace behind it. *)
Theorem extract_possible_json_spec :
  forall text : string,
    match extract_possible_json text with
    | Some r =>
        exists pre body post,
          text = pre +:+ r +:+ post
          /\ r = "{" +:+ body +:+ "}"
          /\ ~ In "{"%char (chars' pre)
          /\ ~ In "}"%char (chars' post)
          /\ extract_possible_json r = Some r
    | None => forall a b c, text <> a +:+ "{" +:+ b +:+ "}" +:+ c
    end.
Proof.
  intros text. unfold extract_possible_json, search_braces.
  destruct (from_first_open (chars' text)) as [m|] eqn:Hm.
  - destruct (from_first_open_some _ _ Hm) as (pre & t & Ht & -> & Hpre).
    destruct (upto_last_close ("{"%char :: t)) as [p|] eqn:Hp.
    + destruct (upto_last_close_some _ _ Hp) as (q & post & Hl & -> & Hpost).
      destruct q as [|c q]; cbn [app] in Hl; injection Hl as Hc Hl.
      { (* the match cannot be the closing brace alone *) discriminate Hc. }
      subst c t. cbn [app]. rewrite strip_braced.
      exists (text' pre), (text' q), (text' post).
      rewrite !list_ascii_of_string_of_list_ascii.
      split; [|split; [|split; [exact Hpre|split; [exact Hpost|]]]].
      * rewrite <- (string_of_list_ascii_of_string text), Ht.
        rewrite text_of_app.
        change ("{"%char :: (q ++ ["}"%char]) ++ post)%list
          with (("{"%char :: q ++ ["}"%char]) ++ post)%list.
        now rewrite text_of_app.
      * change (text' ("{"%char :: q ++ ["}"%char]))
          with (String "{" (text' (q ++ ["}"%char]))).
        now rewrite text_of_app.
      * rewrite ?list_ascii_of_string_of_list_ascii.
        cbn [from_first_open]. change (Ascii.eqb "{" "{") with true. cbv iota.
        change ("{"%char :: q ++ ["}"%char])%list
          with (("{"%char :: q) ++ ["}"%char])%list.
        rewrite upto_last_close_closed. cbn [app]. now rewrite strip_braced.
    + intros a b c Heq. apply (f_equal chars') in Heq.
      rewrite Ht, !chars_app in Heq.
      change (chars' "{") with ["{"%char] in Heq. cbn [app] in Heq.
      destruct (first_occurrence _ _ _ _ _ Heq Hpre) as (d & Hd).
      apply (upto_last_close_none _ Hp). rewrite Hd.
      apply in_or_app. right. right.
      apply in_or_app. right. apply in_or_app. left. now left.
  - intros a b c Heq. apply (f_equal chars') in Heq.
    apply (from_first_open_none _ Hm). rewrite Heq, !chars_app.
    apply in_or_app. right. apply in_or_app. left. now left.
Qed.

Example extract_from_fenced_reply :
  extract_possible_json
    ("Here you go: {" +:+ "a: {b: 1}} and a stray } brace")
  = Some ("{" +:+ "a: {b: 1}} and a stray }")
  /\ extract_possible_json "} no json {" = None.
Proof. split; reflexivity. Qed.

End JsonTextFacts.

(** ** Maintenance of the ledger *)

Section MaintenanceFacts.
Import Ledger Maintenance.

(** X26.  After [assign_two_free_credits_to_all_users] every user has
    exactly two free reports to spend: with the paid credits and the set of
    users as before, a first and a second debit of one free credit are
    accepted and a third one is refused for want of credits, leaving the
    balance at zero.  Running the assignment twice is the same as running
    it once. *)
Theorem two_free_credits_for_everyone :
  forall (db : users) (user_id : string) (c : Credits),
    db !! user_id = Some c ->
    let db0 := assign_two_free_credits_to_all_users db in
    let first := update_user_credits_by_type db0 user_id (-1) "free" in
    let second := update_user_credits_by_type (fst first) user_id (-1) "free" in
    let third := update_user_credits_by_type (fst second) user_id (-1) "free" in
    db0 !! user_id = Some (mkCredits (paid_credits c) 2)
    /\ dom db0 = dom db
    /\ assign_two_free_credits_to_all_users db0 = db0
    /\ snd first = Ok (mkCredits (paid_credits c) 1)
    /\ snd second = Ok (mkCredits (paid_credits c) 0)
    /\ third
       = (fst second,
          Raise (Exception
                   "Error updating user credits: Insufficient free credits"))
    /\ fst second !! user_id = Some (mkCredits (paid_credits c) 0).
Proof.
  intros db user_id c Hu db0 first second third.
  assert (H0 : db0 !! user_id = Some (mkCredits (paid_credits c) 2)).
  { subst db0. unfold assign_two_free_credits_to_all_users.
    now rewrite lookup_fmap, Hu. }
  assert (H1 : first = (<[user_id := mkCredits (paid_credits c) 1]> db0,
                        Ok (mkCredits (paid_credits c) 1))).
  { subst first.
    now rewrite (debit_one db0 user_id "free" _ H0 eq_refl eq_refl). }
  assert (H2 : second
               = (<[user_id := mkCredits (paid_credits c) 0]> (fst first),
                  Ok (mkCredits (paid_credits c) 0))).
  { subst second. rewrite H1. cbn [fst].
    now rewrite (debit_one _ user_id "free" (mkCredits (paid_credits c) 1)
                   (lookup_insert_eq _ _ _) eq_refl eq_refl). }
  split; [exact H0|]. split; [|split; [|split; [|split; [|split]]]].
  - subst db0. unfold assign_two_free_credits_to_all_users. apply dom_fmap_L.
  - subst db0. unfold assign_two_free_credits_to_all_users.
    rewrite <- map_fmap_compose. reflexivity.
  - now rewrite H1.
  - now rewrite H2.
  - subst third. rewrite H2. cbn [fst].
    unfold update_user_credits_by_type, update_user_credits_body.
    cbn [valid_credit_type String.eqb orb negb].
    rewrite lookup_insert_eq. reflexivity.
  - rewrite H2. cbn [fst]. apply lookup_insert_eq.
Qed.

Lemma two_free_credits_for_everyone_witness :
  let db : users := {[ "u1" := mkCredits 5 0; "u2" := mkCredits 0 7 ]} in
  let db0 := assign_two_free_credits_to_all_users db in
  let first := update_user_credits_by_type db0 "u2" (-1) "free" in
  let second := update_user_credits_by_type (fst first) "u2" (-1) "free" in
  let third := update_user_credits_by_type (fst second) "u2" (-1) "free" in
  db0 !! "u2" = Some (mkCredits (paid_credits (mkCredits 0 7)) 2)
  /\ dom db0 = dom db
  /\ assign_two_free_credits_to_all_users db0 = db0
  /\ snd first = Ok (mkCredits (paid_credits (mkCredits 0 7)) 1)
  /\ snd second = Ok (mkCredits (paid_credits (mkCredits 0 7)) 0)
  /\ third
     = (fst second,
        Raise (Exception
                 "Error updating user credits: Insufficient free credits"))
  /\ fst second !! "u2" = Some (mkCredits (paid_credits (mkCredits 0 7)) 0).
Proof.
  intros db.
  apply (two_free_credits_for_everyone db "u2" (mkCredits 0 7)).
  vm_compute. reflexivity.
Defined.

End MaintenanceFacts.

(** ** The completion call of the JSON conversion *)

Section CompletionFacts.
Import Completion.

Variable strip : string -> string.
Variable seconds : Type.
Variable minus : seconds -> seconds -> seconds.
Variable time : nat -> seconds.
Variable create : nat -> result completion.

(** One iteration of the loop. *)
Lemma generate_loop_step section_name left attempt wait_time reads slept0 :
  let out := generate_loop strip seconds minus time create section_name 3
               (S left) attempt wait_time reads slept0 in
  match attempt_error (create attempt) with
  | None =>
      exists c p q t,
        create attempt = Ok (mkCompletion (Some c) (Some (p, q, t)))
        /\ exists d, out = mkRun (Some (mkGenerated (strip c) d p q)) slept0
                             (S attempt)
  | Some e =>
      if (attempt <? 2)%nat then
        exists reads',
          out = generate_loop strip seconds minus time create section_name 3
                  left (S attempt) (wait_time * 2) reads'
                  (slept0 ++ [wait_time])
      else
        exists d, out = mkRun (Some (mkGenerated (error_section section_name 3 e)
                                       d 0 0)) slept0 (S attempt)
  end.
Proof.
  cbv zeta. cbn [generate_loop]. change (3 - 1)%nat with 2%nat.
  unfold attempt_error.
  destruct (create attempt) as [[[c|] [[[p q] t]|]]|e]; cbn [content usage];
    try (destruct (attempt <? 2)%nat; eauto; fail).
  exists c, p, q, t. eauto.
Qed.

(** X27.  [generate_with_openai] always returns its dict, after at most
    three requests.  It returns the stripped content and the token counts
    of the first attempt that goes through, having slept 5 and then 10
    seconds after the attempts that failed before it; when all three
    attempts fail it returns, without a third sleep, the error section
    that quotes the exception of the last attempt, with both token counts
    at zero. *)
Theorem generate_with_openai_outcome :
  forall section_name : string,
    let out := generate_with_openai strip seconds minus time create
                 section_name in
    let failed k := forall i, (i < k)%nat ->
                      is_Some (attempt_error (create i)) in
    exists g,
      returned out = Some g
      /\ ((exists k c p q t,
              (k < 3)%nat /\ failed k
              /\ create k = Ok (mkCompletion (Some c) (Some (p, q, t)))
              /\ text g = strip c /\ input_tokens g = p /\ output_tokens g = q
              /\ slept out = take k [5; 10] /\ requests out = S k)
          \/ (exists e,
                failed 3%nat /\ attempt_error (create 2) = Some e
                /\ text g = error_section section_name 3 e
                /\ input_tokens g = 0 /\ output_tokens g = 0
                /\ slept out = [5; 10] /\ requests out = 3%nat)).
Proof.
  intros section_name out failed. subst out. unfold generate_with_openai.
  cbv zeta.
  assert (F0 : failed 0%nat) by (intros i Hi; lia).
  pose proof (generate_loop_step section_name 2 0 5 1 []) as H0.
  cbv zeta in H0. destruct (attempt_error (create 0)) as [e0|] eqn:E0.
  2:{ destruct H0 as (c & p & q & t & Hc & d & ->). eexists. split; [reflexivity|].
      left. exists 0%nat, c, p, q, t. cbn. repeat split; auto; lia. }
  cbn [Nat.ltb Nat.leb] in H0. destruct H0 as (r1 & ->).
  assert (F1 : failed 1%nat).
  { intros i Hi. assert (i = 0)%nat as -> by lia. rewrite E0. eauto. }
  pose proof (generate_loop_step section_name 1 1 (5 * 2) r1 ([] ++ [5])) as H1.
  cbv zeta in H1. destruct (attempt_error (create 1)) as [e1|] eqn:E1.
  2:{ destruct H1 as (c & p & q & t & Hc & d & ->). eexists. split; [reflexivity|].
      left. exists 1%nat, c, p, q, t. cbn.
      split; [lia|]. split; [exact F1|]. auto 10. }
  cbn [Nat.ltb Nat.leb] in H1. destruct H1 as (r2 & ->).
  assert (F2 : failed 2%nat).
  { intros i Hi. destruct i as [|[|i]]; [rewrite E0|rewrite E1|lia]; eauto. }
  pose proof (generate_loop_step section_name 0 2 (5 * 2 * 2) r2
                (([] ++ [5]) ++ [5 * 2])) as H2.
  cbv zeta in H2. destruct (attempt_error (create 2)) as [e2|] eqn:E2.
  2:{ destruct H2 as (c & p & q & t & Hc & d & ->). eexists. split; [reflexivity|].
      left. exists 2%nat, c, p, q, t. cbn.
      split; [lia|]. split; [exact F2|]. auto 10. }
  cbn [Nat.ltb Nat.leb] in H2. destruct H2 as (d & ->).
  eexists. split; [reflexivity|]. right. exists e2. cbn.
  split; [|auto 10].
  intros i Hi. destruct i as [|[|[|i]]]; [rewrite E0|rewrite E1|rewrite E2|lia];
    eauto.
Qed.

(** The first request fails, the second goes through: one sleep. *)
Example second_attempt_goes_through :
  let out := generate_with_openai Currency.ascii_strip Z Z.sub Z.of_nat
               (fun n => match n with
                         | O => Raise (Exception "connection reset")
                         | _ => Ok (mkCompletion (Some " {} ") (Some (7, 2, 9)))
                         end) "Financials" in
  returned out = Some (mkGenerated "{}" 1 7 2)
  /\ slept out = [5] /\ requests out = 2%nat.
Proof. repeat split; reflexivity. Qed.

(** A rate limit on every attempt ends in an error section. *)
Example three_failures_give_error_section :
  option_map text
    (returned (generate_with_openai Currency.ascii_strip Z Z.sub Z.of_nat
                 (fun _ => Raise (Exception "429")) "Slogan"))
  = Some (error_section "Slogan" 3 (Exception "429")).
Proof. reflexivity. Qed.

End CompletionFacts.

(** ** The completion call of the free tier *)

Section FreeCompletionFacts.
Import Completion FreeCompletion.

Variable strip : string -> string.
Variable seconds : Type.
Variable minus : seconds -> seconds -> seconds.
Variable time : nat -> seconds.
Variable create : nat -> reply.

Lemma free_generate_loop_step section_name left attempt wait_time slept0 :
  let out := generate_loop strip seconds minus time create section_name 3
               (S left) attempt wait_time slept0 in
  match attempt_failure (create attempt) with
  | None =>
      exists response c,
        create attempt = Completed response /\ content response = Some c
        /\ exists g, out = mkRun (Returned g) slept0 (S attempt)
                     /\ text g = strip c
                     /\ input_tokens g
                        = match usage response with
                          | Some (p, _, _) => p
                          | None => 0
                          end
                     /\ output_tokens g
                        = match usage response with
                          | Some (_, q, _) => q
                          | None => 0
                          end
  | Some f =>
      if (attempt =? 2)%nat then
        slept out = slept0 /\ requests out = S attempt
        /\ match f with
           | Unexpected x =>
               exists g, ended out = Returned g
                 /\ text g = error_section section_name 3
                               (unexpected_message section_name attempt x)
                 /\ input_tokens g = 0 /\ output_tokens g = 0
           | _ => ended out = Raised f
           end
      else
        out = generate_loop strip seconds minus time create section_name 3
                left (S attempt) (wait_time * 2) (slept0 ++ [wait_time])
  end.
Proof.
  cbv zeta. cbn [generate_loop]. change (3 - 1)%nat with 2%nat.
  unfold attempt_failure.
  destruct (create attempt) as [response|[msg|msg|x]].
  - destruct (content response) as [c|] eqn:Hc.
    + exists response, c. split; [reflexivity|]. split; [exact Hc|].
      eexists. split; [reflexivity|]. cbn. auto.
    + destruct (attempt =? 2)%nat; [|reflexivity].
      cbn. split; [reflexivity|]. split; [reflexivity|]. eauto.
  - destruct (attempt =? 2)%nat; cbn; auto.
  - destruct (attempt =? 2)%nat; cbn; auto.
  - destruct (attempt =? 2)%nat; [|reflexivity].
    cbn. split; [reflexivity|]. split; [reflexivity|]. eauto.
Qed.

(** X28.  [_generate_content] sends at most three requests and sleeps 5
    and then 10 seconds after the first two failures, never a third time.
    It returns the stripped content of the first attempt that goes
    through, with the token counts of its usage, or zeros when the usage is
    missing.  When all three attempts fail, the third failure decides: an
    error of the API, the rate limit included, is raised again as it is,
    and anything else is turned into the error section that quotes the
    third attempt, with both token counts at zero. *)
Theorem free_generate_content_outcome :
  forall section_name : string,
    let out := _generate_content strip seconds minus time create section_name in
    let failed k := forall i, (i < k)%nat ->
                      is_Some (attempt_failure (create i)) in
    (exists k response c g,
        (k < 3)%nat /\ failed k
        /\ create k = Completed response /\ content response = Some c
        /\ ended out = Returned g /\ text g = strip c
        /\ input_tokens g
           = match usage response with Some (p, _, _) => p | None => 0 end
        /\ output_tokens g
           = match usage response with Some (_, q, _) => q | None => 0 end
        /\ slept out = take k [5; 10] /\ requests out = S k)
    \/ (exists f,
          failed 3%nat /\ attempt_failure (create 2) = Some f
          /\ slept out = [5; 10] /\ requests out = 3%nat
          /\ match f with
             | Unexpected x =>
                 exists g, ended out = Returned g
                   /\ text g = error_section section_name 3
                                 (unexpected_message section_name 2 x)
                   /\ input_tokens g = 0 /\ output_tokens g = 0
             | _ => ended out = Raised f
             end).
Proof.
  intros section_name out failed. subst out. unfold _generate_content.
  cbv zeta.
  assert (F0 : failed 0%nat) by (intros i Hi; lia).
  pose proof (free_generate_loop_step section_name 2 0 5 []) as H0.
  cbv zeta in H0. destruct (attempt_failure (create 0)) as [f0|] eqn:E0.
  2:{ destruct H0 as (response & c & Hr & Hc & g & -> & Ht & Hi & Ho).
      left. exists 0%nat, response, c, g. cbn [ended slept requests take].
      split; [lia|]. split; [exact F0|]. auto 10. }
  cbn [Nat.eqb] in H0. rewrite H0. clear H0.
  assert (F1 : failed 1%nat).
  { intros i Hi. assert (i = 0)%nat as -> by lia. rewrite E0. eauto. }
  pose proof (free_generate_loop_step section_name 1 1 (5 * 2) ([] ++ [5])) as H1.
  cbv zeta in H1. destruct (attempt_failure (create 1)) as [f1|] eqn:E1.
  2:{ destruct H1 as (response & c & Hr & Hc & g & -> & Ht & Hi & Ho).
      left. exists 1%nat, response, c, g. cbn [ended slept requests take app].
      split; [lia|]. split; [exact F1|]. auto 10. }
  cbn [Nat.eqb] in H1. rewrite H1. clear H1.
  assert (F2 : failed 2%nat).
  { intros i Hi. destruct i as [|[|i]]; [rewrite E0|rewrite E1|lia]; eauto. }
  pose proof (free_generate_loop_step section_name 0 2 (5 * 2 * 2)
                (([] ++ [5]) ++ [5 * 2])) as H2.
  cbv zeta in H2. destruct (attempt_failure (create 2)) as [f2|] eqn:E2.
  2:{ destruct H2 as (response & c & Hr & Hc & g & -> & Ht & Hi & Ho).
      left. exists 2%nat, response, c, g. cbn [ended slept requests take app].
      split; [lia|]. split; [exact F2|]. auto 10. }
  cbn [Nat.eqb] in H2. destruct H2 as (Hs & Hq & He).
  right. exists f2. split; [|split; [reflexivity|split; [exact Hs|split; [exact Hq|exact He]]]].
  intros i Hi. destruct i as [|[|[|i]]]; [rewrite E0|rewrite E1|rewrite E2|lia];
    eauto.
Qed.

(** A rate limit on every attempt is raised from the free-tier call. *)
Example rate_limit_three_times :
  let out := _generate_content Currency.ascii_strip Z Z.sub Z.of_nat
               (fun _ => Failed (RateLimitError "429")) "Slogan" in
  ended out = Raised (RateLimitError "429")
  /\ slept out = [5; 10] /\ requests out = 3%nat.
Proof. repeat split; reflexivity. Qed.

End FreeCompletionFacts.

(** ** Replies the currency helpers accept *)

Section CurrencyReplies.
Import Currency Replies.

Lemma lstrip_blank before s :
  blank before = true -> lstrip (before +:+ s) = lstrip s.
Proof.
  unfold blank. induction before as [|c before IH]; [reflexivity|].
  change (String c before +:+ s) with (String c (before +:+ s)).
  cbn [list_ascii_of_string forallb lstrip].
  intros [Hc Hb]%andb_true_iff. rewrite Hc. auto.
Qed.

Lemma rstrip_all_blank after : blank after = true -> rstrip after = "".
Proof.
  unfold blank. induction after as [|c after IH]; [reflexivity|].
  cbn [list_ascii_of_string forallb rstrip].
  intros [Hc Hb]%andb_true_iff. now rewrite IH, Hc.
Qed.

Lemma rstrip_blank s after :
  blank after = true -> rstrip (s +:+ after) = rstrip s.
Proof.
  intros Hb. induction s as [|c s IH].
  - now apply rstrip_all_blank.
  - change (String c s +:+ after) with (String c (s +:+ after)).
    cbn [rstrip]. now rewrite IH.
Qed.

Lemma letter_is_visible c : is_letter c = true -> is_space c = false.
Proof.
  unfold is_letter, is_upper_letter, is_space. cbv zeta. intros H.
  apply orb_true_iff in H as [H|H]; apply andb_true_iff in H as [H1 H2];
    apply Nat.leb_le in H1; apply Nat.leb_le in H2;
    repeat match goal with
      | |- orb _ _ = false => apply orb_false_iff; split
      | |- andb _ _ = false => apply andb_false_iff
      | |- (_ =? _)%nat = false => apply Nat.eqb_neq; lia
      end;
    try (right; apply Nat.leb_gt; lia).
Qed.

Lemma upper_of_letter c :
  is_letter c = true -> is_upper_letter (upper_char c) = true.
Proof.
  unfold is_letter. cbv zeta. intros H. apply orb_true_iff in H as [H|H].
  - now rewrite upper_char_fixes_capitals.
  - unfold upper_char. rewrite H. unfold is_upper_letter.
    apply andb_true_iff in H as [H1 H2].
    apply Nat.leb_le in H1. apply Nat.leb_le in H2.
    rewrite nat_ascii_embedding by lia.
    apply andb_true_iff. split; apply Nat.leb_le; lia.
Qed.

(** What stripping leaves of three letters between blanks. *)
Lemma strip_padded_code before after a b c :
  blank before = true -> blank after = true ->
  is_letter a = true -> is_letter c = true ->
  ascii_strip (before +:+ String a (String b (String c "")) +:+ after)
  = String a (String b (String c "")).
Proof.
  intros Hb Ha La Lc. unfold ascii_strip.
  rewrite (lstrip_blank _ _ Hb).
  change (String a (String b (String c "")) +:+ after)
    with (String a (String b (String c "") +:+ after)).
  cbn [lstrip]. rewrite (letter_is_visible a La).
  change (String a (String b (String c "") +:+ after))
    with (String a (String b (String c "")) +:+ after).
  rewrite (rstrip_blank _ _ Ha).
  apply (rstrip_visible_end (String a (String b "")) c (letter_is_visible c Lc)).
Qed.

(** X29.  A reply of three ASCII letters between blanks is accepted by
    the paid-tier helper in any mix of upper and lower case, and comes
    back in capitals; the free-tier helper accepts it only when the three
    letters are capitals already and answers ['USD'] otherwise. *)
Theorem padded_code_is_accepted :
  forall (location_name before after : string) (a b c : ascii)
         (completion : string -> result (option string)),
    blank before = true -> blank after = true ->
    is_letter a = true -> is_letter b = true -> is_letter c = true ->
    completion (currency_prompt location_name)
    = Ok (Some (before +:+ String a (String b (String c "")) +:+ after)) ->
    get_currency_via_llm ascii_strip ascii_upper location_name completion
    = String (upper_char a) (String (upper_char b) (String (upper_char c) ""))
    /\ FreeReport.get_currency_via_llm ascii_strip location_name completion
       = if is_upper_letter a && is_upper_letter b && is_upper_letter c
         then String a (String b (String c ""))
         else "USD".
Proof.
  intros location_name before after a b c completion Hb Ha La Lb Lc Hr.
  unfold get_currency_via_llm, FreeReport.get_currency_via_llm.
  rewrite Hr, (strip_padded_code before after a b c Hb Ha La Lc).
  split.
  - cbn [ascii_upper fullmatch_code].
    now rewrite !upper_of_letter.
  - reflexivity.
Qed.

Lemma padded_code_is_accepted_witness :
  let reply := " " +:+ String "e" (String "U" (String "r" "")) +:+ "  " in
  let completion : string -> result (option string) := fun _ => Ok (Some reply) in
  get_currency_via_llm ascii_strip ascii_upper "Germany" completion
  = String (upper_char "e") (String (upper_char "U") (String (upper_char "r") ""))
  /\ FreeReport.get_currency_via_llm ascii_strip "Germany" completion
     = if is_upper_letter "e" && is_upper_letter "U" && is_upper_letter "r"
       then String "e" (String "U" (String "r" ""))
       else "USD".
Proof.
  intros reply completion.
  apply (padded_code_is_accepted "Germany" " " "  " "e" "U" "r" completion);
    reflexivity.
Defined.

End CurrencyReplies.
